(** * strix.llm.antigravity: credential pool and streaming engine

    A shallow embedding of [auth.py], [client.py] and [constants.py].

    - Python values keep their shape: [str] is [string] (a sequence of
      8-bit characters), [int] is [Z], a list is a [list], a JSON value
      is a [json] tree, [None] is [None].
    - Wall-clock time ([time.time()]) is counted in whole seconds, as [Z].
    - Everything outside the process (the clock, the token endpoint of the
      identity provider, the upstream endpoints, other tasks that share the
      pool) is a [World]: a table of answers indexed by how many calls of
      that kind were made before.
    - The state of the process and of the backing file is a [State];
      methods are functions in a state-and-exception monad [M].
    - What the code does to the outside (refresh calls, file writes,
      streaming POSTs, yielded chunks) is appended to [trace]. *)

From Stdlib Require Import ZArith List String Ascii Bool Lia.
From Stdlib Require Import DecimalString.
From Stdlib Require DecimalFacts DecimalZ.
Import ListNotations.
Local Open Scope Z_scope.

(** ** Python built-ins used by the sources *)
Module Py.

(** [d.get(key, default)] on a value that may be absent. *)
Definition get_default {A : Type} (o : option A) (d : A) : A :=
  match o with Some a => a | None => d end.

(** Position read by [xs[i]] on a list of length [len]: negative indices
    count from the end, anything else out of range is an [IndexError]
    ([None]). *)
Definition norm_index (len : nat) (i : Z) : option nat :=
  if (0 <=? i) && (i <? Z.of_nat len) then Some (Z.to_nat i)
  else if (i <? 0) && (- Z.of_nat len <=? i) then Some (Z.to_nat (Z.of_nat len + i))
  else None.

(** [xs[pos] = f(xs[pos])]: in-place update of the object at a position. *)
Fixpoint update_nth {A : Type} (pos : nat) (f : A -> A) (xs : list A) : list A :=
  match xs, pos with
  | [], _ => []
  | x :: r, O => f x :: r
  | x :: r, S p => x :: update_nth p f r
  end.

(** Characters removed by [str.strip()]: the code points below 256 for
    which [str.isspace()] holds. *)
Definition is_space (c : ascii) : bool :=
  let n := nat_of_ascii c in
  ((9 <=? n) && (n <=? 13) || (28 <=? n) && (n <=? 32)
   || (n =? 133) || (n =? 160))%nat.

Fixpoint lstrip (s : string) : string :=
  match s with
  | String c r => if is_space c then lstrip r else s
  | EmptyString => EmptyString
  end.

Fixpoint rstrip (s : string) : string :=
  match s with
  | String c r =>
      match rstrip r with
      | EmptyString => if is_space c then EmptyString else String c EmptyString
      | r' => String c r'
      end
  | EmptyString => EmptyString
  end.

Definition strip (s : string) : string := rstrip (lstrip s).

(** [s.rstrip(chars)] for a single character. *)
Fixpoint rstrip_char (x : ascii) (s : string) : string :=
  match s with
  | String c r =>
      match rstrip_char x r with
      | EmptyString => if Ascii.eqb c x then EmptyString else String c EmptyString
      | r' => String c r'
      end
  | EmptyString => EmptyString
  end.

(** [s.startswith(p)] *)
Fixpoint startswith (p s : string) : bool :=
  match p with
  | EmptyString => true
  | String a p' =>
      match s with
      | String b s' => Ascii.eqb a b && startswith p' s'
      | EmptyString => false
      end
  end.

(** [s[n:]] *)
Fixpoint drop (n : nat) (s : string) : string :=
  match n, s with
  | O, _ => s
  | S k, String _ r => drop k r
  | S _, EmptyString => EmptyString
  end.

(** [c * n] for a one-character string. *)
Fixpoint repeat_char (c : ascii) (n : nat) : string :=
  match n with
  | O => EmptyString
  | S k => String c (repeat_char c k)
  end.

Definition is_digit (c : ascii) : bool :=
  let n := nat_of_ascii c in ((48 <=? n) && (n <=? 57))%nat.

Definition digit_val (c : ascii) : Z := Z.of_nat (nat_of_ascii c) - 48.

(** White space for [int()]: the code points below 256 it skips around a
    literal. This is not the set of [str.strip()]: the separators 28 to
    31 are not skipped. *)
Definition is_int_space (c : ascii) : bool :=
  let n := nat_of_ascii c in
  ((9 <=? n) && (n <=? 13) || (n =? 32) || (n =? 133) || (n =? 160))%nat.

Fixpoint skip_int_space (s : string) : string :=
  match s with
  | String c r => if is_int_space c then skip_int_space r else s
  | EmptyString => EmptyString
  end.

Fixpoint all_int_space (s : string) : bool :=
  match s with
  | String c r => is_int_space c && all_int_space r
  | EmptyString => true
  end.

(** The longest decimal literal [int()] converts
    ([sys.get_int_max_str_digits()], 4300 unless the process changes
    it); zeros in front count, underscores and the sign do not. *)
Definition int_max_str_digits : nat := 4300.

(** Digits of a decimal literal, most significant first, up to the white
    space that may end the string; one underscore is allowed between two
    digits. [prev] tells whether the previous character was a digit,
    [count] how many digits were read. *)
Fixpoint int_digits (prev : bool) (acc : Z) (count : nat) (s : string)
  : option Z :=
  match s with
  | EmptyString =>
      if prev && (count <=? int_max_str_digits)%nat then Some acc else None
  | String c r =>
      if is_digit c then int_digits true (10 * acc + digit_val c) (S count) r
      else if Ascii.eqb c "_" && prev then
        match r with
        | String d _ => if is_digit d then int_digits false acc count r else None
        | EmptyString => None
        end
      else if prev && all_int_space s && (count <=? int_max_str_digits)%nat
      then Some acc
      else None
  end.

(** [int(s)] for a string: white space around, an optional sign, base
    10. [None] is the [ValueError]. *)
Definition int_of_str (s : string) : option Z :=
  match skip_int_space s with
  | String "-" r => option_map Z.opp (int_digits false 0 0 r)
  | String "+" r => int_digits false 0 0 r
  | r => int_digits false 0 0 r
  end.

End Py.

(** ** JSON values, as [json.loads] builds them *)
#[warnings="-register-all"]
Inductive json : Type :=
| JNull
| JBool (b : bool)
| JNum (n : Z)
| JStr (s : string)
| JArr (items : list json)
| JObj (fields : list (string * json)).

Module PyJson.

(** Truth value of a Python object: [None], [False], [0], the empty string, [[]] and
    [{}] are false. *)
Definition truthy (v : json) : bool :=
  match v with
  | JNull => false
  | JBool b => b
  | JNum n => negb (n =? 0)
  | JStr s => negb (String.eqb s EmptyString)
  | JArr l => match l with [] => false | _ => true end
  | JObj l => match l with [] => false | _ => true end
  end.

Fixpoint assoc (k : string) (l : list (string * json)) : option json :=
  match l with
  | [] => None
  | (k', v) :: r => if String.eqb k k' then Some v else assoc k r
  end.

(** [v.get(key, default)]: only a dict has [get]; [None] is the
    [AttributeError] raised on anything else. *)
Definition get (v : json) (key : string) (default : json) : option json :=
  match v with
  | JObj l => Some (Py.get_default (assoc key l) default)
  | _ => None
  end.

(** [v[0]]: first item of a list, first character of a string; [None] is
    the [IndexError], [KeyError] or [TypeError] raised otherwise. *)
Definition item0 (v : json) : option json :=
  match v with
  | JArr (x :: _) => Some x
  | JStr (String c _) => Some (JStr (String c EmptyString))
  | _ => None
  end.

(** [v == needle] for a string [needle]. *)
Definition is_str (needle : string) (v : json) : bool :=
  match v with
  | JStr s => String.eqb s needle
  | _ => false
  end.

(** [d[k] = v] on a dict: the value of a key that is there is replaced
    where it stands, a new key goes to the end. *)
Fixpoint dict_set (k : string) (v : json) (d : list (string * json))
  : list (string * json) :=
  match d with
  | [] => [(k, v)]
  | (k', v') :: r =>
      if String.eqb k k' then (k', v) :: r else (k', v') :: dict_set k v r
  end.

(** [dict(pairs)]: of two items with the same key the later one gives
    the value. *)
Definition dict_of_pairs (pairs : list (string * json)) : list (string * json) :=
  fold_left (fun d kv => dict_set (fst kv) (snd kv) d) pairs [].

(** No string of the list occurs twice. *)
Fixpoint distinct (l : list string) : bool :=
  match l with
  | [] => true
  | k :: r => negb (existsb (String.eqb k) r) && distinct r
  end.

(** A tree of the [json] type stands for a Python value when no dict in
    it holds a key twice. *)
Fixpoint is_value (v : json) : bool :=
  match v with
  | JArr items => forallb is_value items
  | JObj fields =>
      distinct (map fst fields) && forallb (fun kv => is_value (snd kv)) fields
  | _ => true
  end.

End PyJson.

(** ** The outside world and the state of the process *)

(** One entry of ["accounts"]: the dict [authenticate_account] returns.
    [refreshToken] and [access] are read with [account[...]], the others
    with [account.get(...)], so those may be absent. The bookkeeping keys
    ([tier], [addedAt], [lastUsed]) are never read again and are left
    out. *)
Record Account : Type := {
  email : option string;
  refreshToken : string;
  projectId : option string;
  access : string;
  expires : option Z
}.

(** [self.accounts] and [self.active_index] of [AccountManager]. *)
Record AccountManager : Type := {
  accounts : list Account;
  active_index : Z
}.

(** The JSON object in [ACCOUNTS_FILE]. *)
Record BackingFile : Type := {
  bf_version : option Z;
  bf_accounts : option (list Account);
  bf_activeIndex : option Z
}.

(** [ACCOUNTS_FILE] on disk: absent, unreadable as the expected JSON, or
    a JSON object. *)
Inductive FileContent : Type :=
| Missing
| Corrupt
| Parsed (data : BackingFile).

(** The body of a successful token refresh. *)
Record TokenResponse : Type := {
  access_token : string;
  expires_in : Z
}.

(** What one streaming POST meets: [status_code], the [Retry-After]
    header, the lines [aiter_lines()] delivers, and the transport error
    that cuts the body short, if any. *)
Record Response : Type := {
  status_code : Z;
  retry_after_header : option string;
  body_lines : list string;
  body_error : option string
}.

Inductive HttpOutcome : Type :=
| ConnectFailed (msg : string)
| Responded (r : Response).

Record World : Type := {
  (** the k-th reading of [time.time()] *)
  clock : nat -> Z;
  (** the k-th POST to the token endpoint with a refresh token: [None]
      when the call fails, is refused, or returns an empty body *)
  token_endpoint : nat -> string -> option TokenResponse;
  (** the k-th streaming POST, to an endpoint, with a bearer token and a
      project *)
  upstream : nat -> string -> string -> string -> HttpOutcome;
  (** accounts the interactive login of [ensure_auth] ends up adding *)
  interactive_login : list Account;
  (** whether that login ends with [authenticate_account] raising *)
  login_raises : bool;
  (** accounts that other tasks sharing the manager add while the
      generator is suspended, before its k-th attempt *)
  added_meanwhile : nat -> list Account
}.

Inductive Event : Type :=
| EvRefresh (refresh_token : string)
| EvSave (data : BackingFile)
| EvAttempt (attempts : nat)
| EvRequest (endpoint token project : string)
| EvYield (content : json).

Record State : Type := {
  mgr : AccountManager;
  disk : FileContent;
  clock_reads : nat;
  refresh_calls : nat;
  requests : nat;
  trace : list Event
}.

(** Exceptions an endpoint attempt can raise inside the [try] of
    [stream_generate_content]. *)
Inductive EndpointError : Type :=
| ValueError (literal : string)
| HTTPStatusError (status : Z)
| TransportError (msg : string).

(** The values [last_error] takes. *)
Inductive Failure : Type :=
| RateLimit (endpoint : string)
| ServerError (status : Z) (endpoint : string)
| Caught (e : EndpointError).

(** Exceptions that leave a call. *)
Inductive exn : Type :=
| IndexError
| TypeError_unpack_None
| AuthenticationFailed
| CouldNotGetValidToken
| AllAccountsFailed (last_error : option Failure)
(** whatever [authenticate_account] raises out of [ensure_auth] *)
| LoginError
(** the [KeyError], [TypeError] or [AttributeError] that
    [_convert_messages_to_gemini] raises on a message it cannot read *)
| MessageError.

Inductive Result (A : Type) : Type :=
| Ok (a : A)
| Raise (e : exn).
Arguments Ok {A} a.
Arguments Raise {A} e.

Definition M (A : Type) : Type := State -> Result A * State.

Definition ret {A : Type} (a : A) : M A := fun s => (Ok a, s).

Definition raise {A : Type} (e : exn) : M A := fun s => (Raise e, s).

Definition bind {A B : Type} (c : M A) (k : A -> M B) : M B :=
  fun s =>
    match c s with
    | (Ok a, s') => k a s'
    | (Raise e, s') => (Raise e, s')
    end.

Declare Scope py_scope.
Delimit Scope py_scope with py.
Notation "x <- c ;; k" := (bind c (fun x => k))
  (at level 61, c at next level, right associativity) : py_scope.
Notation "c ;; k" := (bind c (fun _ => k))
  (at level 61, right associativity) : py_scope.
Local Open Scope py_scope.

Definition set_mgr (m : AccountManager) (s : State) : State :=
  {| mgr := m; disk := disk s; clock_reads := clock_reads s;
     refresh_calls := refresh_calls s; requests := requests s;
     trace := trace s |}.

Definition set_disk (f : FileContent) (s : State) : State :=
  {| mgr := mgr s; disk := f; clock_reads := clock_reads s;
     refresh_calls := refresh_calls s; requests := requests s;
     trace := trace s |}.

Definition log (e : Event) (s : State) : State :=
  {| mgr := mgr s; disk := disk s; clock_reads := clock_reads s;
     refresh_calls := refresh_calls s; requests := requests s;
     trace := trace s ++ [e] |}.

Definition emit (e : Event) : M unit := fun s => (Ok tt, log e s).

(** The state after one more reading of the clock. *)
Definition tick (s : State) : State :=
  {| mgr := mgr s; disk := disk s; clock_reads := S (clock_reads s);
     refresh_calls := refresh_calls s; requests := requests s;
     trace := trace s |}.

(** The state after one more refresh call. *)
Definition refresh_sent (refresh_token : string) (s : State) : State :=
  {| mgr := mgr s; disk := disk s; clock_reads := clock_reads s;
     refresh_calls := S (refresh_calls s); requests := requests s;
     trace := trace s ++ [EvRefresh refresh_token] |}.

(** The state after one more streaming POST. *)
Definition request_sent (endpoint token project : string) (s : State) : State :=
  {| mgr := mgr s; disk := disk s; clock_reads := clock_reads s;
     refresh_calls := refresh_calls s; requests := S (requests s);
     trace := trace s ++ [EvRequest endpoint token project] |}.

(** [time.time()] *)
Definition time_time (w : World) : M Z := fun s =>
  (Ok (clock w (clock_reads s)), tick s).

(** ** auth.py: the credential pool *)
Module Auth.

(** [refresh_access_token(refresh_token)]: one POST to the token
    endpoint; [None] on a refused call, on an exception, and (for the
    caller's [if new_tokens:]) on an empty body. *)
Definition refresh_access_token (w : World) (refresh_token : string)
  : M (option TokenResponse) := fun s =>
  (Ok (token_endpoint w (refresh_calls s) refresh_token),
   refresh_sent refresh_token s).

(** [AccountManager.load]: a missing file changes nothing; a file that
    cannot be read empties [accounts] and leaves the cursor. The cursor
    stored in the file is taken as it is. *)
Definition load : M unit := fun s =>
  match disk s with
  | Missing => (Ok tt, s)
  | Corrupt =>
      (Ok tt, set_mgr {| accounts := []; active_index := active_index (mgr s) |} s)
  | Parsed data =>
      (Ok tt, set_mgr {| accounts := Py.get_default (bf_accounts data) [];
                         active_index := Py.get_default (bf_activeIndex data) 0 |} s)
  end.

(** [AccountManager.__init__] *)
Definition init : M unit := fun s =>
  load (set_mgr {| accounts := []; active_index := 0 |} s).

(** [AccountManager.save]: the whole object is written. The file is
    modelled by the object written to it: what [json.dump] writes and
    [json.load] reads back is taken to be that object, and every write
    is taken to succeed (a directory that cannot be made or a file that
    cannot be opened is not a run of the model). *)
Definition save : M unit := fun s =>
  let data := {| bf_version := Some 3;
                 bf_accounts := Some (accounts (mgr s));
                 bf_activeIndex := Some (active_index (mgr s)) |} in
  (Ok tt, log (EvSave data) (set_disk (Parsed data) s)).

(** [AccountManager.add_account] *)
Definition add_account (account : Account) : M unit := fun s =>
  save (set_mgr {| accounts := accounts (mgr s) ++ [account];
                   active_index := active_index (mgr s) |} s).

(** [AccountManager.get_current_account]. The dict it returns is the one
    stored in [self.accounts]: the result is the position of that dict
    together with its content. *)
Definition get_current_account : M (option (nat * Account)) := fun s =>
  match accounts (mgr s) with
  | [] => (Ok None, s)
  | _ :: _ =>
      let s1 :=
        if active_index (mgr s) >=? Z.of_nat (List.length (accounts (mgr s)))
        then set_mgr {| accounts := accounts (mgr s); active_index := 0 |} s
        else s in
      match Py.norm_index (List.length (accounts (mgr s1))) (active_index (mgr s1)) with
      | None => (Raise IndexError, s1)
      | Some pos =>
          match nth_error (accounts (mgr s1)) pos with
          | Some account => (Ok (Some (pos, account)), s1)
          | None => (Raise IndexError, s1)
          end
      end
  end.

(** [AccountManager.rotate_account] *)
Definition rotate_account : M unit := fun s =>
  match accounts (mgr s) with
  | [] => (Ok tt, s)
  | _ :: _ =>
      save (set_mgr {| accounts := accounts (mgr s);
                       active_index := (active_index (mgr s) + 1)
                                       mod Z.of_nat (List.length (accounts (mgr s))) |} s)
  end.

(** [account[key] = value] on the dict at a position of [self.accounts]. *)
Definition set_item (pos : nat) (f : Account -> Account) : M unit := fun s =>
  (Ok tt, set_mgr {| accounts := Py.update_nth pos f (accounts (mgr s));
                     active_index := active_index (mgr s) |} s).

Definition with_access (v : string) (a : Account) : Account :=
  {| email := email a; refreshToken := refreshToken a;
     projectId := projectId a; access := v; expires := expires a |}.

Definition with_expires (v : Z) (a : Account) : Account :=
  {| email := email a; refreshToken := refreshToken a;
     projectId := projectId a; access := access a; expires := Some v |}.

(** [AccountManager.get_valid_token]; the result [None] is the
    "unavailable" answer. *)
Definition get_valid_token (w : World) : M (option (string * string)) :=
  cur <- get_current_account ;;
  match cur with
  | None => ret None
  | Some (pos, account) =>
      let expires_at := Py.get_default (expires account) 0 in
      now <- time_time w ;;
      if now >=? expires_at - 60 then
        new_tokens <- refresh_access_token w (refreshToken account) ;;
        match new_tokens with
        | Some nt =>
            set_item pos (with_access (access_token nt)) ;;
            now' <- time_time w ;;
            set_item pos (with_expires (now' + expires_in nt)) ;;
            save ;;
            fun s =>
              match nth_error (accounts (mgr s)) pos with
              | Some account' =>
                  (Ok (Some (access account',
                             Py.get_default (projectId account') EmptyString)), s)
              | None => (Raise IndexError, s)
              end
        | None => ret None
        end
      else
        ret (Some (access account, Py.get_default (projectId account) EmptyString))
  end.

(** [AccountManager.mark_rate_limited] *)
Definition mark_rate_limited (retry_after : Z) : M unit := rotate_account.

End Auth.

(** ** constants.py *)
Module Constants.

Definition CODE_ASSIST_ENDPOINT_DAILY : string :=
  "https://daily-cloudcode-pa.sandbox.googleapis.com".
Definition CODE_ASSIST_ENDPOINT_AUTOPUSH : string :=
  "https://autopush-cloudcode-pa.sandbox.googleapis.com".
Definition CODE_ASSIST_ENDPOINT_PROD : string :=
  "https://cloudcode-pa.googleapis.com".

Definition CODE_ASSIST_ENDPOINT_FALLBACKS : list string :=
  [CODE_ASSIST_ENDPOINT_DAILY; CODE_ASSIST_ENDPOINT_AUTOPUSH;
   CODE_ASSIST_ENDPOINT_PROD].

End Constants.

(** ** client.py: [_convert_messages_to_gemini] *)
Module Gemini.

Local Open Scope string_scope.

(** ["\n"] *)
Definition newline : string := String (ascii_of_nat 10) EmptyString.

(** [v[key]] for a string key: only a dict that has the key answers;
    [None] is the [KeyError] or [TypeError] raised otherwise. *)
Definition getitem (v : json) (key : string) : option json :=
  match v with
  | JObj l => PyJson.assoc key l
  | _ => None
  end.

(** [item.get("type") == "text"] *)
Definition is_text_item (item : json) : option bool :=
  match PyJson.get item "type" JNull with
  | None => None
  | Some t => Some (PyJson.is_str "text" t)
  end.

(** [for item in content] of the first loop: every text item adds its
    text and a newline; a text that is no string cannot be added to
    ["\n"]. *)
Fixpoint system_items (content : list json) (system_instruction : string)
  : option string :=
  match content with
  | [] => Some system_instruction
  | item :: r =>
      match is_text_item item with
      | None => None
      | Some true =>
          match PyJson.get item "text" (JStr EmptyString) with
          | Some (JStr t) => system_items r (system_instruction ++ (t ++ newline))
          | _ => None
          end
      | Some false => system_items r system_instruction
      end
  end.

(** The first loop, [# Merge system prompts]. *)
Fixpoint merge_system (messages : list json) (system_instruction : string)
  : option string :=
  match messages with
  | [] => Some system_instruction
  | msg :: r =>
      match getitem msg "role" with
      | None => None
      | Some role =>
          if PyJson.is_str "system" role then
            match PyJson.get msg "content" (JStr EmptyString) with
            | None => None
            | Some (JStr content) =>
                merge_system r (system_instruction ++ (content ++ newline))
            | Some (JArr content) =>
                match system_items content system_instruction with
                | None => None
                | Some system_instruction' => merge_system r system_instruction'
                end
            | Some _ => merge_system r system_instruction
            end
          else merge_system r system_instruction
      end
  end.

(** [{"text": v}] *)
Definition text_part (v : json) : json := JObj [("text", v)].

(** [for item in content] of the second loop. *)
Fixpoint text_parts (content : list json) : option (list json) :=
  match content with
  | [] => Some []
  | item :: r =>
      match is_text_item item with
      | None => None
      | Some true =>
          match PyJson.get item "text" (JStr EmptyString) with
          | None => None
          | Some t =>
              match text_parts r with
              | None => None
              | Some parts => Some (text_part t :: parts)
              end
          end
      | Some false => text_parts r
      end
  end.

(** [parts] of one message, from its [content]. *)
Definition parts_of (content : json) : option (list json) :=
  match content with
  | JStr _ => Some [text_part content]
  | JArr l => text_parts l
  | _ => Some []
  end.

(** One entry of [gemini_contents]: [{"role": ..., "parts": ...}]. *)
Record Content : Type := {
  role : string;
  parts : list json
}.

(** [if current_role: gemini_contents.append({...})] *)
Definition flush (gemini_contents : list Content)
    (current_role : option string) (current_parts : list json)
  : list Content :=
  match current_role with
  | Some r =>
      if String.eqb r EmptyString then gemini_contents
      else gemini_contents ++ [{| role := r; parts := current_parts |}]
  | None => gemini_contents
  end.

(** [g_role == current_role] *)
Definition same_role (g_role : string) (current_role : option string) : bool :=
  match current_role with
  | Some r => String.eqb g_role r
  | None => false
  end.

(** The second loop, over [gemini_contents], [current_role] and
    [current_parts]. *)
Fixpoint group (messages : list json) (gemini_contents : list Content)
    (current_role : option string) (current_parts : list json)
  : option (list Content * option string * list json) :=
  match messages with
  | [] => Some (gemini_contents, current_role, current_parts)
  | msg :: r =>
      match getitem msg "role" with
      | None => None
      | Some role =>
          match getitem msg "content" with
          | None => None
          | Some content =>
              if PyJson.is_str "system" role then
                group r gemini_contents current_role current_parts
              else
                match parts_of content with
                | None => None
                | Some [] => group r gemini_contents current_role current_parts
                | Some parts =>
                    let g_role :=
                      if PyJson.is_str "user" role then "user" else "model" in
                    if same_role g_role current_role then
                      group r gemini_contents current_role (current_parts ++ parts)
                    else
                      group r (flush gemini_contents current_role current_parts)
                            (Some g_role) parts
                end
          end
      end
  end.

(** [# Prepend system instruction to first user message] *)
Definition prepend_system (system_instruction : string)
    (gemini_contents : list Content) : list Content :=
  let system_part := text_part (JStr system_instruction) in
  if String.eqb system_instruction EmptyString then gemini_contents
  else
    match gemini_contents with
    | first :: rest =>
        if String.eqb (role first) "user" then
          {| role := role first; parts := system_part :: parts first |} :: rest
        else {| role := "user"; parts := [system_part] |} :: gemini_contents
    | [] => [{| role := "user"; parts := [system_part] |}]
    end.

(** [self._convert_messages_to_gemini(messages)]; [None] when it raises. *)
Definition _convert_messages_to_gemini (messages : list json)
  : option (list Content) :=
  match merge_system messages EmptyString with
  | None => None
  | Some system_instruction =>
      match group messages [] None [] with
      | None => None
      | Some (gemini_contents, current_role, current_parts) =>
          Some (prepend_system system_instruction
                  (flush gemini_contents current_role current_parts))
      end
  end.

(** *** What the conversion is expected to give *)

(** No two neighbours of a list are equal. *)
Fixpoint no_repeat (l : list string) : bool :=
  match l with
  | a :: (b :: _) as r => negb (String.eqb a b) && no_repeat r
  | _ => true
  end.

(** An entry has one of the two roles of the API and at least one part. *)
Definition well_formed (c : Content) : bool :=
  (String.eqb (role c) "user" || String.eqb (role c) "model")
  && match parts c with [] => false | _ => true end.

(** The parts one message contributes: none for a system message. *)
Definition message_parts (msg : json) : list json :=
  match getitem msg "role", getitem msg "content" with
  | Some role, Some content =>
      if PyJson.is_str "system" role then []
      else Py.get_default (parts_of content) []
  | _, _ => []
  end.

(** The part that carries the system instruction, if there is one. *)
Definition system_parts (system_instruction : string) : list json :=
  if String.eqb system_instruction EmptyString then []
  else [text_part (JStr system_instruction)].

(** [{"role": role, "content": content}] with a string content. *)
Definition plain_message (role content : string) : json :=
  JObj [("role", JStr role); ("content", JStr content)].

(** The entries alternate and are well formed. *)
Definition good (l : list Content) : Prop :=
  no_repeat (map role l) = true
  /\ forallb well_formed l = true.

(** What the second loop keeps true of its three variables. *)
Definition group_inv (gemini_contents : list Content)
    (current_role : option string) (current_parts : list json) : Prop :=
  (current_role = None /\ gemini_contents = [] /\ current_parts = [])
  \/ (exists r, current_role = Some r
                /\ (r = "user" \/ r = "model")
                /\ good (gemini_contents
                           ++ [{| role := r; parts := current_parts |}])).

(** The messages of a list of (role, content) pairs. *)
Definition plain (l : list (string * string)) : list json :=
  map (fun rc => plain_message (fst rc) (snd rc)) l.

Definition is_system (rc : string * string) : bool := String.eqb (fst rc) "system".

End Gemini.

(** ** client.py: the streaming engine

    The messages are converted before the first attempt, and a message
    list the conversion rejects ends the call there. The rest of the
    request body (the generation parameters, the fresh UUIDs) never
    decides where control goes; a request is recorded by its endpoint,
    bearer token and project. *)
Module Client.

(** How one round of [for endpoint in ...] ends. *)
Inductive Step : Type :=
| Break
| Continue
| Return.

(** [response.is_success]: [raise_for_status()] raises [HTTPStatusError]
    for every status for which it is false. *)
Definition is_success (status : Z) : bool :=
  (200 <=? status) && (status <=? 299).

Section Engine.

(** [json.loads]; [None] is any exception it raises. *)
Variable json_loads : string -> option json.

(** The body of the inner [try] for one decoded event: the text it
    yields, if it yields. Every exception in there is swallowed, and
    nothing after the [yield] can undo it. *)
Definition event_text (data : json) : option json :=
  match PyJson.get data "response" data with
  | None => None
  | Some actual_response =>
  match PyJson.get actual_response "candidates" (JArr []) with
  | None => None
  | Some candidates =>
  if PyJson.truthy candidates then
    match PyJson.item0 candidates with
    | None => None
    | Some candidate =>
    match PyJson.get candidate "content" (JObj []) with
    | None => None
    | Some content =>
    match PyJson.get content "parts" (JArr []) with
    | None => None
    | Some content_part =>
    if PyJson.truthy content_part then
      match PyJson.item0 content_part with
      | None => None
      | Some part =>
      match PyJson.get part "text" (JStr EmptyString) with
      | None => None
      | Some text => if PyJson.truthy text then Some text else None
      end end
    else None
    end end end
  else None
  end end.

(** What one line of the body yields. *)
Definition line_text (line : string) : option json :=
  if String.eqb line EmptyString then None
  else if Py.startswith "data:" line then
    let json_str := Py.strip (Py.drop 5 line) in
    if String.eqb json_str EmptyString then None
    else
      match json_loads json_str with
      | Some data => event_text data
      | None => None
      end
  else None.

(** [async for line in response.aiter_lines()] *)
Fixpoint stream_lines (lines : list string) : M unit :=
  match lines with
  | [] => ret tt
  | line :: rest =>
      match line_text line with
      | Some text => emit (EvYield text) ;; stream_lines rest
      | None => stream_lines rest
      end
  end.

(** [client.stream("POST", url, ...)] *)
Definition post (w : World) (endpoint token project : string) : M HttpOutcome :=
  fun s =>
    (Ok (upstream w (requests s) endpoint token project),
     request_sent endpoint token project s).

(** One round of the endpoint loop: the [try] block and its handler. The
    result says how the round ends and what [last_error] is then. *)
Definition try_endpoint (w : World) (token project endpoint : string)
    (last_error : option Failure) : M (Step * option Failure) :=
  outcome <- post w endpoint token project ;;
  match outcome with
  | ConnectFailed msg => ret (Continue, Some (Caught (TransportError msg)))
  | Responded response =>
      if status_code response =? 429 then
        match retry_after_header response with
        | None =>
            Auth.mark_rate_limited 1 ;;
            ret (Break, Some (RateLimit endpoint))
        | Some value =>
            match Py.int_of_str value with
            | Some retry_after =>
                Auth.mark_rate_limited retry_after ;;
                ret (Break, Some (RateLimit endpoint))
            | None => ret (Continue, Some (Caught (ValueError value)))
            end
        end
      else if status_code response >=? 500 then
        ret (Continue, Some (ServerError (status_code response) endpoint))
      else if negb (is_success (status_code response)) then
        ret (Continue, Some (Caught (HTTPStatusError (status_code response))))
      else
        stream_lines (body_lines response) ;;
        match body_error response with
        | Some msg => ret (Continue, Some (Caught (TransportError msg)))
        | None => ret (Return, last_error)
        end
  end.

(** [for endpoint in CODE_ASSIST_ENDPOINT_FALLBACKS]: [true] when the
    generator returned from inside the loop. *)
Fixpoint try_endpoints (w : World) (token project : string)
    (endpoints : list string) (last_error : option Failure)
  : M (bool * option Failure) :=
  match endpoints with
  | [] => ret (false, last_error)
  | endpoint :: rest =>
      r <- try_endpoint w token project endpoint last_error ;;
      match r with
      | (Break, last_error') => ret (false, last_error')
      | (Continue, last_error') => try_endpoints w token project rest last_error'
      | (Return, last_error') => ret (true, last_error')
      end
  end.

(** A series of [add_account] calls: those of other tasks between two
    attempts, and those of the interactive login. *)
Fixpoint add_accounts (l : list Account) : M unit :=
  match l with
  | [] => ret tt
  | a :: r => Auth.add_account a ;; add_accounts r
  end.

(** [while attempts < max_retries]; [remaining] is
    [max_retries - attempts]. Each round starts with what other tasks did
    to the pool since the last one and records [attempts += 1] on the
    trace. Unpacking the answer of [get_valid_token] into
    [token, project_id] raises a [TypeError] when the answer is [None];
    [if not token] then tests the token of a pair. *)
Fixpoint attempt_loop (w : World) (remaining attempts : nat)
    (last_error : option Failure) : M unit :=
  match remaining with
  | O => raise (AllAccountsFailed last_error)
  | S remaining' =>
      let attempts := S attempts in
      add_accounts (added_meanwhile w attempts) ;;
      emit (EvAttempt attempts) ;;
      unpacked <- Auth.get_valid_token w ;;
      match unpacked with
      | None => raise TypeError_unpack_None
      | Some (token, project_id) =>
          if String.eqb token EmptyString then raise CouldNotGetValidToken
          else
            r <- try_endpoints w token project_id
                   Constants.CODE_ASSIST_ENDPOINT_FALLBACKS last_error ;;
            if fst r then ret tt
            else attempt_loop w remaining' attempts (snd r)
      end
  end.

(** [AntigravityClient.ensure_auth], by its outcome. On an empty pool
    the logins add their accounts one by one; then the call returns, or
    it raises because there is still no account and the user gives up,
    or [authenticate_account] raises and the exception leaves the call
    with the accounts added so far in place. A login that never ends
    (every prompt is answered with [y]) has no outcome and is not a run
    of the model. *)
Definition ensure_auth (w : World) : M unit := fun s =>
  match accounts (mgr s) with
  | [] =>
      if login_raises w then
        (add_accounts (interactive_login w) ;; raise LoginError) s
      else
        match interactive_login w with
        | [] => (Raise AuthenticationFailed, s)
        | l => add_accounts l s
        end
  | _ :: _ => (Ok tt, s)
  end.

(** [len(self.account_manager.accounts)] *)
Definition pool_size : M nat := fun s => (Ok (List.length (accounts (mgr s))), s).

(** [contents = self._convert_messages_to_gemini(messages)] *)
Definition convert_messages (messages : list json) : M (list Gemini.Content) :=
  match Gemini._convert_messages_to_gemini messages with
  | Some contents => ret contents
  | None => raise MessageError
  end.

(** [AntigravityClient.stream_generate_content] *)
Definition stream_generate_content (w : World) (messages : list json) : M unit :=
  ensure_auth w ;;
  contents <- convert_messages messages ;;
  n <- pool_size ;;
  let max_retries := (3 * n)%nat in
  attempt_loop w max_retries 0 None.

End Engine.

(** The chunks yielded to the caller, in order. *)
Fixpoint yields (t : list Event) : list json :=
  match t with
  | [] => []
  | EvYield c :: r => c :: yields r
  | _ :: r => yields r
  end.

(** The endpoints contacted, in order. *)
Fixpoint contacted (t : list Event) : list string :=
  match t with
  | [] => []
  | EvRequest e _ _ :: r => e :: contacted r
  | _ :: r => contacted r
  end.

(** The attempts started, in order. *)
Fixpoint attempts_of (t : list Event) : list nat :=
  match t with
  | [] => []
  | EvAttempt n :: r => n :: attempts_of r
  | _ :: r => attempts_of r
  end.

(** The refresh calls made, in order. *)
Fixpoint refreshes_of (t : list Event) : list string :=
  match t with
  | [] => []
  | EvRefresh rt :: r => rt :: refreshes_of r
  | _ :: r => refreshes_of r
  end.

(** The file writes made, in order. *)
Fixpoint saves_of (t : list Event) : list BackingFile :=
  match t with
  | [] => []
  | EvSave d :: r => d :: saves_of r
  | _ :: r => saves_of r
  end.

End Client.

(** ** base64.urlsafe_b64encode / urlsafe_b64decode (RFC 4648, section 5) *)
Module Base64.

Definition alphabet : string :=
  "ABCDEFGHIJKLMNOPQRSTUVWXYZabcdefghijklmnopqrstuvwxyz0123456789-_".

Definition byte_val (c : ascii) : Z := Z.of_N (N_of_ascii c).

Definition byte_chr (n : Z) : ascii := ascii_of_N (Z.to_N n).

(** The character of a 6-bit value. *)
Definition sextet_char (n : Z) : ascii :=
  match String.get (Z.to_nat n) alphabet with
  | Some c => c
  | None => "="%char
  end.

Fixpoint index_from (i : Z) (c : ascii) (s : string) : option Z :=
  match s with
  | EmptyString => None
  | String d r => if Ascii.eqb c d then Some i else index_from (i + 1) c r
  end.

(** The 6-bit value of a character of the alphabet. *)
Definition char_sextet (c : ascii) : option Z := index_from 0 c alphabet.

Definition pad : ascii := "="%char.

(** Groups of three bytes become four characters; a last group of one or
    two bytes is completed with [=]. *)
Fixpoint urlsafe_b64encode (bs : string) : string :=
  match bs with
  | EmptyString => EmptyString
  | String a EmptyString =>
      let n := byte_val a * 65536 in
      String (sextet_char (n / 262144))
        (String (sextet_char (n / 4096 mod 64))
           (String pad (String pad EmptyString)))
  | String a (String b EmptyString) =>
      let n := byte_val a * 65536 + byte_val b * 256 in
      String (sextet_char (n / 262144))
        (String (sextet_char (n / 4096 mod 64))
           (String (sextet_char (n / 64 mod 64))
              (String pad EmptyString)))
  | String a (String b (String c rest)) =>
      let n := byte_val a * 65536 + byte_val b * 256 + byte_val c in
      String (sextet_char (n / 262144))
        (String (sextet_char (n / 4096 mod 64))
           (String (sextet_char (n / 64 mod 64))
              (String (sextet_char (n mod 64))
                 (urlsafe_b64encode rest))))
  end.

(** Decoding of correctly padded text; [None] is [binascii.Error]. (The
    library also skips characters outside the alphabet, which
    [encode_state] never produces.) *)
Fixpoint urlsafe_b64decode (s : string) : option string :=
  match s with
  | EmptyString => Some EmptyString
  | String c1 (String c2 (String c3 (String c4 rest))) =>
      match char_sextet c1, char_sextet c2 with
      | Some s1, Some s2 =>
          if Ascii.eqb c3 pad then
            if Ascii.eqb c4 pad then
              match rest with
              | EmptyString =>
                  let n := s1 * 262144 + s2 * 4096 in
                  Some (String (byte_chr (n / 65536)) EmptyString)
              | _ => None
              end
            else None
          else
            match char_sextet c3 with
            | Some s3 =>
                if Ascii.eqb c4 pad then
                  match rest with
                  | EmptyString =>
                      let n := s1 * 262144 + s2 * 4096 + s3 * 64 in
                      Some (String (byte_chr (n / 65536))
                              (String (byte_chr (n / 256 mod 256)) EmptyString))
                  | _ => None
                  end
                else
                  match char_sextet c4, urlsafe_b64decode rest with
                  | Some s4, Some bytes =>
                      let n := s1 * 262144 + s2 * 4096 + s3 * 64 + s4 in
                      Some (String (byte_chr (n / 65536))
                              (String (byte_chr (n / 256 mod 256))
                                 (String (byte_chr (n mod 256)) bytes)))
                  | _, _ => None
                  end
            | None => None
            end
      | _, _ => None
      end
  | _ => None
  end.

End Base64.

(** ** auth.py: the OAuth state token *)
Module StateToken.
Section Codec.

(** [json.dumps] (its output is ASCII, so [.encode("utf-8")] keeps the
    characters) and [json.loads]; [None] is any exception they raise. *)
Variable json_dumps : json -> option string.
Variable json_loads : string -> option json.

(** [encode_state(payload)]; [None] when [json.dumps] raises. *)
Definition encode_state (payload : json) : option string :=
  match json_dumps payload with
  | Some json_bytes =>
      Some (Py.rstrip_char "=" (Base64.urlsafe_b64encode json_bytes))
  | None => None
  end.

(** The first three lines of [decode_state]: the state with its padding
    put back. *)
Definition repad (state : string) : string :=
  let padding := 4 - Z.of_nat (String.length state) mod 4 in
  if negb (padding =? 4)
  then (state ++ Py.repeat_char "=" (Z.to_nat padding))%string
  else state.

(** [decode_state(state)]; [None] is any exception raised on the way. *)
Definition decode_state (state : string) : option json :=
  match Base64.urlsafe_b64decode (repad state) with
  | Some json_bytes => json_loads json_bytes
  | None => None
  end.

End Codec.
End StateToken.

(** ** The json module

    [json.dumps] and [json.loads] for the values the [json] type holds:
    [None], booleans, integers, strings of code points below 256, lists
    and dicts with string keys. Floats and strings with higher code
    points have no counterpart in the type: [loads] answers [None] on a
    document that holds a number with a fraction or an exponent or an
    escape above [\u00ff], where the library returns a value; nothing
    below is said about such documents. *)
Module JsonLib.

Definition quote : ascii := ascii_of_nat 34.
Definition backslash : ascii := ascii_of_nat 92.

Definition hex_digit (n : nat) : ascii :=
  match String.get n "0123456789abcdef" with
  | Some c => c
  | None => "0"%char
  end.

(** [ensure_ascii] escaping of one character. *)
Definition escape_char (c : ascii) : string :=
  let n := nat_of_ascii c in
  if (n =? 34)%nat then String backslash (String quote EmptyString)
  else if (n =? 92)%nat then String backslash (String backslash EmptyString)
  else if (n =? 10)%nat then String backslash "n"
  else if (n =? 13)%nat then String backslash "r"
  else if (n =? 9)%nat then String backslash "t"
  else if (n =? 8)%nat then String backslash "b"
  else if (n =? 12)%nat then String backslash "f"
  else if ((32 <=? n) && (n <=? 126))%nat then String c EmptyString
  else String backslash
         (String "u" (String "0" (String "0"
            (String (hex_digit (n / 16)) (String (hex_digit (n mod 16)) EmptyString))))).

Fixpoint escape (s : string) : string :=
  match s with
  | EmptyString => EmptyString
  | String c r => (escape_char c ++ escape r)%string
  end.

Definition str_text (s : string) : string :=
  String quote (escape s ++ String quote EmptyString).

(** [int.__repr__(n)], when it returns. *)
Definition int_text (n : Z) : string :=
  DecimalString.NilZero.string_of_int (Z.to_int n).

(** The items of a list after the opening bracket, separated by a comma
    and a space. *)
Definition items_text (dump : json -> string) : list json -> string :=
  fix go (l : list json) : string :=
    match l with
    | [] => "]"
    | x :: r =>
        dump x ++ match r with
                  | [] => "]"
                  | _ :: _ => ", " ++ go r
                  end
    end%string.

(** The items of a dict after the opening brace. *)
Definition fields_text (dump : json -> string)
  : list (string * json) -> string :=
  fix go (l : list (string * json)) : string :=
    match l with
    | [] => "}"
    | (k, x) :: r =>
        str_text k ++ ": " ++ dump x ++ match r with
                                         | [] => "}"
                                         | _ :: _ => ", " ++ go r
                                         end
    end%string.

(** What [json.dumps(v)] returns with the default separators, when it
    returns. *)
Fixpoint text (v : json) : string :=
  match v with
  | JNull => "null"
  | JBool true => "true"
  | JBool false => "false"
  | JNum n => int_text n
  | JStr s => str_text s
  | JArr items => String "[" (items_text text items)
  | JObj fields => String "{" (fields_text text fields)
  end.

(** The sign of a number literal, and what follows it. *)
Definition split_sign (s : string) : bool * string :=
  match s with
  | String c r => if Ascii.eqb c "-" then (true, r) else (false, s)
  | EmptyString => (false, s)
  end.

(** The decimal digits of [n], without the sign. *)
Definition digits_of (n : Z) : string := snd (split_sign (int_text n)).

(** An integer with more than [sys.get_int_max_str_digits()] decimal
    digits is neither written nor read: [int.__repr__] and [int()] raise
    [ValueError]. *)
Definition int_fits (n : Z) : bool :=
  (String.length (digits_of n) <=? Py.int_max_str_digits)%nat.

(** Every integer of the value can be written. *)
Fixpoint encodable (v : json) : bool :=
  match v with
  | JNum n => int_fits n
  | JArr items => forallb encodable items
  | JObj fields => forallb (fun kv => encodable (snd kv)) fields
  | _ => true
  end.

(** [json.dumps(v)]; [None] is the [ValueError] of an integer that is
    too long. *)
Definition dumps (v : json) : option string :=
  if encodable v then Some (text v) else None.

(** JSON whitespace. *)
Definition is_ws (c : ascii) : bool :=
  let n := nat_of_ascii c in
  ((n =? 32) || (n =? 9) || (n =? 10) || (n =? 13))%nat.

Fixpoint skip_ws (s : string) : string :=
  match s with
  | String c r => if is_ws c then skip_ws r else s
  | EmptyString => EmptyString
  end.

Definition hex_val (c : ascii) : option nat :=
  let n := nat_of_ascii c in
  if ((48 <=? n) && (n <=? 57))%nat then Some (n - 48)%nat
  else if ((97 <=? n) && (n <=? 102))%nat then Some (n - 87)%nat
  else if ((65 <=? n) && (n <=? 70))%nat then Some (n - 55)%nat
  else None.

(** The characters of a string literal after its opening quote, and what
    follows the closing quote. Code points above 255 are outside the
    model. *)
Fixpoint loads_chars (s : string) : option (string * string) :=
  match s with
  | EmptyString => None
  | String c r =>
      if Ascii.eqb c quote then Some (EmptyString, r)
      else if Ascii.eqb c backslash then
        match r with
        | String e r1 =>
            let simple (x : nat) :=
              match loads_chars r1 with
              | Some (t, r2) => Some (String (ascii_of_nat x) t, r2)
              | None => None
              end in
            if Ascii.eqb e "u" then
              match r1 with
              | String h1 (String h2 (String h3 (String h4 r2))) =>
                  match hex_val h1, hex_val h2, hex_val h3, hex_val h4 with
                  | Some 0%nat, Some 0%nat, Some a, Some b =>
                      match loads_chars r2 with
                      | Some (t, r3) => Some (String (ascii_of_nat (16 * a + b)) t, r3)
                      | None => None
                      end
                  | _, _, _, _ => None
                  end
              | _ => None
              end
            else if Ascii.eqb e quote then simple 34%nat
            else if Ascii.eqb e backslash then simple 92%nat
            else if Ascii.eqb e "/" then simple 47%nat
            else if Ascii.eqb e "n" then simple 10%nat
            else if Ascii.eqb e "r" then simple 13%nat
            else if Ascii.eqb e "t" then simple 9%nat
            else if Ascii.eqb e "b" then simple 8%nat
            else if Ascii.eqb e "f" then simple 12%nat
            else None
        | EmptyString => None
        end
      else if (nat_of_ascii c <? 32)%nat then None
      else
        match loads_chars r with
        | Some (t, r1) => Some (String c t, r1)
        | None => None
        end
  end.

(** The longest prefix of decimal digits, and the rest. *)
Fixpoint span_digits (s : string) : string * string :=
  match s with
  | String c r =>
      if Py.is_digit c then
        let (d, r') := span_digits r in (String c d, r')
      else (EmptyString, s)
  | EmptyString => (EmptyString, EmptyString)
  end.

(** A zero followed by more digits. *)
Definition leading_zero (digits : string) : bool :=
  match digits with
  | String c (String _ _) => Ascii.eqb c "0"
  | _ => false
  end.

(** The start of a fraction or of an exponent. *)
Definition starts_fraction (rest : string) : bool :=
  match rest with
  | String c _ => Ascii.eqb c "." || Ascii.eqb c "e" || Ascii.eqb c "E"
  | EmptyString => false
  end.

(** An integer literal: no leading zero, no fraction or exponent, and
    no more digits than [int()] converts. *)
Definition loads_int (s : string) : option (Z * string) :=
  let (neg, s1) := split_sign s in
  let (digits, rest) := span_digits s1 in
  if leading_zero digits || starts_fraction rest
     || negb (String.length digits <=? Py.int_max_str_digits)%nat
  then None
  else
    match DecimalString.NilZero.uint_of_string digits with
    | Some d => Some (if neg then - Z.of_uint d else Z.of_uint d, rest)
    | None => None
    end.

Definition expect (lit : string) (v : json) (s : string) : option (json * string) :=
  if Py.startswith lit s then Some (v, Py.drop (String.length lit) s) else None.

(** After whitespace, the character [x]: what follows it. *)
Definition next_is (x : ascii) (s : string) : option string :=
  match skip_ws s with
  | String c r => if Ascii.eqb c x then Some r else None
  | EmptyString => None
  end.

(** One value and what follows it; [fuel] bounds the nesting and the
    number of items. *)
Fixpoint loads_value (fuel : nat) (s : string) : option (json * string) :=
  match fuel with
  | O => None
  | S fuel' =>
      match skip_ws s with
      | EmptyString => None
      | String c r as s' =>
          if Ascii.eqb c "n" then expect "null" JNull s'
          else if Ascii.eqb c "t" then expect "true" (JBool true) s'
          else if Ascii.eqb c "f" then expect "false" (JBool false) s'
          else if Ascii.eqb c quote then
            match loads_chars r with
            | Some (t, r1) => Some (JStr t, r1)
            | None => None
            end
          else if Ascii.eqb c "[" then
            match next_is "]" r with
            | Some r1 => Some (JArr [], r1)
            | None =>
                match loads_items fuel' r with
                | Some (l, r1) => Some (JArr l, r1)
                | None => None
                end
            end
          else if Ascii.eqb c "{" then
            match next_is "}" r with
            | Some r1 => Some (JObj [], r1)
            | None =>
                match loads_fields fuel' r with
                | Some (l, r1) => Some (JObj (PyJson.dict_of_pairs l), r1)
                | None => None
                end
            end
          else
            match loads_int s' with
            | Some (n, r1) => Some (JNum n, r1)
            | None => None
            end
      end
  end

with loads_items (fuel : nat) (s : string) : option (list json * string) :=
  match fuel with
  | O => None
  | S fuel' =>
      match loads_value fuel' s with
      | Some (v, r) =>
          match next_is "]" r with
          | Some r1 => Some ([v], r1)
          | None =>
              match next_is "," r with
              | Some r1 =>
                  match loads_items fuel' r1 with
                  | Some (l, r2) => Some (v :: l, r2)
                  | None => None
                  end
              | None => None
              end
          end
      | None => None
      end
  end

with loads_fields (fuel : nat) (s : string) : option (list (string * json) * string) :=
  match fuel with
  | O => None
  | S fuel' =>
      match next_is quote s with
      | Some r =>
          match loads_chars r with
          | Some (k, r0) =>
              match next_is ":" r0 with
              | Some r1 =>
                  match loads_value fuel' r1 with
                  | Some (v, r2) =>
                      match next_is "}" r2 with
                      | Some r3 => Some ([(k, v)], r3)
                      | None =>
                          match next_is "," r2 with
                          | Some r3 =>
                              match loads_fields fuel' r3 with
                              | Some (l, r4) => Some ((k, v) :: l, r4)
                              | None => None
                              end
                          | None => None
                          end
                      end
                  | None => None
                  end
              | None => None
              end
          | None => None
          end
      | None => None
      end
  end.

(** [json.loads(s)]: one value, then nothing but whitespace; [None] is
    the [ValueError] of a document that is not JSON or holds an integer
    that is too long. The items of a dict are in document order, and
    of two items with the same key the later one gives the value. *)
Definition loads (s : string) : option json :=
  match loads_value (S (String.length s)) s with
  | Some (v, r) =>
      match skip_ws r with
      | EmptyString => Some v
      | _ => None
      end
  | None => None
  end.

End JsonLib.

(** ** Vocabulary of the properties *)
Module Spec.

(** The state [get_current_account] leaves: a cursor at or past the end
    of a non-empty list is put back to 0. *)
Definition clamp_state (s : State) : State :=
  match accounts (mgr s) with
  | [] => s
  | _ :: _ =>
      if active_index (mgr s) >=? Z.of_nat (List.length (accounts (mgr s)))
      then set_mgr {| accounts := accounts (mgr s); active_index := 0 |} s
      else s
  end.

(** What [save] writes for a manager. *)
Definition saved (m : AccountManager) : BackingFile :=
  {| bf_version := Some 3;
     bf_accounts := Some (accounts m);
     bf_activeIndex := Some (active_index m) |}.

(** The account after a successful refresh at clock reading [now']. *)
Definition refreshed (nt : TokenResponse) (now' : Z) (a : Account) : Account :=
  {| email := email a; refreshToken := refreshToken a;
     projectId := projectId a; access := access_token nt;
     expires := Some (now' + expires_in nt) |}.

(** The operations of the manager a caller may issue, in any order. *)
Inductive PoolOp : Type :=
| OpCurrentAccount
| OpGetValidToken
| OpRotate
| OpMarkRateLimited (retry_after : Z)
| OpAddAccount (a : Account).

Definition run_op (w : World) (op : PoolOp) : M unit :=
  match op with
  | OpCurrentAccount => _ <- Auth.get_current_account ;; ret tt
  | OpGetValidToken => _ <- Auth.get_valid_token w ;; ret tt
  | OpRotate => Auth.rotate_account
  | OpMarkRateLimited n => Auth.mark_rate_limited n
  | OpAddAccount a => Auth.add_account a
  end.

Fixpoint run_ops (w : World) (ops : list PoolOp) : M unit :=
  match ops with
  | [] => ret tt
  | op :: rest => run_op w op ;; run_ops w rest
  end.

(** The cursor points into the list. *)
Definition in_range (m : AccountManager) : Prop :=
  0 <= active_index m < Z.of_nat (List.length (accounts m)).

(** The texts a body yields, in order. *)
Fixpoint texts (json_loads : string -> option json) (lines : list string)
  : list json :=
  match lines with
  | [] => []
  | line :: rest =>
      match Client.line_text json_loads line with
      | Some t => t :: texts json_loads rest
      | None => texts json_loads rest
      end
  end.

(** The state with more events on its trace. *)
Definition extend (evs : list Event) (s : State) : State :=
  {| mgr := mgr s; disk := disk s; clock_reads := clock_reads s;
     refresh_calls := refresh_calls s; requests := requests s;
     trace := trace s ++ evs |}.

(** A computation only appends to the trace, and only events that [p]
    accepts. *)
Definition appends_only {A : Type} (p : Event -> bool) (c : M A) : Prop :=
  forall s r s',
    c s = (r, s') ->
    exists evs, trace s' = trace s ++ evs /\ forallb p evs = true.

Definition any_event (e : Event) : bool := true.

Definition not_attempt (e : Event) : bool :=
  match e with
  | EvAttempt _ => false
  | _ => true
  end.

(** C1 as the specification words it: once a chunk was yielded, no
    endpoint is contacted and no attempt is started any more. *)
Definition committed_after_first_yield (t : list Event) : Prop :=
  forall pre post c,
    t = pre ++ EvYield c :: post ->
    Client.contacted post = [] /\ Client.attempts_of post = [].

(** What follows a number literal cannot continue it. *)
Definition starts_number_tail (rest : string) : bool :=
  match rest with
  | String c _ =>
      Py.is_digit c || Ascii.eqb c "." || Ascii.eqb c "e" || Ascii.eqb c "E"
  | EmptyString => false
  end.

(** Fuel that [JsonLib.loads_value] needs for the text of a value. *)
Fixpoint json_cost (v : json) : nat :=
  match v with
  | JArr l => S (list_sum (map (fun x => S (json_cost x)) l))
  | JObj l => S (list_sum (map (fun kv => S (json_cost (snd kv))) l))
  | _ => 1
  end.

(** The text of [v] is read back as [v], whatever follows it. *)
Definition reads_back (v : json) : Prop :=
  forall fuel rest,
    (json_cost v <= fuel)%nat ->
    starts_number_tail rest = false ->
    JsonLib.loads_value fuel (JsonLib.text v ++ rest) = Some (v, rest).


(** No character of [s] is [x]. *)
Fixpoint free_of (x : ascii) (s : string) : bool :=
  match s with
  | EmptyString => true
  | String c r => negb (Ascii.eqb c x) && free_of x r
  end.

(** The token of an account can be used as it is at clock reading [k]. *)
Definition fresh_at (w : World) (k : nat) (a : Account) : Prop :=
  clock w k < Py.get_default (expires a) 0 - 60.

(** The pool can hand out a token of the account whenever it is asked:
    the account has a token, and either that token never nears its
    expiry or the token endpoint grants every refresh of it. *)
Definition serviceable (w : World) (a : Account) : Prop :=
  access a <> EmptyString
  /\ ((forall k, fresh_at w k a)
      \/ (forall k, exists nt,
             token_endpoint w k (refreshToken a) = Some nt
             /\ access_token nt <> EmptyString)).

(** A read of the current account finds one: the pool is not empty and
    the cursor is not before its start. *)
Definition readable (m : AccountManager) : Prop :=
  accounts m <> []
  /\ - Z.of_nat (List.length (accounts m)) <= active_index m.


(** Events of the pool: refresh calls and file writes. *)
Definition pool_event (e : Event) : bool :=
  match e with
  | EvRefresh _ | EvSave _ => true
  | _ => false
  end.

End Spec.

(** ** Concrete pools and worlds *)
Module Example.
Local Open Scope string_scope.

Definition alice : Account :=
  {| email := Some "alice@example.com"; refreshToken := "refresh-alice";
     projectId := Some "project-a"; access := "token-alice";
     expires := Some 5000 |}.

Definition bob : Account :=
  {| email := Some "bob@example.com"; refreshToken := "refresh-bob";
     projectId := Some "project-b"; access := "token-bob";
     expires := Some 5000 |}.

(** The messages of a request: one user turn. *)
Definition prompt : list json := [Gemini.plain_message "user" "Hello"].

(** What the conversion makes of it. *)
Definition prompt_contents : list Gemini.Content :=
  [{| Gemini.role := "user"; Gemini.parts := [Gemini.text_part (JStr "Hello")] |}].

(** A process whose manager holds [m], before any call. *)
Definition start (m : AccountManager) : State :=
  {| mgr := m; disk := Missing; clock_reads := 0; refresh_calls := 0;
     requests := 0; trace := [] |}.

(** A process that has not built its manager yet, with [f] on disk. *)
Definition before_init (f : FileContent) : State :=
  {| mgr := {| accounts := []; active_index := 0 |}; disk := f;
     clock_reads := 0; refresh_calls := 0; requests := 0; trace := [] |}.

Definition only_alice : State := start {| accounts := [alice]; active_index := 0 |}.

Definition alice_and_bob : State :=
  start {| accounts := [alice; bob]; active_index := 0 |}.

(** A backing file whose cursor is past the end of its account list. *)
Definition stale_file (l : list Account) : FileContent :=
  Parsed {| bf_version := Some 3; bf_accounts := Some l; bf_activeIndex := Some 5 |}.

(** The manager built from such a file. *)
Definition stale_pool (l : list Account) : State :=
  snd (Auth.init (before_init (stale_file l))).

(** One SSE line carrying a text, in the envelope the endpoints use. *)
Definition text_event (t : string) : string :=
  ("data: " ++
   JsonLib.text
     (JObj [("response",
             JObj [("candidates",
                    JArr [JObj [("content",
                                 JObj [("role", JStr "model");
                                       ("parts", JArr [JObj [("text", JStr t)]])])]])])]))%string.

Definition respond (status : Z) (lines : list string) : HttpOutcome :=
  Responded {| status_code := status; retry_after_header := None;
               body_lines := lines; body_error := None |}.

Definition two_texts : list string :=
  [text_event "Hello"; EmptyString; text_event ", world"; EmptyString].

(** The clock stands at [now]; the token endpoint refuses every call. *)
Definition world (now : Z) (answers : nat -> HttpOutcome) : World :=
  {| clock := fun _ => now;
     token_endpoint := fun _ _ => None;
     upstream := fun k _ _ _ => answers k;
     interactive_login := [];
     login_raises := false;
     added_meanwhile := fun _ => [] |}.

(** Every endpoint answers 500, long after the tokens have expired, with
    a token endpoint that grants every refresh; another task adds an
    account before the second attempt. *)
Definition world_all_500_expired : World :=
  {| clock := fun _ => 9000;
     token_endpoint :=
       fun _ _ => Some {| access_token := "token-new"; expires_in := 3600 |};
     upstream := fun _ _ _ _ => respond 500 [];
     interactive_login := [];
     login_raises := false;
     added_meanwhile := fun k => if (k =? 2)%nat then [bob] else [] |}.

(** The first endpoint answers 500, the second streams two texts. *)
Definition world_failover : World :=
  world 1000 (fun k => if (k =? 0)%nat then respond 500 [] else respond 200 two_texts).

(** The first endpoint streams one text and the connection breaks; the
    next one streams the whole answer. *)
Definition world_cut_stream : World :=
  world 1000
    (fun k =>
       if (k =? 0)%nat
       then Responded {| status_code := 200; retry_after_header := None;
                         body_lines := [text_event "Hello"];
                         body_error := Some "connection reset"%string |}
       else respond 200 two_texts).

(** The first endpoint answers 400, the next one streams. *)
Definition world_bad_request : World :=
  world 1000 (fun k => if (k =? 0)%nat then respond 400 [] else respond 200 two_texts).

(** A [Retry-After] in its HTTP-date form. *)
Definition http_date : string := "Wed, 21 Oct 2015 07:28:00 GMT".

(** The first endpoint answers 429 with [Retry-After] as a date, the next
    one streams. *)
Definition world_rate_limited_until_date : World :=
  world 1000
    (fun k =>
       if (k =? 0)%nat
       then Responded {| status_code := 429; retry_after_header := Some http_date;
                         body_lines := []; body_error := None |}
       else respond 200 two_texts).

(** The tokens have expired and the token endpoint refuses to refresh. *)
Definition world_refresh_refused : World := world 9000 (fun _ => respond 200 two_texts).

(** The token endpoint grants a new token for an hour. *)
Definition world_refresh_granted : World :=
  {| clock := fun k => 4990 + Z.of_nat k;
     token_endpoint :=
       fun _ _ => Some {| access_token := "token-new"; expires_in := 3600 |};
     upstream := fun _ _ _ _ => respond 200 two_texts;
     interactive_login := [];
     login_raises := false;
     added_meanwhile := fun _ => [] |}.


(** The payload [authenticate_account] encodes. *)
Definition state_payload : json :=
  JObj [("verifier", JStr "dBjftJeZ4CVP-mB92K27uhbUJU1p1r_wW1gFWFOEjXk");
        ("projectId", JStr EmptyString)].

End Example.

(** ** More vocabulary: the pool *)
Module PoolSpec.

(** [rotate_account()] called [k] times in a row. *)
Fixpoint rotations (k : nat) : M unit :=
  match k with
  | O => ret tt
  | S k' => Auth.rotate_account ;; rotations k'
  end.

End PoolSpec.

(** ** More vocabulary: the engine *)
Module EngineSpec.

(** A line of the body that is framing or noise: empty, without the
    [data:] prefix, with nothing after it, or with a payload that
    [json.loads] rejects. *)
Definition ignorable (json_loads : string -> option json) (line : string) : Prop :=
  line = EmptyString
  \/ Py.startswith "data:" line = false
  \/ Py.strip (Py.drop 5 line) = EmptyString
  \/ json_loads (Py.strip (Py.drop 5 line)) = None.

(** A [Retry-After] header that [int()] accepts, or none. *)
Definition retry_after_readable (response : Response) : Prop :=
  retry_after_header response = None
  \/ exists v n, retry_after_header response = Some v /\ Py.int_of_str v = Some n.

End EngineSpec.

(** ** auth.py: PKCE and the check of the returned state *)
Module Pkce.

(** Every character is one of the 64 of the URL-safe alphabet. *)
Fixpoint url_safe (s : string) : bool :=
  match s with
  | EmptyString => true
  | String c r =>
      match Base64.char_sextet c with
      | Some _ => url_safe r
      | None => false
      end
  end.

(** [secrets.token_urlsafe(nbytes)], from the bytes the random source
    delivers: base64url without the padding. *)
Definition token_urlsafe (random_bytes : string) : string :=
  Py.rstrip_char "=" (Base64.urlsafe_b64encode random_bytes).

Section Flow.

(** [hashlib.sha256(data).digest()] *)
Variable sha256 : string -> string.

(** [generate_pkce()]; the verifier is ASCII, so [.encode("ascii")] keeps
    its characters. *)
Definition generate_pkce (random_bytes : string) : string * string :=
  let verifier := token_urlsafe random_bytes in
  let digest := sha256 verifier in
  let challenge := Py.rstrip_char "=" (Base64.urlsafe_b64encode digest) in
  (verifier, challenge).

End Flow.

(** The payload [authenticate_account] puts in the state. *)
Definition state_payload (verifier project_id : string) : json :=
  JObj [("verifier"%string, JStr verifier); ("projectId"%string, JStr project_id)].

(** How [authenticate_account] treats the state that comes back. *)
Inductive StateCheck : Type :=
| StateRaises
| StateMismatch
| StateAccepted.

(** [decoded_state = decode_state(returned_state)] followed by
    [if decoded_state.get("verifier") != verifier: return None]. Neither
    line is inside a [try]: a state that does not decode, or decodes to
    something that is not a dict, raises out of the function. *)
Definition check_state (json_loads : string -> option json)
    (verifier returned_state : string) : StateCheck :=
  match StateToken.decode_state json_loads returned_state with
  | None => StateRaises
  | Some (JObj fields) =>
      match PyJson.assoc "verifier" fields with
      | Some (JStr v) => if String.eqb v verifier then StateAccepted else StateMismatch
      | _ => StateMismatch
      end
  | Some _ => StateRaises
  end.

End Pkce.

(** ** auth.py: fetch_account_info *)
Module AccountInfo.

(** What one POST to [/v1internal:loadCodeAssist] comes to. *)
Inductive LoadAnswer : Type :=
| PostRaised                (* [requests.post] or [resp.json()] raised *)
| NotOk                     (* [resp.ok] is false *)
| Body (data : json).       (* [resp.json()] *)

(** [needle in s] for two strings. *)
Fixpoint substring (needle s : string) : bool :=
  Py.startswith needle s
  || match s with
     | String _ r => substring needle r
     | EmptyString => false
     end.

(** [needle in v]: a substring of a string, an item of a list, a key of
    a dict; [None] is the [TypeError] raised on anything else. *)
Definition contains (needle : string) (v : json) : option bool :=
  match v with
  | JStr s => Some (substring needle s)
  | JArr l => Some (existsb (PyJson.is_str needle) l)
  | JObj l => Some (existsb (fun kv => String.eqb (fst kv) needle) l)
  | _ => None
  end.

(** ["free" not in v and "zero" not in v] *)
Definition neither_free_nor_zero (v : json) : option bool :=
  match contains "free" v with
  | None => None
  | Some true => Some false
  | Some false =>
      match contains "zero" v with
      | None => None
      | Some b => Some (negb b)
      end
  end.

(** [tid != "legacy-tier" and "free" not in tid and "zero" not in tid] *)
Definition default_tier_is_paid (tid : json) : option bool :=
  if PyJson.is_str "legacy-tier" tid then Some false else neither_free_nor_zero tid.

(** [for t in allowed_tiers]: the tier detected so far, and whether an
    exception ended the loop. *)
Fixpoint scan_allowed_tiers (l : list json) (tier : string) : string * bool :=
  match l with
  | [] => (tier, false)
  | t :: r =>
      match PyJson.get t "isDefault" JNull with
      | None => (tier, true)
      | Some is_default =>
          if PyJson.truthy is_default then
            match PyJson.get t "id" (JStr EmptyString) with
            | None => (tier, true)
            | Some tid =>
                match default_tier_is_paid tid with
                | None => (tier, true)
                | Some true => scan_allowed_tiers r "paid"
                | Some false => scan_allowed_tiers r tier
                end
            end
          else scan_allowed_tiers r tier
      end
  end.

(** [project_id] as the body gives it; [None] when [data] has no [get]. *)
Definition project_of (data : json) : option json :=
  match PyJson.get data "cloudaicompanionProject" JNull with
  | None => None
  | Some companion =>
      match companion with
      | JStr _ => Some companion
      | JObj _ => PyJson.get companion "id" (JStr EmptyString)
      | _ => Some (JStr EmptyString)
      end
  end.

(** The body of the [try] after [data = resp.json()]: the tier detected
    so far, and the project id if the function returns here. An exception
    leaves the tier as it was set before it. *)
Definition inspect (data : json) (tier : string) : string * option json :=
  match project_of data with
  | None => (tier, None)
  | Some project_id =>
      let (tier1, raised) :=
        match PyJson.get data "allowedTiers" (JArr []) with
        | Some (JArr l) => scan_allowed_tiers l tier
        | _ => (tier, false)
        end in
      if raised then (tier1, None)
      else
        let (tier2, raised2) :=
          match PyJson.get data "paidTier" JNull with
          | Some (JObj (f :: fs)) =>
              match PyJson.get (JObj (f :: fs)) "id" (JStr EmptyString) with
              | None => (tier1, true)
              | Some pid =>
                  match neither_free_nor_zero pid with
                  | None => (tier1, true)
                  | Some true => ("paid"%string, false)
                  | Some false => (tier1, false)
                  end
              end
          | _ => (tier1, false)
          end in
        if raised2 then (tier2, None)
        else if PyJson.truthy project_id then (tier2, Some project_id)
        else (tier2, None)
  end.

(** [for base_endpoint in CODE_ASSIST_ENDPOINT_FALLBACKS]: the project
    id and the tier returned, and the endpoints posted to. *)
Fixpoint fetch (answers : string -> LoadAnswer) (endpoints : list string)
    (tier : string) (posted : list string) : json * string * list string :=
  match endpoints with
  | [] => (JStr EmptyString, tier, posted)
  | e :: rest =>
      match answers e with
      | Body data =>
          match inspect data tier with
          | (tier', Some project_id) => (project_id, tier', posted ++ [e])
          | (tier', None) => fetch answers rest tier' (posted ++ [e])
          end
      | _ => fetch answers rest tier (posted ++ [e])
      end
  end.

(** [fetch_account_info(access_token)] *)
Definition fetch_account_info (answers : string -> LoadAnswer)
  : json * string * list string :=
  fetch answers Constants.CODE_ASSIST_ENDPOINT_FALLBACKS "free" [].

End AccountInfo.

(** ** [AntigravityClient.ensure_auth], round by round *)
Module Login.

Local Open Scope string_scope.

(** What one call of [authenticate_account()] comes to. *)
Inductive Outcome : Type :=
| LoginRaised                       (* the call raises *)
| LoginFailed                       (* it returns [None] *)
| Authenticated (account : Account).

(** What one call of [console.input(...)] comes to. *)
Inductive Input : Type :=
| InputRaised
| Answer (s : string).

(** One turn of [while True]: the login and the answer typed after it. *)
Record Round : Type := {
  login : Outcome;
  input : Input
}.

(** How the call ends; [StillAsking] when the script of rounds is used up
    and the loop is waiting for the next login. *)
Inductive Ended : Type :=
| Returned
| AuthFailed
| LoginRaises
| StillAsking.

(** [c.lower()] on one character of ASCII. *)
Definition lower_ascii (c : ascii) : ascii :=
  let n := nat_of_ascii c in
  if (65 <=? n)%nat && (n <=? 90)%nat then ascii_of_nat (n + 32) else c.

(** [s.lower()] *)
Fixpoint lower (s : string) : string :=
  match s with
  | EmptyString => EmptyString
  | String c r => String (lower_ascii c) (lower r)
  end.

(** [console.input(...).lower() != 'y'], with an exception of the input
    standing for a refusal as both handlers have it. *)
Definition declined (i : Input) : bool :=
  match i with
  | InputRaised => true
  | Answer s => negb (String.eqb (lower s) "y")
  end.

(** [while True] of [ensure_auth] *)
Fixpoint rounds (script : list Round) (s : State) : Ended * State :=
  match script with
  | [] => (StillAsking, s)
  | r :: rest =>
      match login r with
      | LoginRaised => (LoginRaises, s)
      | account =>
          let s1 :=
            match account with
            | Authenticated a => snd (Auth.add_account a s)
            | _ => s
            end in
          if (1 <=? List.length (accounts (mgr s1)))%nat then
            if declined (input r) then (Returned, s1) else rounds rest s1
          else
            if declined (input r) then (AuthFailed, s1) else rounds rest s1
      end
  end.

(** [AntigravityClient.ensure_auth] *)
Definition ensure_auth (script : list Round) (s : State) : Ended * State :=
  match accounts (mgr s) with
  | [] => rounds script s
  | _ :: _ => (Returned, s)
  end.

(** The accounts the logins of a script hand out, in order. *)
Fixpoint authenticated (script : list Round) : list Account :=
  match script with
  | [] => []
  | r :: rest =>
      match login r with
      | Authenticated a => a :: authenticated rest
      | _ => authenticated rest
      end
  end.

(** How the loop stands after the rounds it used: before the last of
    them every prompt was answered with [y]. *)
Definition rounds_end (out : Ended) (used rest : list Round)
    (s' : State) : Prop :=
  match out with
  | Returned =>
      accounts (mgr s') <> []
      /\ exists u r, used = (u ++ [r])%list
                     /\ declined (input r) = true
                     /\ Forall (fun x => declined (input x) = false) u
  | AuthFailed =>
      accounts (mgr s') = []
      /\ exists u r, used = (u ++ [r])%list
                     /\ declined (input r) = true
                     /\ Forall (fun x => declined (input x) = false) u
  | LoginRaises =>
      (exists r rest', rest = r :: rest' /\ login r = LoginRaised)
      /\ Forall (fun x => declined (input x) = false) used
  | StillAsking =>
      rest = []
      /\ Forall (fun x => declined (input x) = false) used
  end.

End Login.

(** ** More worked examples *)
Module Scenario.
Local Open Scope string_scope.

Definition carol : Account :=
  {| email := Some "carol@example.com"; refreshToken := "refresh-carol";
     projectId := None; access := "token-carol";
     expires := Some 5000 |}.

Definition too_many_requests : Response :=
  {| status_code := 429; retry_after_header := None;
     body_lines := []; body_error := None |}.

Definition streamed : Response :=
  {| status_code := 200; retry_after_header := None;
     body_lines := Example.two_texts; body_error := None |}.

(** Every endpoint answers 429 to everybody. *)
Definition world_rate_limited : World :=
  {| clock := fun _ => 1000;
     token_endpoint := fun _ _ => None;
     upstream := fun _ _ _ _ => Responded too_many_requests;
     interactive_login := [];
     login_raises := false;
     added_meanwhile := fun _ => [] |}.

(** Alice's token is answered 429, any other token gets the stream. *)
Definition world_alice_limited : World :=
  {| clock := fun _ => 1000;
     token_endpoint := fun _ _ => None;
     upstream := fun _ _ token _ =>
       if String.eqb token "token-alice" then Responded too_many_requests
       else Responded streamed;
     interactive_login := [];
     login_raises := false;
     added_meanwhile := fun _ => [] |}.

(** A comment line of an event stream. *)
Definition keep_alive : string := ": keep-alive".

(** 32 bytes standing for the output of the random source. *)
Definition random32 : string := "0123456789abcdef0123456789abcdef".

(** A stand-in for SHA-256 that has its output size. *)
Definition digest32 (data : string) : string := "ABCDEFGHIJKLMNOPQRSTUVWXYZ012345".

(** No endpoint of [loadCodeAssist] can be reached. *)
Definition all_down (endpoint : string) : AccountInfo.LoadAnswer :=
  AccountInfo.PostRaised.

(** The first endpoint knows the tier and no project, the second knows
    the project, the third is down. *)
Definition tier_then_project (endpoint : string) : AccountInfo.LoadAnswer :=
  if String.eqb endpoint Constants.CODE_ASSIST_ENDPOINT_DAILY then
    AccountInfo.Body
      (JObj [("allowedTiers",
              JArr [JObj [("id", JStr "standard-tier");
                          ("isDefault", JBool true)]])])
  else if String.eqb endpoint Constants.CODE_ASSIST_ENDPOINT_AUTOPUSH then
    AccountInfo.Body
      (JObj [("cloudaicompanionProject", JObj [("id", JStr "project-1")])])
  else AccountInfo.PostRaised.

(** A conversation with a system prompt, two user turns in a row and two
    turns that are not the user's. *)
Definition conversation : list (string * string) :=
  [("system", "Be brief."); ("user", "Hi"); ("user", "Are you there?");
   ("assistant", "Yes."); ("tool", "done")].

Definition converted : list Gemini.Content :=
  [{| Gemini.role := "user";
      Gemini.parts := [Gemini.text_part (JStr ("Be brief." ++ Gemini.newline));
                       Gemini.text_part (JStr "Hi");
                       Gemini.text_part (JStr "Are you there?")] |};
   {| Gemini.role := "model";
      Gemini.parts := [Gemini.text_part (JStr "Yes.");
                       Gemini.text_part (JStr "done")] |}].

(** A system message without content. *)
Definition bare_system : json := JObj [("role", JStr "system")].

(** The first login fails and the user retries; the next two succeed. *)
Definition two_logins : list Login.Round :=
  [{| Login.login := Login.LoginFailed; Login.input := Login.Answer "Y" |};
   {| Login.login := Login.Authenticated Example.alice;
      Login.input := Login.Answer "y" |};
   {| Login.login := Login.Authenticated Example.bob;
      Login.input := Login.Answer "n" |}].

(** Two logins fail, and the prompt fails after the second. *)
Definition no_login : list Login.Round :=
  [{| Login.login := Login.LoginFailed; Login.input := Login.Answer "y" |};
   {| Login.login := Login.LoginFailed; Login.input := Login.InputRaised |}].

(** The interactive login ends up adding Alice and Bob. *)
Definition world_logged_in : World :=
  {| clock := fun _ => 1000;
     token_endpoint := fun _ _ => None;
     upstream := fun _ _ _ _ => Responded streamed;
     interactive_login := [Example.alice; Example.bob];
     login_raises := false;
     added_meanwhile := fun _ => [] |}.

End Scenario.

(** * Properties *)

(** ** Lists and indices *)

Lemma norm_index_in_range (len : nat) (i : Z) :
  0 <= i < Z.of_nat len -> Py.norm_index len i = Some (Z.to_nat i).
Proof.
  intros [H0 H1]. unfold Py.norm_index.
  apply Z.leb_le in H0. apply Z.ltb_lt in H1. now rewrite H0, H1.
Qed.

Lemma norm_index_nonneg_bound (len : nat) (i : Z) (pos : nat) :
  0 <= i -> Py.norm_index len i = Some pos ->
  i < Z.of_nat len /\ pos = Z.to_nat i.
Proof.
  intros H0. unfold Py.norm_index.
  destruct (0 <=? i) eqn:Ha; [| apply Z.leb_gt in Ha; lia].
  destruct (i <? Z.of_nat len) eqn:Hb; cbn.
  - intros [= <-]. apply Z.ltb_lt in Hb. split; [lia | reflexivity].
  - destruct (i <? 0) eqn:Hc; cbn; [apply Z.ltb_lt in Hc; lia | discriminate].
Qed.

Lemma length_update_nth {A : Type} (f : A -> A) (l : list A) (pos : nat) :
  List.length (Py.update_nth pos f l) = List.length l.
Proof.
  revert pos. induction l as [| x r IH]; intros [| p]; cbn; auto.
Qed.

Lemma nth_error_update_nth {A : Type} (f : A -> A) (l : list A) (pos : nat) :
  nth_error (Py.update_nth pos f l) pos = option_map f (nth_error l pos).
Proof.
  revert pos. induction l as [| x r IH]; intros [| p]; cbn; auto.
Qed.

Lemma update_nth_nil_iff {A : Type} (f : A -> A) (l : list A) (pos : nat) :
  Py.update_nth pos f l = [] <-> l = [].
Proof.
  destruct l as [| x r], pos as [| p]; cbn; split; congruence.
Qed.

(** ** What the trace projections do on an extended trace *)

Lemma refreshes_of_app (t u : list Event) :
  Client.refreshes_of (t ++ u) = Client.refreshes_of t ++ Client.refreshes_of u.
Proof.
  induction t as [| e t IH]; cbn; [reflexivity |].
  destruct e; cbn; rewrite IH; reflexivity.
Qed.

Lemma saves_of_app (t u : list Event) :
  Client.saves_of (t ++ u) = Client.saves_of t ++ Client.saves_of u.
Proof.
  induction t as [| e t IH]; cbn; [reflexivity |].
  destruct e; cbn; rewrite IH; reflexivity.
Qed.

Lemma yields_app (t u : list Event) :
  Client.yields (t ++ u) = Client.yields t ++ Client.yields u.
Proof.
  induction t as [| e t IH]; cbn; [reflexivity |].
  destruct e; cbn; rewrite IH; reflexivity.
Qed.

Lemma contacted_app (t u : list Event) :
  Client.contacted (t ++ u) = Client.contacted t ++ Client.contacted u.
Proof.
  induction t as [| e t IH]; cbn; [reflexivity |].
  destruct e; cbn; rewrite IH; reflexivity.
Qed.

Lemma attempts_of_app (t u : list Event) :
  Client.attempts_of (t ++ u) = Client.attempts_of t ++ Client.attempts_of u.
Proof.
  induction t as [| e t IH]; cbn; [reflexivity |].
  destruct e; cbn; rewrite IH; reflexivity.
Qed.

(** ** The credential pool *)

(** [get_current_account] answers from the clamped state, and the dict it
    returns is the one at the position it names. *)
Lemma get_current_account_some (s s1 : State) (pos : nat) (a : Account) :
  Auth.get_current_account s = (Ok (Some (pos, a)), s1) ->
  s1 = Spec.clamp_state s /\
  nth_error (accounts (mgr s)) pos = Some a /\
  Py.norm_index (List.length (accounts (mgr s))) (active_index (mgr s1)) = Some pos.
Proof.
  unfold Auth.get_current_account, Spec.clamp_state.
  destruct (accounts (mgr s)) as [| a0 l] eqn:Hacc; [discriminate |].
  destruct (active_index (mgr s) >=? Z.of_nat (List.length (a0 :: l))) eqn:Hge.
  - cbn [mgr set_mgr accounts active_index].
    destruct (Py.norm_index _ 0) as [p |] eqn:Hn; [| discriminate].
    destruct (nth_error (a0 :: l) p) as [x |] eqn:Hx; [| discriminate].
    intros [= <- <- <-]. auto.
  - rewrite Hacc.
    destruct (Py.norm_index _ _) as [p |] eqn:Hn; [| discriminate].
    destruct (nth_error (a0 :: l) p) as [x |] eqn:Hx; [| discriminate].
    intros [= <- <- <-]. auto.
Qed.

(** With a cursor that is not negative, [get_current_account] never
    faults, and reads inside the list. *)
Lemma get_current_account_nonneg (s : State) :
  0 <= active_index (mgr s) ->
  (accounts (mgr s) = [] /\ Auth.get_current_account s = (Ok None, s)) \/
  (exists a,
      Auth.get_current_account s
      = (Ok (Some (Z.to_nat (active_index (mgr (Spec.clamp_state s))), a)),
         Spec.clamp_state s)
      /\ Spec.in_range (mgr (Spec.clamp_state s))
      /\ accounts (mgr (Spec.clamp_state s)) = accounts (mgr s)
      /\ nth_error (accounts (mgr s))
           (Z.to_nat (active_index (mgr (Spec.clamp_state s)))) = Some a).
Proof.
  intros Hnn. unfold Auth.get_current_account, Spec.clamp_state, Spec.in_range.
  destruct (accounts (mgr s)) as [| a0 l] eqn:Hacc; [left; auto | right].
  destruct (active_index (mgr s) >=? Z.of_nat (List.length (a0 :: l))) eqn:Hge.
  - cbn [mgr set_mgr accounts active_index]. exists a0.
    cbn. repeat split; try lia. 
  - rewrite Hacc.
    assert (Hlt : active_index (mgr s) < Z.of_nat (List.length (a0 :: l))).
    { rewrite Z.geb_leb in Hge. apply Z.leb_gt in Hge. lia. }
    rewrite (norm_index_in_range _ _ (conj Hnn Hlt)).
    destruct (nth_error (a0 :: l) (Z.to_nat (active_index (mgr s)))) as [x |] eqn:Hx.
    + exists x. repeat split; auto.
    + apply nth_error_None in Hx. lia.
Qed.

Lemma clamp_state_frame (s : State) :
  disk (Spec.clamp_state s) = disk s /\
  clock_reads (Spec.clamp_state s) = clock_reads s /\
  refresh_calls (Spec.clamp_state s) = refresh_calls s /\
  requests (Spec.clamp_state s) = requests s /\
  trace (Spec.clamp_state s) = trace s /\
  accounts (mgr (Spec.clamp_state s)) = accounts (mgr s).
Proof.
  unfold Spec.clamp_state.
  destruct (accounts (mgr s)) eqn:Hacc; [now rewrite Hacc |].
  destruct (_ >=? _); cbn; now rewrite ?Hacc.
Qed.

Lemma clamp_state_below (s : State) :
  accounts (mgr s) <> [] ->
  active_index (mgr (Spec.clamp_state s)) < Z.of_nat (List.length (accounts (mgr s))).
Proof.
  unfold Spec.clamp_state. intros Hne.
  destruct (accounts (mgr s)) as [| a l] eqn:Hacc; [congruence |].
  destruct (_ >=? _) eqn:Hge; cbn [mgr set_mgr active_index].
  - cbn. lia.
  - rewrite Z.geb_leb in Hge. apply Z.leb_gt in Hge. exact Hge.
Qed.

Lemma clamp_state_in_range (s : State) :
  Spec.in_range (mgr s) -> Spec.clamp_state s = s.
Proof.
  unfold Spec.in_range, Spec.clamp_state. intros [H0 H1].
  destruct (accounts (mgr s)) as [| a l]; [reflexivity |].
  destruct (_ >=? _) eqn:Hge; [| reflexivity].
  rewrite Z.geb_leb in Hge. apply Z.leb_le in Hge. lia.
Qed.

(** A cursor below the length that names a position is answered without
    any change of state. *)
Lemma get_current_account_stable (s : State) (pos : nat) (a : Account) :
  active_index (mgr s) < Z.of_nat (List.length (accounts (mgr s))) ->
  Py.norm_index (List.length (accounts (mgr s))) (active_index (mgr s)) = Some pos ->
  nth_error (accounts (mgr s)) pos = Some a ->
  Auth.get_current_account s = (Ok (Some (pos, a)), s).
Proof.
  intros Hlt Hn Hx. unfold Auth.get_current_account.
  destruct (accounts (mgr s)) as [| a0 l] eqn:Hacc.
  - destruct pos; discriminate.
  - destruct (_ >=? _) eqn:Hge.
    + rewrite Z.geb_leb in Hge. apply Z.leb_le in Hge. lia.
    + rewrite Hacc, Hn, Hx. reflexivity.
Qed.

(** [get_valid_token] on a token that is not near its expiry: one clock
    reading, nothing else. *)
Lemma get_valid_token_fresh (w : World) (s s1 : State) (pos : nat) (a : Account) :
  Auth.get_current_account s = (Ok (Some (pos, a)), s1) ->
  Spec.fresh_at w (clock_reads s) a ->
  Auth.get_valid_token w s
  = (Ok (Some (access a, Py.get_default (projectId a) EmptyString)), tick s1).
Proof.
  intros Hcur Hfresh. unfold Spec.fresh_at in Hfresh.
  destruct (get_current_account_some _ _ _ _ Hcur) as (-> & _ & _).
  destruct (clamp_state_frame s) as (_ & Hck & _).
  unfold Auth.get_valid_token, bind. rewrite Hcur.
  unfold time_time. rewrite Hck.
  destruct (_ >=? _) eqn:Hge; [| reflexivity].
  rewrite Z.geb_leb in Hge. apply Z.leb_le in Hge. lia.
Qed.

(** [get_valid_token] near expiry when the refresh call fails. *)
Lemma get_valid_token_refresh_failed (w : World) (s s1 : State) (pos : nat)
    (a : Account) :
  Auth.get_current_account s = (Ok (Some (pos, a)), s1) ->
  ~ Spec.fresh_at w (clock_reads s) a ->
  token_endpoint w (refresh_calls s) (refreshToken a) = None ->
  Auth.get_valid_token w s = (Ok None, refresh_sent (refreshToken a) (tick s1)).
Proof.
  intros Hcur Hdue Hfail. unfold Spec.fresh_at in Hdue.
  destruct (get_current_account_some _ _ _ _ Hcur) as (-> & _ & _).
  destruct (clamp_state_frame s) as (_ & Hck & Hrc & _).
  unfold Auth.get_valid_token, bind. rewrite Hcur.
  unfold time_time. rewrite Hck.
  destruct (_ >=? _) eqn:Hge.
  - unfold Auth.refresh_access_token. cbn [refresh_calls tick].
    rewrite Hrc, Hfail. reflexivity.
  - rewrite Z.geb_leb in Hge. apply Z.leb_gt in Hge. lia.
Qed.

(** [get_valid_token] near expiry when the refresh call succeeds. *)
Lemma get_valid_token_refreshed (w : World) (s s1 : State) (pos : nat)
    (a : Account) (nt : TokenResponse) :
  Auth.get_current_account s = (Ok (Some (pos, a)), s1) ->
  ~ Spec.fresh_at w (clock_reads s) a ->
  token_endpoint w (refresh_calls s) (refreshToken a) = Some nt ->
  exists s',
    Auth.get_valid_token w s
    = (Ok (Some (access_token nt, Py.get_default (projectId a) EmptyString)), s')
    /\ nth_error (accounts (mgr s')) pos
       = Some (Spec.refreshed nt (clock w (S (clock_reads s))) a)
    /\ List.length (accounts (mgr s')) = List.length (accounts (mgr s))
    /\ active_index (mgr s') = active_index (mgr s1)
    /\ disk s' = Parsed (Spec.saved (mgr s'))
    /\ trace s' = trace s ++ [EvRefresh (refreshToken a); EvSave (Spec.saved (mgr s'))]
    /\ clock_reads s' = S (S (clock_reads s))
    /\ refresh_calls s' = S (refresh_calls s)
    /\ requests s' = requests s.
Proof.
  intros Hcur Hdue Hok. unfold Spec.fresh_at in Hdue.
  destruct (get_current_account_some _ _ _ _ Hcur) as (-> & Hx & _).
  destruct (clamp_state_frame s) as (Hd & Hck & Hrc & Hrq & Htr & Hacc).
  unfold Auth.get_valid_token, bind. rewrite Hcur.
  unfold time_time. rewrite Hck.
  destruct (_ >=? _) eqn:Hge.
  2:{ rewrite Z.geb_leb in Hge. apply Z.leb_gt in Hge. lia. }
  unfold Auth.refresh_access_token. cbn [refresh_calls tick].
  rewrite Hrc, Hok.
  cbn [Auth.set_item Auth.save set_mgr set_disk log refresh_sent tick mgr disk
       clock_reads refresh_calls requests trace accounts active_index].
  rewrite Hck, Hacc.
  rewrite !nth_error_update_nth, Hx. cbn [option_map].
  eexists. split; [reflexivity |].
  cbn [set_mgr set_disk log refresh_sent tick mgr disk
       clock_reads refresh_calls requests trace accounts active_index].
  rewrite !nth_error_update_nth, Hx, !length_update_nth, Htr, Hrq, Hck, Hrc, <- app_assoc.
  cbn. repeat split; reflexivity.
Qed.

(** The refresh calls of one [get_valid_token]: none on a fresh token,
    one near expiry. *)
Lemma get_valid_token_refresh_count (w : World) (s s1 s' : State) (pos : nat)
    (a : Account) (r : Result (option (string * string))) :
  Auth.get_current_account s = (Ok (Some (pos, a)), s1) ->
  Auth.get_valid_token w s = (r, s') ->
  (clock w (clock_reads s) < Py.get_default (expires a) 0 - 60 ->
     Client.refreshes_of (trace s') = Client.refreshes_of (trace s)
     /\ refresh_calls s' = refresh_calls s
     /\ r = Ok (Some (access a, Py.get_default (projectId a) EmptyString))
     /\ mgr s' = mgr s1 /\ disk s' = disk s)
  /\
  (clock w (clock_reads s) >= Py.get_default (expires a) 0 - 60 ->
     Client.refreshes_of (trace s')
     = Client.refreshes_of (trace s) ++ [refreshToken a]
     /\ refresh_calls s' = S (refresh_calls s)).
Proof.
  intros Hcur Hrun.
  pose proof (get_current_account_some _ _ _ _ Hcur) as (Hs1 & _ & _).
  destruct (clamp_state_frame s) as (Hd & Hck & Hrc & Hrq & Htr & Hacc).
  split; intros Hnow.
  - rewrite (get_valid_token_fresh w s s1 pos a Hcur Hnow) in Hrun.
    injection Hrun as <- <-. subst s1. cbn. now rewrite Htr, Hrc, Hd.
  - assert (Hdue : ~ Spec.fresh_at w (clock_reads s) a)
      by (unfold Spec.fresh_at; lia).
    destruct (token_endpoint w (refresh_calls s) (refreshToken a)) as [nt |] eqn:Ht.
    + destruct (get_valid_token_refreshed w s s1 pos a nt Hcur Hdue Ht)
        as (s2 & Hrun' & _ & _ & _ & _ & Htr' & _ & Hrc' & _).
      rewrite Hrun' in Hrun. injection Hrun as <- <-.
      rewrite Htr', refreshes_of_app. cbn. auto.
    + rewrite (get_valid_token_refresh_failed w s s1 pos a Hcur Hdue Ht) in Hrun.
      injection Hrun as <- <-. subst s1. cbn.
      now rewrite refreshes_of_app, Htr, Hrc.
Qed.

(** C5. For a pool with a current account, [get_valid_token] calls the
    token endpoint if and only if [now >= expires - 60]: not at all
    before, exactly once from then on. When that call succeeds the
    account gets the new access token and the new expiry, the pool is
    written to the backing file, and the next call decides on the new
    expiry: no refresh while [now < new expiry - 60], one refresh
    after. *)
Theorem get_valid_token_refreshes_iff_near_expiry
    (w : World) (s s1 s' : State) (pos : nat) (account : Account)
    (r : Result (option (string * string))) :
  Auth.get_current_account s = (Ok (Some (pos, account)), s1) ->
  Auth.get_valid_token w s = (r, s') ->
  let now := clock w (clock_reads s) in
  let expires_at := Py.get_default (expires account) 0 in
  let project := Py.get_default (projectId account) EmptyString in
  (now < expires_at - 60 ->
     Client.refreshes_of (trace s') = Client.refreshes_of (trace s)
     /\ refresh_calls s' = refresh_calls s
     /\ r = Ok (Some (access account, project)))
  /\
  (now >= expires_at - 60 ->
     Client.refreshes_of (trace s')
     = Client.refreshes_of (trace s) ++ [refreshToken account]
     /\ refresh_calls s' = S (refresh_calls s)
     /\ forall nt : TokenResponse,
         token_endpoint w (refresh_calls s) (refreshToken account) = Some nt ->
         let new_expiry := clock w (S (clock_reads s)) + expires_in nt in
         let account' :=
           {| email := email account; refreshToken := refreshToken account;
              projectId := projectId account; access := access_token nt;
              expires := Some new_expiry |} in
         r = Ok (Some (access_token nt, project))
         /\ nth_error (accounts (mgr s')) pos = Some account'
         /\ disk s' = Parsed (Spec.saved (mgr s'))
         /\ Client.saves_of (trace s')
            = Client.saves_of (trace s) ++ [Spec.saved (mgr s')]
         /\ Auth.get_current_account s' = (Ok (Some (pos, account')), s')
         /\ forall r2 s2,
             Auth.get_valid_token w s' = (r2, s2) ->
             let now2 := clock w (clock_reads s') in
             (now2 < new_expiry - 60 ->
                Client.refreshes_of (trace s2) = Client.refreshes_of (trace s')
                /\ r2 = Ok (Some (access_token nt, project)))
             /\
             (now2 >= new_expiry - 60 ->
                Client.refreshes_of (trace s2)
                = Client.refreshes_of (trace s') ++ [refreshToken account])).
Proof.
  intros Hcur Hrun now expires_at project.
  destruct (get_valid_token_refresh_count w s s1 s' pos account r Hcur Hrun)
    as [Hfresh Hnear].
  split.
  - intros Hnow. destruct (Hfresh Hnow) as (H1 & H2 & H3 & _). auto.
  - intros Hnow. destruct (Hnear Hnow) as (H1 & H2).
    split; [exact H1 | split; [exact H2 |]].
    intros nt Hok new_expiry account'.
    assert (Hdue : ~ Spec.fresh_at w (clock_reads s) account)
      by (unfold Spec.fresh_at; subst now expires_at; lia).
    destruct (get_valid_token_refreshed w s s1 pos account nt Hcur Hdue Hok)
      as (s2 & Hrun' & Hx' & Hlen & Hidx & Hdisk & Htr & _).
    rewrite Hrun' in Hrun. injection Hrun as <- <-.
    pose proof (get_current_account_some _ _ _ _ Hcur) as (Hs1 & Hx & Hn).
    assert (Hne : accounts (mgr s) <> []).
    { intros E. rewrite E in Hx. destruct pos; discriminate. }
    assert (Hcur' : Auth.get_current_account s2 = (Ok (Some (pos, account')), s2)).
    { apply get_current_account_stable.
      - rewrite Hidx, Hlen, Hs1. now apply clamp_state_below.
      - now rewrite Hidx, Hlen.
      - exact Hx'. }
    split; [reflexivity |]. split; [exact Hx' |]. split; [exact Hdisk |].
    split; [rewrite Htr, saves_of_app; reflexivity |].
    split; [exact Hcur' |].
    intros r2 s3 Hrun2 now2.
    destruct (get_valid_token_refresh_count w s2 s2 s3 pos account' r2 Hcur' Hrun2)
      as [Hf Hn2].
    split; intros Hnow2.
    + destruct (Hf Hnow2) as (? & _ & ? & _). auto.
    + destruct (Hn2 Hnow2) as (? & _). auto.
Qed.

(** C6 (as amended). When the refresh call for the current account
    fails, [get_valid_token] answers "unavailable"; the accounts and
    their token fields are as before, nothing is written to the backing
    file, and the cursor is not rotated: it is the cursor
    [get_current_account] leaves, which is 0 when the stored cursor was at
    or past the end of the list and the stored cursor otherwise, so with
    a cursor below the length the whole pool is as before. *)
Theorem get_valid_token_refresh_failure_keeps_pool
    (w : World) (s s1 s' : State) (pos : nat) (account : Account)
    (r : Result (option (string * string))) :
  Auth.get_current_account s = (Ok (Some (pos, account)), s1) ->
  clock w (clock_reads s) >= Py.get_default (expires account) 0 - 60 ->
  token_endpoint w (refresh_calls s) (refreshToken account) = None ->
  Auth.get_valid_token w s = (r, s') ->
  r = Ok None
  /\ accounts (mgr s') = accounts (mgr s)
  /\ disk s' = disk s
  /\ Client.saves_of (trace s') = Client.saves_of (trace s)
  /\ active_index (mgr s')
     = (if active_index (mgr s) >=? Z.of_nat (List.length (accounts (mgr s)))
        then 0 else active_index (mgr s))
  /\ (active_index (mgr s) < Z.of_nat (List.length (accounts (mgr s))) ->
      mgr s' = mgr s).
Proof.
  intros Hcur Hnow Hfail Hrun.
  assert (Hdue : ~ Spec.fresh_at w (clock_reads s) account)
    by (unfold Spec.fresh_at; lia).
  rewrite (get_valid_token_refresh_failed w s s1 pos account Hcur Hdue Hfail) in Hrun.
  injection Hrun as <- <-.
  pose proof (get_current_account_some _ _ _ _ Hcur) as (-> & Hx & _).
  destruct (clamp_state_frame s) as (Hd & _ & _ & _ & Htr & Hacc).
  cbn [refresh_sent tick mgr disk trace].
  rewrite saves_of_app, Htr, Hd, Hacc. cbn [Client.saves_of].
  rewrite app_nil_r.
  split; [reflexivity |]. split; [reflexivity |]. split; [reflexivity |].
  split; [reflexivity |].
  unfold Spec.clamp_state.
  destruct (accounts (mgr s)) as [| a0 l] eqn:Ha.
  { destruct pos; discriminate. }
  destruct (_ >=? _) eqn:Hge; cbn [mgr set_mgr active_index].
  - split; [reflexivity |]. intros Hlt.
    rewrite Z.geb_leb in Hge. apply Z.leb_le in Hge. lia.
  - split; reflexivity.
Qed.

(** Under a cursor that is not negative, [get_valid_token] raises
    nothing and leaves such a cursor. *)
Lemma get_valid_token_total (w : World) (s : State) :
  0 <= active_index (mgr s) ->
  exists r s',
    Auth.get_valid_token w s = (Ok r, s') /\ 0 <= active_index (mgr s').
Proof.
  intros Hnn.
  destruct (get_current_account_nonneg s Hnn)
    as [[Hnil Hcur] | (a & Hcur & Hrange & Hacc & Hx)].
  - exists None, s. split; [| exact Hnn].
    unfold Auth.get_valid_token, bind. now rewrite Hcur.
  - destruct (Z_lt_ge_dec (clock w (clock_reads s))
                (Py.get_default (expires a) 0 - 60)) as [Hfresh | Hnear].
    + eexists _, _. split.
      * apply (get_valid_token_fresh w s _ _ a Hcur Hfresh).
      * cbn. apply Hrange.
    + assert (Hdue : ~ Spec.fresh_at w (clock_reads s) a)
        by (unfold Spec.fresh_at; lia).
      destruct (token_endpoint w (refresh_calls s) (refreshToken a)) as [nt |] eqn:Ht.
      * destruct (get_valid_token_refreshed w s _ _ a nt Hcur Hdue Ht)
          as (s2 & Hrun & _ & _ & Hidx & _).
        eexists _, s2. split; [exact Hrun |]. rewrite Hidx. apply Hrange.
      * eexists _, _. split.
        -- apply (get_valid_token_refresh_failed w s _ _ a Hcur Hdue Ht).
        -- cbn. apply Hrange.
Qed.

(** Every operation of the manager, issued with a cursor that is not
    negative, returns normally and leaves such a cursor. *)
Lemma run_op_total (w : World) (op : Spec.PoolOp) (s : State) :
  0 <= active_index (mgr s) ->
  exists s', Spec.run_op w op s = (Ok tt, s') /\ 0 <= active_index (mgr s').
Proof.
  intros Hnn. destruct op as [| | | n | a]; cbn [Spec.run_op].
  - destruct (get_current_account_nonneg s Hnn)
      as [[Hnil Hcur] | (a & Hcur & Hrange & _)];
      unfold bind; rewrite Hcur; eexists; (split; [reflexivity |]); auto.
    apply Hrange.
  - destruct (get_valid_token_total w s Hnn) as (r & s' & Hrun & Hnn').
    unfold bind. rewrite Hrun. eexists; split; [reflexivity | exact Hnn'].
  - unfold Auth.rotate_account.
    destruct (accounts (mgr s)) as [| a l] eqn:Ha.
    + eexists; split; [reflexivity | exact Hnn].
    + eexists; split; [reflexivity |]. cbn [Auth.save log set_disk set_mgr mgr active_index].
      apply Z.mod_pos_bound. cbn [List.length]. lia.
  - unfold Auth.mark_rate_limited, Auth.rotate_account.
    destruct (accounts (mgr s)) as [| a l] eqn:Ha.
    + eexists; split; [reflexivity | exact Hnn].
    + eexists; split; [reflexivity |]. cbn [Auth.save log set_disk set_mgr mgr active_index].
      apply Z.mod_pos_bound. cbn [List.length]. lia.
  - eexists; split; [reflexivity |]. cbn. exact Hnn.
Qed.

Lemma run_ops_total (w : World) (ops : list Spec.PoolOp) (s : State) :
  0 <= active_index (mgr s) ->
  exists s', Spec.run_ops w ops s = (Ok tt, s') /\ 0 <= active_index (mgr s').
Proof.
  revert s. induction ops as [| op rest IH]; intros s Hnn; cbn [Spec.run_ops].
  - exists s. split; [reflexivity | exact Hnn].
  - destruct (run_op_total w op s Hnn) as (s1 & Hop & Hnn1).
    destruct (IH s1 Hnn1) as (s2 & Hrest & Hnn2).
    exists s2. unfold bind. rewrite Hop. auto.
Qed.

(** C8 (as amended). [load] takes the cursor of the backing file as it
    is, also when it is at or past the end of the account list; the
    first [get_current_account] on a non-empty pool then puts it to 0 and
    answers with the first account. Whatever operations of the manager
    follow, none reads out of range (none ends in an [IndexError]), nor
    does a read of the current account or of its token after them, and
    whenever [get_current_account] hands out an account the cursor
    satisfies [0 <= active_index < len(accounts)] and the account is the
    one at the cursor. *)
Theorem stale_cursor_is_clamped_on_first_read
    (w : World) (s0 : State) (data : BackingFile) (i : Z)
    (ops : list Spec.PoolOp) :
  disk s0 = Parsed data ->
  bf_activeIndex data = Some i ->
  i >= Z.of_nat (List.length (Py.get_default (bf_accounts data) [])) ->
  let s1 := snd (Auth.init s0) in
  let s2 := snd (Spec.run_ops w ops s1) in
  accounts (mgr s1) = Py.get_default (bf_accounts data) []
  /\ active_index (mgr s1) = i
  /\ (forall a rest, accounts (mgr s1) = a :: rest ->
        Auth.get_current_account s1
        = (Ok (Some (0%nat, a)),
           set_mgr {| accounts := a :: rest; active_index := 0 |} s1))
  /\ fst (Spec.run_ops w ops s1) <> Raise IndexError
  /\ fst (Auth.get_current_account s2) <> Raise IndexError
  /\ fst (Auth.get_valid_token w s2) <> Raise IndexError
  /\ (forall pos a s3,
        Auth.get_current_account s2 = (Ok (Some (pos, a)), s3) ->
        0 <= active_index (mgr s3) < Z.of_nat (List.length (accounts (mgr s3)))
        /\ Z.of_nat pos = active_index (mgr s3)
        /\ nth_error (accounts (mgr s3)) pos = Some a).
Proof.
  intros Hdisk Hidx Hge s1 s2.
  assert (Hs1 : accounts (mgr s1) = Py.get_default (bf_accounts data) []
                /\ active_index (mgr s1) = i).
  { subst s1. unfold Auth.init, Auth.load. cbn [set_mgr disk].
    rewrite Hdisk. cbn. rewrite Hidx. cbn. auto. }
  destruct Hs1 as [Hacc Hcur].
  split; [exact Hacc |]. split; [exact Hcur |]. split.
  { intros a rest Ha. unfold Auth.get_current_account.
    rewrite Ha, Hcur. rewrite Hacc in Ha. rewrite Ha in Hge.
    assert (Hb : (i >=? Z.of_nat (List.length (a :: rest))) = true).
    { rewrite Z.geb_leb. apply Z.leb_le. lia. }
    rewrite Hb. reflexivity. }
  assert (Hnn : 0 <= active_index (mgr s1)) by (rewrite Hcur; lia).
  destruct (run_ops_total w ops s1 Hnn) as (sx & Hrun & Hnn2).
  subst s2. rewrite Hrun. cbn [fst snd].
  split; [discriminate |].
  destruct (get_valid_token_total w sx Hnn2) as (r & sy & Hgvt & _).
  destruct (get_current_account_nonneg sx Hnn2)
    as [[Hnil Hc] | (a & Hc & Hrange & Hacc2 & Hx)];
    rewrite Hc, Hgvt; cbn [fst];
    (split; [discriminate |]); (split; [discriminate |]).
  - intros pos a s3 [=].
  - intros pos a' s3 [= <- <- <-].
    split; [exact Hrange |]. split.
    + destruct Hrange. lia.
    + now rewrite Hacc2.
Qed.

(** ** Tokens on demand *)

Lemma update_nth_twice {A : Type} (f g : A -> A) (l : list A) (pos : nat) :
  Py.update_nth pos g (Py.update_nth pos f l)
  = Py.update_nth pos (fun x => g (f x)) l.
Proof.
  revert pos. induction l as [| x r IH]; intros [| p]; cbn; auto.
  now rewrite IH.
Qed.

Lemma nth_error_update_nth_other {A : Type} (f : A -> A) (l : list A)
    (pos p : nat) :
  p <> pos -> nth_error (Py.update_nth pos f l) p = nth_error l p.
Proof.
  revert pos p. induction l as [| x r IH]; intros [| pos] [| p] Hne; cbn;
    auto; try congruence.
Qed.

Lemma get_valid_token_refreshed_accounts (w : World) (s s1 : State) (pos : nat)
    (a : Account) (nt : TokenResponse) :
  Auth.get_current_account s = (Ok (Some (pos, a)), s1) ->
  clock w (clock_reads s) >= Py.get_default (expires a) 0 - 60 ->
  token_endpoint w (refresh_calls s) (refreshToken a) = Some nt ->
  accounts (mgr (snd (Auth.get_valid_token w s)))
  = Py.update_nth pos
      (fun x => Auth.with_expires (clock w (S (clock_reads s)) + expires_in nt)
                  (Auth.with_access (access_token nt) x))
      (accounts (mgr s)).
Proof.
  intros Hcur Hnow Hok.
  destruct (get_current_account_some _ _ _ _ Hcur) as (-> & Hx & _).
  destruct (clamp_state_frame s) as (Hd & Hck & Hrc & Hrq & Htr & Hacc).
  unfold Auth.get_valid_token, bind. rewrite Hcur.
  unfold time_time. rewrite Hck.
  destruct (_ >=? _) eqn:Hge.
  2:{ rewrite Z.geb_leb in Hge. apply Z.leb_gt in Hge. lia. }
  unfold Auth.refresh_access_token. cbn [refresh_calls tick].
  rewrite Hrc, Hok.
  cbn [Auth.set_item Auth.save set_mgr set_disk log refresh_sent tick mgr disk
       clock_reads refresh_calls requests trace accounts active_index].
  rewrite Hck, Hacc.
  rewrite !nth_error_update_nth, Hx. cbn [option_map snd mgr accounts set_mgr log set_disk].
  apply update_nth_twice.
Qed.

Lemma nth_error_in_bounds {A : Type} (l : list A) (pos : nat) :
  (pos < List.length l)%nat -> exists x, nth_error l pos = Some x.
Proof.
  intros H. destruct (nth_error l pos) as [x |] eqn:E; [now exists x |].
  apply nth_error_None in E. lia.
Qed.

(** With a cursor that is not before the start of a non-empty list,
    [get_current_account] finds an account. *)
Lemma get_current_account_readable (s : State) :
  Spec.readable (mgr s) ->
  exists pos a,
    Auth.get_current_account s = (Ok (Some (pos, a)), Spec.clamp_state s)
    /\ nth_error (accounts (mgr s)) pos = Some a
    /\ accounts (mgr (Spec.clamp_state s)) = accounts (mgr s)
    /\ Spec.readable (mgr (Spec.clamp_state s)).
Proof.
  intros [Hne Hlo]. unfold Auth.get_current_account, Spec.clamp_state, Spec.readable.
  destruct (accounts (mgr s)) as [| a0 l] eqn:Hacc; [congruence |].
  destruct (active_index (mgr s) >=? Z.of_nat (List.length (a0 :: l))) eqn:Hge;
    cbn [set_mgr mgr accounts active_index].
  - exists 0%nat, a0. cbn [List.length].
    split; [reflexivity |]. split; [reflexivity |]. split; [reflexivity |].
    split; [discriminate | lia].
  - rewrite Hacc. rewrite Z.geb_leb in Hge. apply Z.leb_gt in Hge.
    unfold Py.norm_index.
    destruct ((0 <=? active_index (mgr s))
              && (active_index (mgr s) <? Z.of_nat (List.length (a0 :: l)))) eqn:Hin.
    + apply andb_true_iff in Hin as [H0 _]. apply Z.leb_le in H0.
      destruct (nth_error_in_bounds (a0 :: l) (Z.to_nat (active_index (mgr s))))
        as [a Ha]; [lia |].
      exists (Z.to_nat (active_index (mgr s))), a. rewrite Ha.
      split; [reflexivity |]. split; [reflexivity |]. split; [reflexivity |].
      split; [discriminate | exact Hlo].
    + assert (Hneg : active_index (mgr s) < 0).
      { apply andb_false_iff in Hin as [H0 | H1].
        - apply Z.leb_gt in H0. lia.
        - apply Z.ltb_ge in H1. lia. }
      replace ((active_index (mgr s) <? 0)
               && (- Z.of_nat (List.length (a0 :: l)) <=? active_index (mgr s)))
        with true
        by (symmetry; apply andb_true_iff; split;
            [apply Z.ltb_lt | apply Z.leb_le]; lia).
      destruct (nth_error_in_bounds (a0 :: l)
                  (Z.to_nat (Z.of_nat (List.length (a0 :: l)) + active_index (mgr s))))
        as [a Ha]; [lia |].
      exists (Z.to_nat (Z.of_nat (List.length (a0 :: l)) + active_index (mgr s))), a.
      rewrite Ha.
      split; [reflexivity |]. split; [reflexivity |]. split; [reflexivity |].
      split; [discriminate | exact Hlo].
Qed.

Lemma Forall_update_nth {A : Type} (P : A -> Prop) (f : A -> A) (l : list A)
    (pos : nat) :
  Forall P l ->
  (forall x, nth_error l pos = Some x -> P (f x)) ->
  Forall P (Py.update_nth pos f l).
Proof.
  intros Hall. revert pos. induction Hall as [| x r Hx Hr IH]; intros pos Hf.
  - destruct pos; constructor.
  - destruct pos as [| pos]; cbn.
    + constructor; [apply Hf; reflexivity | exact Hr].
    + constructor; [exact Hx | apply IH; exact Hf].
Qed.



(** A pool whose accounts are all serviceable, read with a cursor that
    finds an account, hands out a token, after a refresh if one is due,
    and is such a pool afterwards. *)
Lemma get_valid_token_on_demand (w : World) (s : State) :
  Spec.readable (mgr s) ->
  Forall (Spec.serviceable w) (accounts (mgr s)) ->
  exists token project s' evs,
    Auth.get_valid_token w s = (Ok (Some (token, project)), s')
    /\ token <> EmptyString
    /\ Spec.readable (mgr s')
    /\ Forall (Spec.serviceable w) (accounts (mgr s'))
    /\ List.length (accounts (mgr s')) = List.length (accounts (mgr s))
    /\ requests s' = requests s
    /\ trace s' = trace s ++ evs
    /\ forallb Spec.pool_event evs = true.
Proof.
  intros Hread Hall.
  destruct (get_current_account_readable s Hread)
    as (pos & a & Hcur & Hx & Hacc1 & Hread1).
  assert (Ha : Spec.serviceable w a)
    by (eapply Forall_forall; [exact Hall | eapply nth_error_In; exact Hx]).
  destruct (clamp_state_frame s) as (_ & _ & _ & Hrq & Htr & _).
  destruct (Z_lt_ge_dec (clock w (clock_reads s)) (Py.get_default (expires a) 0 - 60))
    as [Hfresh | Hdue].
  - exists (access a), (Py.get_default (projectId a) EmptyString),
      (tick (Spec.clamp_state s)), [].
    rewrite (get_valid_token_fresh w s _ pos a Hcur Hfresh).
    cbn [tick mgr requests trace]. rewrite Hacc1, Hrq, Htr, app_nil_r.
    destruct Ha as [Htok _]. repeat split; auto; try apply Hread1.
  - destruct Ha as [Htok [Hforever | Hgrant]].
    { specialize (Hforever (clock_reads s)). unfold Spec.fresh_at in Hforever. lia. }
    destruct (Hgrant (refresh_calls s)) as (nt & Hnt & Hnew).
    assert (Hnot : ~ Spec.fresh_at w (clock_reads s) a)
      by (unfold Spec.fresh_at; lia).
    destruct (get_valid_token_refreshed w s _ pos a nt Hcur Hnot Hnt)
      as (s' & Hrun & _ & Hlen & Hidx & _ & Htrace & _ & _ & Hreq).
    pose proof (get_valid_token_refreshed_accounts w s _ pos a nt Hcur Hdue Hnt)
      as Haccs.
    rewrite Hrun in Haccs. cbn [snd] in Haccs.
    exists (access_token nt), (Py.get_default (projectId a) EmptyString), s',
      [EvRefresh (refreshToken a); EvSave (Spec.saved (mgr s'))].
    split; [exact Hrun |]. split; [exact Hnew |].
    split.
    { destruct Hread1 as [Hne1 Hlo1]. split.
      - intros E. rewrite E in Hlen. cbn in Hlen.
        destruct (accounts (mgr s)); [now destruct Hread | discriminate].
      - rewrite Hlen, Hidx. rewrite Hacc1 in Hlo1. exact Hlo1. }
    split.
    { rewrite Haccs. apply Forall_update_nth; [exact Hall |].
      intros x Hx'. rewrite Hx in Hx'. injection Hx' as <-.
      split; [exact Hnew |]. right. exact Hgrant. }
    repeat split; auto.
Qed.

(** ** The streaming engine, one endpoint at a time *)
Section EngineFacts.

Variable json_loads : string -> option json.

Lemma extend_log (e : Event) (evs : list Event) (s : State) :
  Spec.extend evs (log e s) = Spec.extend (e :: evs) s.
Proof.
  unfold Spec.extend, log. cbn. now rewrite <- app_assoc.
Qed.

(** Reading a body yields its texts in order and does nothing else. *)
Lemma stream_lines_yields (lines : list string) (s : State) :
  Client.stream_lines json_loads lines s
  = (Ok tt, Spec.extend (map EvYield (Spec.texts json_loads lines)) s).
Proof.
  revert s. induction lines as [| line rest IH]; intros s; cbn.
  - unfold ret, Spec.extend. rewrite app_nil_r. now destruct s.
  - destruct (Client.line_text json_loads line) as [t |]; [| apply IH].
    unfold bind, emit. rewrite IH. cbn [map]. now rewrite extend_log.
Qed.

Lemma yields_map_EvYield (l : list json) : Client.yields (map EvYield l) = l.
Proof. induction l as [| x r IH]; cbn; congruence. Qed.

Lemma contacted_map_EvYield (l : list json) : Client.contacted (map EvYield l) = [].
Proof. induction l as [| x r IH]; cbn; congruence. Qed.

Lemma attempts_of_map_EvYield (l : list json) :
  Client.attempts_of (map EvYield l) = [].
Proof. induction l as [| x r IH]; cbn; congruence. Qed.

Lemma is_success_bounds (status : Z) :
  Client.is_success status = true -> 200 <= status <= 299.
Proof.
  unfold Client.is_success. intros H. apply andb_true_iff in H as [H1 H2].
  apply Z.leb_le in H1. apply Z.leb_le in H2. lia.
Qed.

Lemma not_429 (status : Z) : status <> 429 -> (status =? 429) = false.
Proof. intros H. now apply Z.eqb_neq. Qed.

Lemma below_500 (status : Z) : status < 500 -> (status >=? 500) = false.
Proof. intros H. rewrite Z.geb_leb. apply Z.leb_gt. lia. Qed.

Lemma from_500 (status : Z) : status >= 500 -> (status >=? 500) = true.
Proof. intros H. rewrite Z.geb_leb. apply Z.leb_le. lia. Qed.

(** HTTP 500 and above: [last_error] names the status and the endpoint,
    the loop goes on. *)
Lemma try_endpoint_server_error (w : World) (token project endpoint : string)
    (last_error : option Failure) (s : State) (response : Response) :
  upstream w (requests s) endpoint token project = Responded response ->
  status_code response <> 429 ->
  status_code response >= 500 ->
  Client.try_endpoint json_loads w token project endpoint last_error s
  = (Ok (Client.Continue, Some (ServerError (status_code response) endpoint)),
     request_sent endpoint token project s).
Proof.
  intros Hup H429 H500. unfold Client.try_endpoint, bind, Client.post.
  rewrite Hup, (not_429 _ H429), (from_500 _ H500). reflexivity.
Qed.

(** Any other status outside 200..299: [raise_for_status()] raises inside
    the [try], the handler records the exception, the loop goes on. *)
Lemma try_endpoint_client_error (w : World) (token project endpoint : string)
    (last_error : option Failure) (s : State) (response : Response) :
  upstream w (requests s) endpoint token project = Responded response ->
  status_code response <> 429 ->
  status_code response < 500 ->
  Client.is_success (status_code response) = false ->
  Client.try_endpoint json_loads w token project endpoint last_error s
  = (Ok (Client.Continue, Some (Caught (HTTPStatusError (status_code response)))),
     request_sent endpoint token project s).
Proof.
  intros Hup H429 H500 Hns. unfold Client.try_endpoint, bind, Client.post.
  rewrite Hup, (not_429 _ H429), (below_500 _ H500), Hns. reflexivity.
Qed.

(** A 2xx body read to its end: the generator returns. *)
Lemma try_endpoint_stream_done (w : World) (token project endpoint : string)
    (last_error : option Failure) (s : State) (response : Response) :
  upstream w (requests s) endpoint token project = Responded response ->
  Client.is_success (status_code response) = true ->
  body_error response = None ->
  Client.try_endpoint json_loads w token project endpoint last_error s
  = (Ok (Client.Return, last_error),
     Spec.extend (map EvYield (Spec.texts json_loads (body_lines response)))
       (request_sent endpoint token project s)).
Proof.
  intros Hup Hok Hend. unfold Client.try_endpoint, bind, Client.post.
  pose proof (is_success_bounds _ Hok) as Hb.
  rewrite Hup, not_429, below_500, Hok by lia. cbn [negb].
  rewrite stream_lines_yields, Hend. reflexivity.
Qed.

(** A 2xx body cut by a transport error: what was read is yielded, the
    handler records the exception, the loop goes on. *)
Lemma try_endpoint_stream_cut (w : World) (token project endpoint : string)
    (last_error : option Failure) (s : State) (response : Response)
    (msg : string) :
  upstream w (requests s) endpoint token project = Responded response ->
  Client.is_success (status_code response) = true ->
  body_error response = Some msg ->
  Client.try_endpoint json_loads w token project endpoint last_error s
  = (Ok (Client.Continue, Some (Caught (TransportError msg))),
     Spec.extend (map EvYield (Spec.texts json_loads (body_lines response)))
       (request_sent endpoint token project s)).
Proof.
  intros Hup Hok Hcut. unfold Client.try_endpoint, bind, Client.post.
  pose proof (is_success_bounds _ Hok) as Hb.
  rewrite Hup, not_429, below_500, Hok by lia. cbn [negb].
  rewrite stream_lines_yields, Hcut. reflexivity.
Qed.

(** HTTP 429 with no [Retry-After], or with one [int()] accepts: the
    pool rotates and the endpoint loop is left. *)
Lemma try_endpoint_rate_limited (w : World) (token project endpoint : string)
    (last_error : option Failure) (s : State) (response : Response) :
  upstream w (requests s) endpoint token project = Responded response ->
  status_code response = 429 ->
  (retry_after_header response = None
   \/ exists v n, retry_after_header response = Some v /\ Py.int_of_str v = Some n) ->
  Client.try_endpoint json_loads w token project endpoint last_error s
  = (Ok (Client.Break, Some (RateLimit endpoint)),
     snd (Auth.rotate_account (request_sent endpoint token project s))).
Proof.
  intros Hup H429 Hhdr. unfold Client.try_endpoint, bind, Client.post.
  rewrite Hup, H429. cbn [Z.eqb Pos.eqb].
  unfold Auth.mark_rate_limited.
  destruct Hhdr as [-> | (v & n & -> & ->)];
    destruct (Auth.rotate_account _) as [[[] | e] s'] eqn:Hrot; cbn;
    try reflexivity;
    unfold Auth.rotate_account in Hrot;
    destruct (accounts _); discriminate.
Qed.

(** HTTP 429 with a [Retry-After] that [int()] rejects: the [ValueError]
    is caught like any other exception; no rotation, next endpoint. *)
Lemma try_endpoint_rate_limited_unparseable (w : World)
    (token project endpoint : string) (last_error : option Failure)
    (s : State) (response : Response) (v : string) :
  upstream w (requests s) endpoint token project = Responded response ->
  status_code response = 429 ->
  retry_after_header response = Some v ->
  Py.int_of_str v = None ->
  Client.try_endpoint json_loads w token project endpoint last_error s
  = (Ok (Client.Continue, Some (Caught (ValueError v))),
     request_sent endpoint token project s).
Proof.
  intros Hup H429 Hv Hint. unfold Client.try_endpoint, bind, Client.post.
  rewrite Hup, H429, Hv, Hint. reflexivity.
Qed.

End EngineFacts.

(** ** The trace only grows *)
Section TraceGrowth.

Variable json_loads : string -> option json.
Variable p : Event -> bool.

Lemma appends_ret {A : Type} (a : A) : Spec.appends_only p (ret a).
Proof.
  intros s r s' [= <- <-]. exists []. now rewrite app_nil_r.
Qed.

Lemma appends_raise {A : Type} (e : exn) : Spec.appends_only p (@raise A e).
Proof.
  intros s r s' [= <- <-]. exists []. now rewrite app_nil_r.
Qed.

Lemma appends_bind {A B : Type} (c : M A) (k : A -> M B) :
  Spec.appends_only p c ->
  (forall a, Spec.appends_only p (k a)) ->
  Spec.appends_only p (bind c k).
Proof.
  intros Hc Hk s r s'. unfold bind.
  destruct (c s) as [[a | e] s1] eqn:Hcs; intros Hrun.
  - destruct (Hc _ _ _ Hcs) as (ev1 & Ht1 & Hp1).
    destruct (Hk a _ _ _ Hrun) as (ev2 & Ht2 & Hp2).
    exists (ev1 ++ ev2). rewrite Ht2, Ht1, <- app_assoc, forallb_app, Hp1, Hp2. auto.
  - injection Hrun as <- <-. destruct (Hc _ _ _ Hcs) as (ev1 & Ht1 & Hp1).
    exists ev1. auto.
Qed.

Lemma appends_silent {A : Type} (c : M A) :
  (forall s, trace (snd (c s)) = trace s) -> Spec.appends_only p c.
Proof.
  intros H s r s' Hrun. exists []. rewrite app_nil_r.
  specialize (H s). rewrite Hrun in H. auto.
Qed.

Lemma appends_emit (e : Event) : p e = true -> Spec.appends_only p (emit e).
Proof.
  intros He s r s' [= <- <-]. exists [e]. cbn. now rewrite He.
Qed.

Lemma appends_time_time (w : World) : Spec.appends_only p (time_time w).
Proof. apply appends_silent. reflexivity. Qed.

Lemma appends_set_item (pos : nat) (f : Account -> Account) :
  Spec.appends_only p (Auth.set_item pos f).
Proof. apply appends_silent. reflexivity. Qed.

Lemma appends_get_current_account : Spec.appends_only p Auth.get_current_account.
Proof.
  apply appends_silent. intros s. unfold Auth.get_current_account.
  destruct (accounts (mgr s)); [reflexivity |].
  destruct (_ >=? _); cbn [mgr set_mgr accounts active_index];
    destruct (Py.norm_index _ _); try reflexivity;
    destruct (nth_error _ _); reflexivity.
Qed.

Hypothesis p_refresh : forall rt, p (EvRefresh rt) = true.
Hypothesis p_save : forall d, p (EvSave d) = true.

Lemma appends_refresh (w : World) (rt : string) :
  Spec.appends_only p (Auth.refresh_access_token w rt).
Proof.
  intros s r s' [= <- <-]. exists [EvRefresh rt]. cbn. now rewrite p_refresh.
Qed.

Lemma appends_save : Spec.appends_only p Auth.save.
Proof.
  intros s r s' [= <- <-]. eexists [_]. cbn. now rewrite p_save.
Qed.

Lemma appends_add_account (a : Account) : Spec.appends_only p (Auth.add_account a).
Proof.
  intros s r s' [= <- <-]. eexists [_]. cbn. now rewrite p_save.
Qed.

Lemma appends_rotate_account : Spec.appends_only p Auth.rotate_account.
Proof.
  intros s r s'. unfold Auth.rotate_account.
  destruct (accounts (mgr s)).
  - intros [= <- <-]. exists []. now rewrite app_nil_r.
  - intros [= <- <-]. eexists [_]. cbn. now rewrite p_save.
Qed.

Lemma appends_get_valid_token (w : World) :
  Spec.appends_only p (Auth.get_valid_token w).
Proof.
  unfold Auth.get_valid_token.
  apply appends_bind; [apply appends_get_current_account |].
  intros [[pos a] |]; [| apply appends_ret].
  apply appends_bind; [apply appends_time_time |]. intros now.
  destruct (_ >=? _); [| apply appends_ret].
  apply appends_bind; [apply appends_refresh |].
  intros [nt |]; [| apply appends_ret].
  apply appends_bind; [apply appends_set_item |]. intros _.
  apply appends_bind; [apply appends_time_time |]. intros now'.
  apply appends_bind; [apply appends_set_item |]. intros _.
  apply appends_bind; [apply appends_save |]. intros _.
  apply appends_silent. intros s. now destruct (nth_error _ _).
Qed.

Lemma appends_add_accounts (l : list Account) :
  Spec.appends_only p (Client.add_accounts l).
Proof.
  induction l as [| a r IH]; cbn; [apply appends_ret |].
  apply appends_bind; [apply appends_add_account | intros _; exact IH].
Qed.

Hypothesis p_yield : forall c, p (EvYield c) = true.
Hypothesis p_request : forall e t q, p (EvRequest e t q) = true.

Lemma appends_stream_lines (lines : list string) :
  Spec.appends_only p (Client.stream_lines json_loads lines).
Proof.
  induction lines as [| line rest IH]; cbn; [apply appends_ret |].
  destruct (Client.line_text json_loads line); [| exact IH].
  apply appends_bind; [apply appends_emit, p_yield | intros _; exact IH].
Qed.

Lemma appends_try_endpoint (w : World) (token project endpoint : string)
    (last_error : option Failure) :
  Spec.appends_only p
    (Client.try_endpoint json_loads w token project endpoint last_error).
Proof.
  unfold Client.try_endpoint. apply appends_bind.
  - intros s r s' [= <- <-]. eexists [_]. cbn. now rewrite p_request.
  - intros [msg | response]; [apply appends_ret |].
    destruct (_ =? 429).
    + unfold Auth.mark_rate_limited.
      destruct (retry_after_header response) as [v |].
      * destruct (Py.int_of_str v); [| apply appends_ret].
        apply appends_bind; [apply appends_rotate_account | intros _; apply appends_ret].
      * apply appends_bind; [apply appends_rotate_account | intros _; apply appends_ret].
    + destruct (_ >=? 500); [apply appends_ret |].
      destruct (negb _); [apply appends_ret |].
      apply appends_bind; [apply appends_stream_lines |]. intros _.
      destruct (body_error response); apply appends_ret.
Qed.

Lemma appends_try_endpoints (w : World) (token project : string)
    (endpoints : list string) (last_error : option Failure) :
  Spec.appends_only p
    (Client.try_endpoints json_loads w token project endpoints last_error).
Proof.
  revert last_error. induction endpoints as [| e rest IH]; intros le; cbn.
  - apply appends_ret.
  - apply appends_bind; [apply appends_try_endpoint |].
    intros [[| |] le']; [apply appends_ret | apply IH | apply appends_ret].
Qed.

End TraceGrowth.

(** ** The streaming engine *)
Section EngineClaims.

Variable json_loads : string -> option json.

(** C1 (as amended). When an endpoint answered 2xx and a transport error
    cuts its body, the texts read so far have been yielded and stay in
    the output, in order, whatever follows; the error does not end the
    generator: the handler of the endpoint loop records it as
    [last_error] and the loop goes on with the endpoints that remain,
    with the pool untouched. *)
Theorem mid_stream_error_goes_to_next_endpoint
    (w : World) (token project endpoint : string) (rest : list string)
    (last_error : option Failure) (s : State) (response : Response)
    (msg : string) :
  upstream w (requests s) endpoint token project = Responded response ->
  Client.is_success (status_code response) = true ->
  body_error response = Some msg ->
  let s1 :=
    Spec.extend (map EvYield (Spec.texts json_loads (body_lines response)))
      (request_sent endpoint token project s) in
  Client.try_endpoints json_loads w token project (endpoint :: rest) last_error s
  = Client.try_endpoints json_loads w token project rest
      (Some (Caught (TransportError msg))) s1
  /\ Client.yields (trace s1)
     = Client.yields (trace s) ++ Spec.texts json_loads (body_lines response)
  /\ mgr s1 = mgr s
  /\ forall r s',
       Client.try_endpoints json_loads w token project rest
         (Some (Caught (TransportError msg))) s1 = (r, s') ->
       exists later,
         Client.yields (trace s')
         = Client.yields (trace s)
           ++ Spec.texts json_loads (body_lines response) ++ later.
Proof.
  intros Hup Hok Hcut s1.
  assert (Hy : Client.yields (trace s1)
               = Client.yields (trace s)
                 ++ Spec.texts json_loads (body_lines response)).
  { subst s1. cbn [Spec.extend request_sent trace].
    rewrite !yields_app, yields_map_EvYield. cbn. now rewrite app_nil_r. }
  split; [| split; [exact Hy | split; [reflexivity |]]].
  - cbn [Client.try_endpoints]. unfold bind at 1.
    rewrite (try_endpoint_stream_cut json_loads w token project endpoint
               last_error s response msg Hup Hok Hcut).
    reflexivity.
  - intros r s' Hrun.
    destruct (appends_try_endpoints json_loads Spec.any_event
                (fun _ => eq_refl) (fun _ => eq_refl)
                (fun _ _ _ => eq_refl) w token project rest _ _ _ _ Hrun)
      as (evs & Htr & _).
    exists (Client.yields evs). now rewrite Htr, yields_app, Hy, <- app_assoc.
Qed.

(** C2 (as amended). A response whose status is outside 200..299, is not
    429 and is below 500 does not reach the caller: [raise_for_status()]
    raises inside the [try], the handler records the exception as
    [last_error], and the loop goes on with the endpoints that remain;
    the pool is not touched, so no account is rotated. *)
Theorem client_error_goes_to_next_endpoint
    (w : World) (token project endpoint : string) (rest : list string)
    (last_error : option Failure) (s : State) (response : Response) :
  upstream w (requests s) endpoint token project = Responded response ->
  status_code response <> 429 ->
  status_code response < 500 ->
  ~ (200 <= status_code response <= 299) ->
  Client.try_endpoints json_loads w token project (endpoint :: rest) last_error s
  = Client.try_endpoints json_loads w token project rest
      (Some (Caught (HTTPStatusError (status_code response))))
      (request_sent endpoint token project s)
  /\ mgr (request_sent endpoint token project s) = mgr s
  /\ disk (request_sent endpoint token project s) = disk s.
Proof.
  intros Hup H429 H500 Hns.
  assert (Hf : Client.is_success (status_code response) = false).
  { unfold Client.is_success. apply andb_false_iff.
    destruct (Z_le_gt_dec 200 (status_code response)).
    - right. apply Z.leb_gt. lia.
    - left. apply Z.leb_gt. lia. }
  split; [| split; reflexivity].
  cbn [Client.try_endpoints]. unfold bind at 1.
  rewrite (try_endpoint_client_error json_loads w token project endpoint
             last_error s response Hup H429 H500 Hf).
  reflexivity.
Qed.

(** *** Exceptions that can leave the parts of an attempt *)

Lemma get_current_account_raises (s s' : State) (e : exn) :
  Auth.get_current_account s = (Raise e, s') -> e = IndexError.
Proof.
  unfold Auth.get_current_account.
  destruct (accounts (mgr s)); [discriminate |].
  destruct (Py.norm_index _ _); [destruct (nth_error _ _) |]; congruence.
Qed.

Lemma get_valid_token_raises (w : World) (s s' : State) (e : exn) :
  Auth.get_valid_token w s = (Raise e, s') -> e = IndexError.
Proof.
  intros Hrun.
  destruct (Auth.get_current_account s) as [[[[pos a] |] | e0] s0] eqn:Hcur.
  - destruct (Z_lt_ge_dec (clock w (clock_reads s))
                (Py.get_default (expires a) 0 - 60)) as [Hfresh | Hnear].
    + rewrite (get_valid_token_fresh w s s0 pos a Hcur Hfresh) in Hrun.
      discriminate.
    + assert (Hdue : ~ Spec.fresh_at w (clock_reads s) a)
        by (unfold Spec.fresh_at; lia).
      destruct (token_endpoint w (refresh_calls s) (refreshToken a)) as [nt |] eqn:Ht.
      * destruct (get_valid_token_refreshed w s s0 pos a nt Hcur Hdue Ht)
          as (s2 & Hrun' & _).
        rewrite Hrun' in Hrun. discriminate.
      * rewrite (get_valid_token_refresh_failed w s s0 pos a Hcur Hdue Ht) in Hrun.
        discriminate.
  - unfold Auth.get_valid_token, bind in Hrun. rewrite Hcur in Hrun.
    discriminate.
  - unfold Auth.get_valid_token, bind in Hrun. rewrite Hcur in Hrun.
    injection Hrun as <- <-. eapply get_current_account_raises; eauto.
Qed.

(** Nothing raised inside the endpoint loop leaves it. *)
Lemma try_endpoint_returns (w : World) (token project endpoint : string)
    (last_error : option Failure) (s : State) :
  exists step le s',
    Client.try_endpoint json_loads w token project endpoint last_error s
    = (Ok (step, le), s').
Proof.
  unfold Client.try_endpoint, bind, Client.post.
  destruct (upstream _ _ _ _ _) as [m | resp]; [eexists _, _, _; reflexivity |].
  destruct (_ =? 429).
  - unfold Auth.mark_rate_limited, Auth.rotate_account.
    destruct (retry_after_header resp) as [v |];
      [destruct (Py.int_of_str v) |];
      cbn; try (eexists _, _, _; reflexivity);
      destruct (accounts _); eexists _, _, _; reflexivity.
  - destruct (_ >=? 500); [eexists _, _, _; reflexivity |].
    destruct (negb _); [eexists _, _, _; reflexivity |].
    rewrite stream_lines_yields.
    destruct (body_error resp); eexists _, _, _; reflexivity.
Qed.

Lemma try_endpoints_returns (w : World) (token project : string)
    (endpoints : list string) (last_error : option Failure) (s : State) :
  exists returned le s',
    Client.try_endpoints json_loads w token project endpoints last_error s
    = (Ok (returned, le), s').
Proof.
  revert last_error s.
  induction endpoints as [| ep eps IH]; intros le s; cbn [Client.try_endpoints].
  - eexists _, _, _; reflexivity.
  - unfold bind.
    destruct (try_endpoint_returns w token project ep le s)
      as ([| |] & le' & s' & ->).
    + eexists _, _, _; reflexivity.
    + apply IH.
    + eexists _, _, _; reflexivity.
Qed.

Lemma attempts_of_not_attempt (evs : list Event) :
  forallb Spec.not_attempt evs = true -> Client.attempts_of evs = [].
Proof.
  induction evs as [| x evs IH]; [reflexivity |].
  cbn. intros Hp. apply andb_true_iff in Hp as [Hx Hp].
  destruct x; cbn in *; try discriminate; auto.
Qed.

(** *** The attempt loop *)

Lemma add_accounts_effect (l : list Account) (s : State) :
  exists s',
    Client.add_accounts l s = (Ok tt, s')
    /\ accounts (mgr s') = accounts (mgr s) ++ l
    /\ active_index (mgr s') = active_index (mgr s)
    /\ clock_reads s' = clock_reads s
    /\ refresh_calls s' = refresh_calls s
    /\ requests s' = requests s
    /\ Client.yields (trace s') = Client.yields (trace s)
    /\ Client.contacted (trace s') = Client.contacted (trace s)
    /\ Client.attempts_of (trace s') = Client.attempts_of (trace s).
Proof.
  revert s. induction l as [| a r IH]; intros s; cbn [Client.add_accounts].
  - exists s. rewrite app_nil_r. repeat split; reflexivity.
  - unfold bind. cbn [Auth.add_account Auth.save].
    destruct (IH (log (EvSave
                {| bf_version := Some 3;
                   bf_accounts := Some (accounts (mgr s) ++ [a]);
                   bf_activeIndex := Some (active_index (mgr s)) |})
              (set_disk (Parsed
                {| bf_version := Some 3;
                   bf_accounts := Some (accounts (mgr s) ++ [a]);
                   bf_activeIndex := Some (active_index (mgr s)) |})
                (set_mgr {| accounts := accounts (mgr s) ++ [a];
                            active_index := active_index (mgr s) |} s))))
      as (s' & Hrun & Hacc & Hidx & Hck & Hrc & Hrq & Hy & Hc & Ha).
    exists s'. cbn in *. 
    rewrite Hrun, Hacc, Hidx, Hck, Hrc, Hrq, Hy, Hc, Ha, <- app_assoc.
    rewrite yields_app, contacted_app, attempts_of_app. cbn.
    rewrite !app_nil_r. repeat split; reflexivity.
Qed.

(** Attempts are numbered from [attempts + 1] on, there are at most
    [remaining] of them, and exactly [remaining] when the loop ends with
    the exhaustion error. *)
Lemma attempt_loop_budget (w : World) (remaining : nat) :
  forall (attempts : nat) (last_error : option Failure) (s : State)
         (r : Result unit) (s' : State),
    Client.attempt_loop json_loads w remaining attempts last_error s = (r, s') ->
    exists k,
      (k <= remaining)%nat
      /\ Client.attempts_of (trace s')
         = Client.attempts_of (trace s) ++ seq (S attempts) k
      /\ (forall le, r = Raise (AllAccountsFailed le) -> k = remaining).
Proof.
  induction remaining as [| n IH]; intros attempts le s r s' Hrun.
  - cbn in Hrun. injection Hrun as <- <-. exists 0%nat. cbn.
    rewrite app_nil_r. repeat split; auto.
  - cbn [Client.attempt_loop] in Hrun. unfold bind at 1 in Hrun.
    destruct (add_accounts_effect (added_meanwhile w (S attempts)) s)
      as (sa & Hadd & _ & _ & _ & _ & _ & _ & _ & Hatt).
    rewrite Hadd in Hrun. unfold bind at 1, emit in Hrun.
    unfold bind at 1 in Hrun.
    destruct (Auth.get_valid_token w (log (EvAttempt (S attempts)) sa))
      as [unpacked sg] eqn:Hgvt.
    assert (Hquiet : Client.attempts_of (trace sg)
                     = Client.attempts_of (trace s) ++ [S attempts]).
    { destruct (appends_get_valid_token Spec.not_attempt
                  (fun _ => eq_refl) (fun _ => eq_refl) w _ _ _ Hgvt)
        as (evs & Htr & Hp).
      rewrite Htr. cbn [log trace]. rewrite !attempts_of_app, Hatt.
      cbn [Client.attempts_of].
      now rewrite (attempts_of_not_attempt _ Hp), app_nil_r. }
    destruct unpacked as [[[token project_id] |] | e].
    3:{ injection Hrun as <- <-. exists 1%nat. split; [lia |].
        split; [exact Hquiet |]. intros le' E.
        apply get_valid_token_raises in Hgvt. congruence. }
    2:{ injection Hrun as <- <-. exists 1%nat. split; [lia |].
        split; [exact Hquiet | discriminate]. }
    destruct (String.eqb token EmptyString).
    { injection Hrun as <- <-. exists 1%nat. split; [lia |].
      split; [exact Hquiet | discriminate]. }
    unfold bind at 1 in Hrun.
    destruct (try_endpoints_returns w token project_id
                Constants.CODE_ASSIST_ENDPOINT_FALLBACKS le sg)
      as (returned & le1 & se & Hte).
    rewrite Hte in Hrun.
    assert (Hquiet2 : Client.attempts_of (trace se)
                      = Client.attempts_of (trace s) ++ [S attempts]).
    { destruct (appends_try_endpoints json_loads Spec.not_attempt
                  (fun _ => eq_refl) (fun _ => eq_refl)
                  (fun _ _ _ => eq_refl) w token project_id _ _ _ _ _ Hte)
        as (evs & Htr & Hp).
      now rewrite Htr, attempts_of_app, Hquiet,
        (attempts_of_not_attempt _ Hp), app_nil_r. }
    cbn [fst snd] in Hrun. destruct returned.
    + injection Hrun as <- <-. exists 1%nat. split; [lia |].
      split; [exact Hquiet2 | discriminate].
    + destruct (IH _ _ _ _ _ Hrun) as (k & Hk & Hatt' & Hex).
      exists (S k). split; [lia |]. split.
      * rewrite Hatt', Hquiet2, <- app_assoc. reflexivity.
      * intros le' E. f_equal. eapply Hex; eauto.
Qed.

(** Endpoints that all answer 500 are all tried, in order; the last one
    is the error remembered. *)
Lemma try_endpoints_all_500 (w : World) (token project : string) :
  (forall k e, exists resp,
      upstream w k e token project = Responded resp /\ status_code resp = 500) ->
  forall (endpoints : list string) (last_error : option Failure) (s : State),
  exists s',
    Client.try_endpoints json_loads w token project endpoints last_error s
    = (Ok (false,
           fold_left (fun _ e => Some (ServerError 500 e)) endpoints last_error),
       s')
    /\ mgr s' = mgr s
    /\ clock_reads s' = clock_reads s
    /\ Client.contacted (trace s') = Client.contacted (trace s) ++ endpoints
    /\ Client.attempts_of (trace s') = Client.attempts_of (trace s).
Proof.
  intros H500. induction endpoints as [| ep eps IH]; intros le s.
  - exists s. cbn. rewrite app_nil_r. repeat split; reflexivity.
  - destruct (H500 (requests s) ep) as (resp & Hup & Hst).
    cbn [Client.try_endpoints fold_left]. unfold bind at 1.
    rewrite (try_endpoint_server_error json_loads w token project ep le s resp Hup)
      by lia.
    rewrite Hst.
    destruct (IH (Some (ServerError 500 ep)) (request_sent ep token project s))
      as (s' & Hrun & Hm & Hck & Hc & Ha).
    exists s'. rewrite Hrun, Hm, Hck, Hc, Ha. cbn.
    rewrite contacted_app, attempts_of_app, <- !app_assoc. cbn.
    rewrite app_nil_r. repeat split; reflexivity.
Qed.

(** Refresh calls and file writes are no attempt, no request and no
    chunk. *)
Lemma pool_events_are_silent (evs : list Event) :
  forallb Spec.pool_event evs = true ->
  Client.attempts_of evs = []
  /\ Client.contacted evs = []
  /\ Client.yields evs = [].
Proof.
  induction evs as [| x evs IH]; [now repeat split |].
  cbn [forallb]. intros Hp. apply andb_true_iff in Hp as [Hx Hp].
  destruct (IH Hp) as (Ha & Hc & Hy).
  destruct x; cbn in *; try discriminate; auto.
Qed.


(** What [ensure_auth] leaves behind when it returns: a pool that is not
    empty, the same requests and the same projections of the trace. *)
Lemma ensure_auth_returns (w : World) (s s0 : State) :
  Client.ensure_auth w s = (Ok tt, s0) ->
  accounts (mgr s0) <> []
  /\ requests s0 = requests s
  /\ Client.attempts_of (trace s0) = Client.attempts_of (trace s)
  /\ Client.contacted (trace s0) = Client.contacted (trace s)
  /\ Client.yields (trace s0) = Client.yields (trace s).
Proof.
  unfold Client.ensure_auth. intros H.
  destruct (accounts (mgr s)) as [| a l] eqn:Hacc.
  - destruct (login_raises w).
    + unfold bind in H.
      destruct (Client.add_accounts (interactive_login w) s) as [[[] | e] sx];
        discriminate.
    + destruct (interactive_login w) as [| x l]; [discriminate |].
      destruct (add_accounts_effect (x :: l) s)
        as (sx & Hx & Haccx & _ & _ & _ & Hrq & Hy & Hc & Ha).
      rewrite Hx in H. injection H as <-.
      rewrite Haccx, Hacc. repeat split; auto. discriminate.
  - injection H as <-. rewrite Hacc. repeat split; auto. discriminate.
Qed.

(** Whatever [ensure_auth] does, it starts no attempt. *)
Lemma ensure_auth_attempts (w : World) (s s0 : State) (r : Result unit) :
  Client.ensure_auth w s = (r, s0) ->
  Client.attempts_of (trace s0) = Client.attempts_of (trace s).
Proof.
  unfold Client.ensure_auth. intros H.
  destruct (accounts (mgr s)); [| now injection H as <- <-].
  destruct (login_raises w).
  - unfold bind in H.
    destruct (add_accounts_effect (interactive_login w) s)
      as (sx & Hx & _ & _ & _ & _ & _ & _ & _ & Ha).
    rewrite Hx in H. now injection H as <- <-.
  - destruct (interactive_login w) as [| x l]; [now injection H as <- <- |].
    destruct (add_accounts_effect (x :: l) s)
      as (sx & Hx & _ & _ & _ & _ & _ & _ & _ & Ha).
    rewrite Hx in H. now injection H as <- <-.
Qed.

(** Serviceable accounts, a cursor that finds one, every endpoint
    answering 500: the loop uses up what remains of the budget, whatever
    serviceable accounts are added meanwhile and whether or not tokens
    have to be refreshed. *)
Lemma attempt_loop_all_500 (w : World) :
  (forall k, Forall (Spec.serviceable w) (added_meanwhile w k)) ->
  (forall k e t q, exists resp,
      upstream w k e t q = Responded resp /\ status_code resp = 500) ->
  forall (remaining attempts : nat) (last_error : option Failure) (s : State),
    Spec.readable (mgr s) ->
    Forall (Spec.serviceable w) (accounts (mgr s)) ->
    exists s',
      Client.attempt_loop json_loads w remaining attempts last_error s
      = (Raise (AllAccountsFailed
                  match remaining with
                  | O => last_error
                  | S _ => Some (ServerError 500 Constants.CODE_ASSIST_ENDPOINT_PROD)
                  end), s')
      /\ Client.attempts_of (trace s')
         = Client.attempts_of (trace s) ++ seq (S attempts) remaining
      /\ Client.contacted (trace s')
         = Client.contacted (trace s)
           ++ List.concat (repeat Constants.CODE_ASSIST_ENDPOINT_FALLBACKS remaining).
Proof.
  intros Hadded H500.
  induction remaining as [| n IH]; intros attempts le s Hread Hall.
  - exists s. cbn. rewrite !app_nil_r. repeat split; reflexivity.
  - cbn [Client.attempt_loop]. unfold bind at 1.
    destruct (add_accounts_effect (added_meanwhile w (S attempts)) s)
      as (sa & Hadd & Hacc' & Hidx' & _ & _ & _ & _ & Hcon & Hatt).
    rewrite Hadd. unfold bind at 1, emit. unfold bind at 1.
    set (sb := log (EvAttempt (S attempts)) sa).
    assert (Hreadb : Spec.readable (mgr sb)).
    { destruct Hread as [Hne Hlo]. subst sb. cbn [log mgr]. split.
      - rewrite Hacc'. intros E. apply app_eq_nil in E as [E _]. contradiction.
      - rewrite Hacc', Hidx', length_app. lia. }
    assert (Hallb : Forall (Spec.serviceable w) (accounts (mgr sb))).
    { subst sb. cbn [log mgr]. rewrite Hacc'. apply Forall_app. auto. }
    destruct (get_valid_token_on_demand w sb Hreadb Hallb)
      as (token & project & sg & evs & Hgvt & Htok & Hreadg & Hallg & _ & _
          & Htrace & Hevs).
    rewrite Hgvt.
    apply String.eqb_neq in Htok. rewrite Htok.
    unfold bind at 1.
    destruct (try_endpoints_all_500 w token project
                (fun k e => H500 k e _ _)
                Constants.CODE_ASSIST_ENDPOINT_FALLBACKS le sg)
      as (se & Hte & Hm & _ & Hc & Ha).
    rewrite Hte. cbn [fst snd fold_left Constants.CODE_ASSIST_ENDPOINT_FALLBACKS].
    destruct (IH (S attempts)
                (Some (ServerError 500 Constants.CODE_ASSIST_ENDPOINT_PROD)) se)
      as (s' & Hrun & Ha' & Hc').
    { now rewrite Hm. }
    { now rewrite Hm. }
    destruct (pool_events_are_silent evs Hevs) as (Hea & Hec & _).
    exists s'. rewrite Hrun, Ha', Hc', Ha, Hc, Htrace. subst sb.
    cbn [log trace].
    rewrite !attempts_of_app, !contacted_app, Hatt, Hcon, Hea, Hec.
    cbn [Client.attempts_of Client.contacted repeat List.concat seq].
    rewrite !app_nil_r, <- !app_assoc.
    split; [| split; reflexivity].
    destruct n; reflexivity.
Qed.

(** C4. The budget is three attempts per account of the pool as it is
    when the loop is entered (after the login that an empty pool
    triggers, and after the conversion of the messages): never more
    attempts than that, whatever accounts are added during the run, and
    exactly that many before the exhaustion error. With one account,
    messages the conversion accepts, a token at every attempt (as it is
    or after a refresh) and every endpoint answering 500, the engine
    makes attempts 1, 2 and 3, each over the three endpoints, and then
    raises the exhaustion error, which carries the last error
    recorded. *)
Theorem retry_budget_is_three_per_account :
  (forall (w : World) (messages : list json) (s s' : State) (r : Result unit),
      Client.stream_generate_content json_loads w messages s = (r, s') ->
      let N := List.length (accounts (mgr (snd (Client.ensure_auth w s)))) in
      exists k,
        (k <= 3 * N)%nat
        /\ Client.attempts_of (trace s')
           = Client.attempts_of (trace s) ++ seq 1 k
        /\ (forall le, r = Raise (AllAccountsFailed le) -> k = (3 * N)%nat))
  /\
  (forall (w : World) (messages : list json) (contents : list Gemini.Content)
          (s : State) (a : Account),
      Gemini._convert_messages_to_gemini messages = Some contents ->
      accounts (mgr s) = [a] ->
      -1 <= active_index (mgr s) ->
      Spec.serviceable w a ->
      (forall k, Forall (Spec.serviceable w) (added_meanwhile w k)) ->
      (forall k e t q, exists resp,
          upstream w k e t q = Responded resp /\ status_code resp = 500) ->
      exists s',
        Client.stream_generate_content json_loads w messages s
        = (Raise (AllAccountsFailed
                    (Some (ServerError 500 Constants.CODE_ASSIST_ENDPOINT_PROD))),
           s')
        /\ Client.attempts_of (trace s')
           = Client.attempts_of (trace s) ++ [1; 2; 3]%nat
        /\ Client.contacted (trace s')
           = Client.contacted (trace s)
             ++ Constants.CODE_ASSIST_ENDPOINT_FALLBACKS
             ++ Constants.CODE_ASSIST_ENDPOINT_FALLBACKS
             ++ Constants.CODE_ASSIST_ENDPOINT_FALLBACKS).
Proof.
  split.
  - intros w messages s s' r Hrun N.
    unfold Client.stream_generate_content in Hrun. unfold bind at 1 in Hrun.
    destruct (Client.ensure_auth w s) as [[[] | e] s1] eqn:Hauth.
    + pose proof (ensure_auth_attempts w s s1 _ Hauth) as Ha1.
      unfold bind at 1, Client.convert_messages in Hrun.
      destruct (Gemini._convert_messages_to_gemini messages) as [contents |].
      * unfold ret at 1 in Hrun. unfold bind at 1, Client.pool_size in Hrun.
        subst N. cbn [snd].
        destruct (attempt_loop_budget w _ _ _ _ _ _ Hrun) as (k & Hk & Hatt & Hex).
        exists k. rewrite Hatt, Ha1. auto.
      * unfold raise in Hrun. injection Hrun as <- <-.
        exists 0%nat. cbn [seq]. rewrite app_nil_r, Ha1.
        split; [lia |]. split; [reflexivity | discriminate].
    + injection Hrun as <- <-. exists 0%nat. cbn [seq].
      rewrite app_nil_r, (ensure_auth_attempts w s s1 _ Hauth).
      split; [lia |]. split; [reflexivity |].
      intros le Hle. injection Hle as ->. exfalso.
      unfold Client.ensure_auth in Hauth.
      destruct (accounts (mgr s)); [| discriminate].
      destruct (login_raises w).
      * unfold bind in Hauth.
        destruct (add_accounts_effect (interactive_login w) s) as (sx & Hx & _).
        rewrite Hx in Hauth. discriminate.
      * destruct (interactive_login w) as [| x l]; [discriminate |].
        destruct (add_accounts_effect (x :: l) s) as (sx & Hx & _).
        rewrite Hx in Hauth. discriminate.
  - intros w messages contents s a Hconv Hacc Hidx Ha Hadded H500.
    unfold Client.stream_generate_content, bind, Client.ensure_auth,
      Client.convert_messages, Client.pool_size.
    rewrite Hacc, Hconv. unfold ret at 1. cbv beta iota. rewrite Hacc.
    change (3 * List.length [a])%nat with 3%nat.
    destruct (attempt_loop_all_500 w Hadded H500 3%nat 0%nat None s)
      as (s' & Hrun & Hatt & Hc).
    { split; [rewrite Hacc; discriminate | rewrite Hacc; cbn; lia]. }
    { rewrite Hacc. constructor; [exact Ha | constructor]. }
    exists s'. rewrite Hrun, Hatt, Hc. cbn [repeat List.concat seq].
    rewrite app_nil_r. repeat split; reflexivity.
Qed.


End EngineClaims.

(** ** The state token *)

Lemma byte_val_bounds (c : ascii) : 0 <= Base64.byte_val c < 256.
Proof.
  unfold Base64.byte_val. pose proof (N_ascii_bounded c). lia.
Qed.

Lemma byte_chr_val (c : ascii) : Base64.byte_chr (Base64.byte_val c) = c.
Proof.
  unfold Base64.byte_chr, Base64.byte_val. rewrite N2Z.id.
  apply ascii_N_embedding.
Qed.

Lemma sextet_table :
  forallb (fun k : nat =>
             match Base64.char_sextet (Base64.sextet_char (Z.of_nat k)) with
             | Some n => (n =? Z.of_nat k)
                         && negb (Ascii.eqb (Base64.sextet_char (Z.of_nat k)) Base64.pad)
             | None => false
             end) (seq 0 64) = true.
Proof. vm_compute. reflexivity. Qed.

Lemma sextet_char_inv (n : Z) :
  0 <= n < 64 ->
  Base64.char_sextet (Base64.sextet_char n) = Some n
  /\ Ascii.eqb (Base64.sextet_char n) Base64.pad = false.
Proof.
  intros Hn. pose proof sextet_table as H.
  rewrite forallb_forall in H. specialize (H (Z.to_nat n)).
  rewrite Z2Nat.id in H by lia.
  assert (Hin : In (Z.to_nat n) (seq 0 64)) by (apply in_seq; lia).
  specialize (H Hin).
  destruct (Base64.char_sextet _) as [m |]; [| discriminate].
  apply andb_true_iff in H as [H1 H2]. apply Z.eqb_eq in H1.
  apply negb_true_iff in H2. subst. auto.
Qed.

Lemma group3 (a b c : Z) :
  0 <= a < 256 -> 0 <= b < 256 -> 0 <= c < 256 ->
  let n := a * 65536 + b * 256 + c in
  0 <= n / 262144 < 64 /\ 0 <= n / 4096 mod 64 < 64
  /\ 0 <= n / 64 mod 64 < 64 /\ 0 <= n mod 64 < 64
  /\ n / 262144 * 262144 + n / 4096 mod 64 * 4096 + n / 64 mod 64 * 64 + n mod 64 = n
  /\ n / 65536 = a /\ n / 256 mod 256 = b /\ n mod 256 = c.
Proof.
  intros Ha Hb Hc n. subst n.
  repeat split; Z.div_mod_to_equations; lia.
Qed.

Lemma group1 (a : Z) :
  0 <= a < 256 ->
  let n := a * 65536 in
  0 <= n / 262144 < 64 /\ 0 <= n / 4096 mod 64 < 64
  /\ (n / 262144 * 262144 + n / 4096 mod 64 * 4096) / 65536 = a.
Proof.
  intros Ha n. subst n. repeat split; Z.div_mod_to_equations; lia.
Qed.

Lemma group2 (a b : Z) :
  0 <= a < 256 -> 0 <= b < 256 ->
  let n := a * 65536 + b * 256 in
  0 <= n / 262144 < 64 /\ 0 <= n / 4096 mod 64 < 64
  /\ 0 <= n / 64 mod 64 < 64
  /\ (n / 262144 * 262144 + n / 4096 mod 64 * 4096 + n / 64 mod 64 * 64) / 65536 = a
  /\ (n / 262144 * 262144 + n / 4096 mod 64 * 4096 + n / 64 mod 64 * 64) / 256 mod 256 = b.
Proof.
  intros Ha Hb n. subst n. repeat split; Z.div_mod_to_equations; lia.
Qed.

Lemma string_by_triples (P : string -> Prop) :
  P EmptyString ->
  (forall a, P (String a EmptyString)) ->
  (forall a b, P (String a (String b EmptyString))) ->
  (forall a b c r, P r -> P (String a (String b (String c r)))) ->
  forall s, P s.
Proof.
  intros H0 H1 H2 H3. fix IH 1.
  intros [| a [| b [| c r]]]; [exact H0 | apply H1 | apply H2 | apply H3, IH].
Qed.

Lemma urlsafe_b64decode_encode (bs : string) :
  Base64.urlsafe_b64decode (Base64.urlsafe_b64encode bs) = Some bs.
Proof.
  induction bs as [| a | a b | a b c r IH] using string_by_triples.
  - reflexivity.
  - destruct (group1 _ (byte_val_bounds a)) as (R1 & R2 & B1).
    cbn [Base64.urlsafe_b64encode Base64.urlsafe_b64decode].
    destruct (sextet_char_inv _ R1) as [-> _].
    destruct (sextet_char_inv _ R2) as [-> _].
    change (Ascii.eqb Base64.pad Base64.pad) with true. cbv iota.
    rewrite B1, byte_chr_val. reflexivity.
  - destruct (group2 _ _ (byte_val_bounds a) (byte_val_bounds b))
      as (R1 & R2 & R3 & B1 & B2).
    cbn [Base64.urlsafe_b64encode Base64.urlsafe_b64decode].
    destruct (sextet_char_inv _ R1) as [-> _].
    destruct (sextet_char_inv _ R2) as [-> _].
    destruct (sextet_char_inv _ R3) as [-> ->].
    change (Ascii.eqb Base64.pad Base64.pad) with true. cbv iota.
    rewrite B1, B2, !byte_chr_val. reflexivity.
  - destruct (group3 _ _ _ (byte_val_bounds a) (byte_val_bounds b)
                (byte_val_bounds c)) as (R1 & R2 & R3 & R4 & E & B1 & B2 & B3).
    cbn [Base64.urlsafe_b64encode Base64.urlsafe_b64decode].
    destruct (sextet_char_inv _ R1) as [-> _].
    destruct (sextet_char_inv _ R2) as [-> _].
    destruct (sextet_char_inv _ R3) as [-> ->].
    destruct (sextet_char_inv _ R4) as [-> ->].
    rewrite IH, E, B1, B2, B3, !byte_chr_val. reflexivity.
Qed.

(** ** The json module reads back what it writes *)
Section JsonFacts.
Local Open Scope string_scope.

Lemma append_empty_r (s : string) : s ++ EmptyString = s.
Proof. induction s as [| c r IH]; cbn; congruence. Qed.

Lemma length_append (s t : string) :
  String.length (s ++ t) = (String.length s + String.length t)%nat.
Proof. induction s as [| c r IH]; cbn; congruence. Qed.

Lemma append_assoc (a b c : string) : (a ++ b) ++ c = a ++ (b ++ c).
Proof. induction a as [| x a IH]; cbn; congruence. Qed.

Lemma loads_chars_escape_char (c : ascii) (tail : string) :
  JsonLib.loads_chars (JsonLib.escape_char c ++ tail)
  = match JsonLib.loads_chars tail with
    | Some (t, r) => Some (String c t, r)
    | None => None
    end.
Proof.
  destruct c as [[] [] [] [] [] [] [] []]; reflexivity.
Qed.

Lemma loads_chars_escape (s rest : string) :
  JsonLib.loads_chars (JsonLib.escape s ++ String JsonLib.quote rest)
  = Some (s, rest).
Proof.
  induction s as [| c r IH]; cbn [JsonLib.escape append].
  - reflexivity.
  - rewrite append_assoc, loads_chars_escape_char, IH. reflexivity.
Qed.

(** The text of a string literal is read back. *)
Lemma loads_chars_dumps_str (s rest : string) :
  exists body,
    JsonLib.str_text s ++ rest = String JsonLib.quote body
    /\ JsonLib.loads_chars body = Some (s, rest).
Proof.
  exists (JsonLib.escape s ++ String JsonLib.quote rest). split.
  - unfold JsonLib.str_text. cbn [append]. now rewrite append_assoc.
  - apply loads_chars_escape.
Qed.

(** *** Integers *)


Lemma span_digits_string_of_uint (d : Decimal.uint) (rest : string) :
  Spec.starts_number_tail rest = false ->
  JsonLib.span_digits (NilEmpty.string_of_uint d ++ rest)
  = (NilEmpty.string_of_uint d, rest).
Proof.
  intros Hrest. induction d; cbn [NilEmpty.string_of_uint append];
    try (cbn [JsonLib.span_digits]; change (Py.is_digit _) with true;
         cbv iota; rewrite IHd; reflexivity).
  destruct rest as [| c r]; [reflexivity |].
  cbn [JsonLib.span_digits]. cbn in Hrest.
  destruct (Py.is_digit c); [discriminate | reflexivity].
Qed.

Lemma nzhead_head (d : Decimal.uint) :
  match Decimal.nzhead d with
  | Decimal.D0 _ => False
  | _ => True
  end.
Proof. induction d; cbn; auto. Qed.

Lemma unorm_fixed_no_leading_zero (d d' : Decimal.uint) :
  Decimal.unorm d = d -> d = Decimal.D0 d' -> d' = Decimal.Nil.
Proof.
  intros Hn ->. unfold Decimal.unorm in Hn. cbn [Decimal.nzhead] in Hn.
  pose proof (nzhead_head d') as Hh.
  destruct (Decimal.nzhead d'); try discriminate; try contradiction.
  now injection Hn.
Qed.

Lemma pos_to_uint_normal (p : positive) :
  Decimal.unorm (Pos.to_uint p) = Pos.to_uint p
  /\ Decimal.nzhead (Pos.to_uint p) = Pos.to_uint p.
Proof.
  pose proof (DecimalZ.to_of (Z.to_int (Z.pos p))) as H.
  rewrite DecimalZ.of_to in H. cbn [Z.to_int Decimal.norm] in H.
  injection H as H.
  pose proof (DecimalZ.to_of (Z.to_int (Z.neg p))) as H'.
  rewrite DecimalZ.of_to in H'. cbn [Z.to_int Decimal.norm] in H'.
  split; [congruence |].
  destruct (Decimal.nzhead (Pos.to_uint p)); congruence.
Qed.

Lemma string_of_uint_head (d : Decimal.uint) :
  d <> Decimal.Nil ->
  exists c r, NilEmpty.string_of_uint d = String c r /\ Py.is_digit c = true.
Proof.
  intros Hd. destruct d; [congruence | ..]; cbn; eexists _, _; split; reflexivity.
Qed.

Lemma digit_is_not_sign (c : ascii) :
  Py.is_digit c = true ->
  Ascii.eqb c "-" = false /\ JsonLib.is_ws c = false
  /\ Ascii.eqb c "n" = false /\ Ascii.eqb c "t" = false
  /\ Ascii.eqb c "f" = false /\ Ascii.eqb c JsonLib.quote = false
  /\ Ascii.eqb c "[" = false /\ Ascii.eqb c "{" = false.
Proof.
  destruct c as [[] [] [] [] [] [] [] []]; cbv; intros H;
    try discriminate H; repeat split.
Qed.

Lemma leading_zero_normal (d : Decimal.uint) :
  Decimal.unorm d = d ->
  JsonLib.leading_zero (NilEmpty.string_of_uint d) = false.
Proof.
  intros Hn. destruct d; try reflexivity; try (now destruct d).
  pose proof (unorm_fixed_no_leading_zero _ d Hn eq_refl) as ->. reflexivity.
Qed.

Lemma starts_fraction_tail (rest : string) :
  Spec.starts_number_tail rest = false -> JsonLib.starts_fraction rest = false.
Proof.
  destruct rest as [| c r]; [reflexivity |]. cbn.
  intros H. apply orb_false_iff in H as [H H3].
  apply orb_false_iff in H as [H H2]. apply orb_false_iff in H as [_ H1].
  now rewrite H1, H2, H3.
Qed.

Lemma split_sign_shape (neg : bool) (d : Decimal.uint) (rest : string) :
  d <> Decimal.Nil ->
  JsonLib.split_sign
    ((if neg then "-" else EmptyString) ++ NilEmpty.string_of_uint d ++ rest)
  = (neg, NilEmpty.string_of_uint d ++ rest).
Proof.
  intros Hd. destruct neg; [reflexivity |]. cbn [append].
  destruct (string_of_uint_head d Hd) as (c & r & -> & Hc).
  cbn [append JsonLib.split_sign].
  now rewrite (proj1 (digit_is_not_sign c Hc)).
Qed.

Lemma loads_int_digits (neg : bool) (d : Decimal.uint) (rest : string) :
  d <> Decimal.Nil ->
  Decimal.unorm d = d ->
  (String.length (NilEmpty.string_of_uint d) <=? Py.int_max_str_digits)%nat = true ->
  Spec.starts_number_tail rest = false ->
  JsonLib.loads_int
    ((if neg then "-" else EmptyString) ++ NilEmpty.string_of_uint d ++ rest)
  = Some (if neg then (- Z.of_uint d)%Z else Z.of_uint d, rest).
Proof.
  intros Hd Hn Hlen Hrest. unfold JsonLib.loads_int.
  rewrite (split_sign_shape neg d rest Hd),
    (span_digits_string_of_uint d rest Hrest),
    (leading_zero_normal d Hn), (starts_fraction_tail rest Hrest), Hlen.
  cbn [orb negb].
  assert (Hparse : NilZero.uint_of_string (NilEmpty.string_of_uint d) = Some d).
  { rewrite <- (NilZero.usu d Hd). unfold NilZero.string_of_uint.
    destruct d; congruence. }
  rewrite Hparse. reflexivity.
Qed.

Lemma dumps_int_shape (n : Z) :
  exists (neg : bool) (d : Decimal.uint),
    JsonLib.int_text n
    = (if neg then "-" else EmptyString) ++ NilEmpty.string_of_uint d
    /\ d <> Decimal.Nil /\ Decimal.unorm d = d
    /\ (if neg then (- Z.of_uint d)%Z else Z.of_uint d) = n.
Proof.
  unfold JsonLib.int_text. destruct n as [| p | p]; cbn [Z.to_int].
  - exists false, (Decimal.D0 Decimal.Nil). repeat split; discriminate.
  - exists false, (Pos.to_uint p).
    destruct (pos_to_uint_normal p) as [Hu _].
    assert (Hnn : Pos.to_uint p <> Decimal.Nil)
      by (rewrite <- Hu; apply DecimalFacts.unorm_nonnil).
    split; [| split; [exact Hnn | split; [exact Hu |]]].
    + unfold NilZero.string_of_int, NilZero.string_of_uint. cbn [append].
      destruct (Pos.to_uint p); [now contradiction Hnn | reflexivity ..].
    + exact (DecimalZ.of_to (Z.pos p)).
  - exists true, (Pos.to_uint p).
    destruct (pos_to_uint_normal p) as [Hu _].
    assert (Hnn : Pos.to_uint p <> Decimal.Nil)
      by (rewrite <- Hu; apply DecimalFacts.unorm_nonnil).
    split; [| split; [exact Hnn | split; [exact Hu |]]].
    + unfold NilZero.string_of_int, NilZero.string_of_uint. cbn [append].
      destruct (Pos.to_uint p); [now contradiction Hnn | reflexivity ..].
    + exact (DecimalZ.of_to (Z.neg p)).
Qed.

Lemma loads_int_dumps_int (n : Z) (rest : string) :
  JsonLib.int_fits n = true ->
  Spec.starts_number_tail rest = false ->
  JsonLib.loads_int (JsonLib.int_text n ++ rest) = Some (n, rest).
Proof.
  intros Hfits Hrest. unfold JsonLib.int_fits, JsonLib.digits_of in Hfits.
  destruct (dumps_int_shape n) as (neg & d & E & Hd & Hn & <-).
  rewrite E in *.
  pose proof (split_sign_shape neg d EmptyString Hd) as Hsign.
  rewrite !append_empty_r in Hsign. rewrite Hsign in Hfits. cbn [snd] in Hfits.
  rewrite append_assoc. now apply loads_int_digits.
Qed.


(** *** Values *)

Lemma json_induction (P : json -> Prop) :
  P JNull ->
  (forall b, P (JBool b)) ->
  (forall n, P (JNum n)) ->
  (forall s, P (JStr s)) ->
  (forall l, Forall P l -> P (JArr l)) ->
  (forall l, Forall (fun kv => P (snd kv)) l -> P (JObj l)) ->
  forall v, P v.
Proof.
  intros Hnull Hbool Hnum Hstr Harr Hobj.
  fix IH 1. intros [| b | n | s | l | l].
  - exact Hnull.
  - apply Hbool.
  - apply Hnum.
  - apply Hstr.
  - apply Harr. induction l as [| x l IHl]; constructor; [apply IH | exact IHl].
  - apply Hobj. induction l as [| [k x] l IHl]; constructor; [apply IH | exact IHl].
Qed.

Lemma next_is_here (x : ascii) (r : string) :
  JsonLib.is_ws x = false -> JsonLib.next_is x (String x r) = Some r.
Proof.
  intros Hx. unfold JsonLib.next_is. cbn [JsonLib.skip_ws].
  now rewrite Hx, Ascii.eqb_refl.
Qed.

Lemma next_is_other (x c : ascii) (r : string) :
  JsonLib.is_ws c = false -> Ascii.eqb c x = false ->
  JsonLib.next_is x (String c r) = None.
Proof.
  intros Hc Hx. unfold JsonLib.next_is. cbn [JsonLib.skip_ws].
  now rewrite Hc, Hx.
Qed.

Lemma loads_value_space (fuel : nat) (s : string) :
  JsonLib.loads_value fuel (String " " s) = JsonLib.loads_value fuel s.
Proof. destruct fuel; reflexivity. Qed.

(** The first character of a printed value: never whitespace, never a
    closing bracket. *)
Lemma dumps_head (v : json) :
  exists c r,
    JsonLib.text v = String c r
    /\ JsonLib.is_ws c = false
    /\ Ascii.eqb c "]" = false.
Proof.
  destruct v as [| [] | n | s | l | l]; cbn [JsonLib.text];
    try (eexists _, _; repeat split; reflexivity).
  destruct (dumps_int_shape n) as ([] & d & -> & Hd & _).
  - eexists _, _; repeat split; reflexivity.
  - destruct (string_of_uint_head d Hd) as (c & r & -> & Hc).
    exists c, r. cbn [append]. split; [reflexivity |].
    destruct (digit_is_not_sign c Hc) as (_ & Hws & _).
    split; [exact Hws |].
    revert Hc. clear. destruct c as [[] [] [] [] [] [] [] []]; cbv; congruence.
Qed.

Lemma loads_items_dumps_items (l : list json) :
  Forall Spec.reads_back l ->
  l <> [] ->
  forall fuel rest,
    (list_sum (map (fun x => S (Spec.json_cost x)) l) <= fuel)%nat ->
    JsonLib.loads_items fuel (JsonLib.items_text JsonLib.text l ++ rest)
    = Some (l, rest).
Proof.
  induction 1 as [| x l Hx Hl IH]; [congruence |]. intros _ fuel rest Hfuel.
  change (list_sum (map (fun x => S (Spec.json_cost x)) (x :: l)))
    with (S (Spec.json_cost x) + list_sum (map (fun x => S (Spec.json_cost x)) l))%nat in Hfuel.
  destruct fuel as [| fuel]; [lia |].
  cbn [JsonLib.loads_items JsonLib.items_text].
  rewrite append_assoc.
  destruct l as [| y l'].
  - rewrite (Hx fuel) by (first [lia | reflexivity]).
    cbn [append]. rewrite next_is_here by reflexivity. reflexivity.
  - rewrite (Hx fuel) by (first [lia | reflexivity]).
    cbn [append]. rewrite next_is_other by reflexivity.
    rewrite next_is_here by reflexivity.
    assert (Hsp : forall f s, JsonLib.loads_items f (String " " s)
                              = JsonLib.loads_items f s).
    { intros [| f] s; [reflexivity |]. cbn [JsonLib.loads_items].
      now rewrite loads_value_space. }
    rewrite Hsp, IH; [reflexivity | discriminate | lia].
Qed.

Lemma loads_fields_dumps_fields (l : list (string * json)) :
  Forall (fun kv => Spec.reads_back (snd kv)) l ->
  l <> [] ->
  forall fuel rest,
    (list_sum (map (fun kv => S (Spec.json_cost (snd kv))) l) <= fuel)%nat ->
    JsonLib.loads_fields fuel (JsonLib.fields_text JsonLib.text l ++ rest)
    = Some (l, rest).
Proof.
  induction 1 as [| [k x] l Hx Hl IH]; [congruence |]. intros _ fuel rest Hfuel.
  change (list_sum (map (fun kv => S (Spec.json_cost (snd kv))) ((k, x) :: l)))
    with (S (Spec.json_cost x) + list_sum (map (fun kv => S (Spec.json_cost (snd kv))) l))%nat
    in Hfuel.
  cbn [snd] in Hx.
  destruct fuel as [| fuel]; [lia |].
  cbn [JsonLib.loads_fields JsonLib.fields_text].
  rewrite !append_assoc.
  destruct (loads_chars_dumps_str k
              (": " ++ JsonLib.text x
               ++ match l with
                  | [] => "}"
                  | _ :: _ => ", " ++ JsonLib.fields_text JsonLib.text l
                  end ++ rest)) as (body & Hbody & Hchars).
  rewrite Hbody, next_is_here by reflexivity. rewrite Hchars.
  cbn [append]. rewrite next_is_here by reflexivity.
  rewrite loads_value_space.
  destruct l as [| y l'].
  - rewrite (Hx fuel) by (first [lia | reflexivity]).
    cbn [append]. rewrite next_is_here by reflexivity. reflexivity.
  - rewrite (Hx fuel) by (first [lia | reflexivity]).
    cbn [append]. rewrite next_is_other by reflexivity.
    rewrite next_is_here by reflexivity.
    assert (Hsp : forall f s, JsonLib.loads_fields f (String " " s)
                              = JsonLib.loads_fields f s).
    { intros [| f] s; reflexivity. }
    rewrite Hsp, IH; [reflexivity | discriminate | lia].
Qed.

Lemma dumps_int_head (n : Z) :
  exists c r,
    JsonLib.int_text n = String c r
    /\ (c = "-"%char \/ Py.is_digit c = true).
Proof.
  destruct (dumps_int_shape n) as ([] & d & -> & Hd & _).
  - eexists _, _. split; [reflexivity | now left].
  - destruct (string_of_uint_head d Hd) as (c & r & -> & Hc).
    exists c, r. split; [reflexivity | now right].
Qed.

Lemma Forall_reads_back (l : list json)
    (P : json -> Prop) :
  Forall (fun v => JsonLib.encodable v = true -> PyJson.is_value v = true -> P v) l ->
  (forall v, In v l -> JsonLib.encodable v = true) ->
  (forall v, In v l -> PyJson.is_value v = true) ->
  Forall P l.
Proof.
  intros IH Henc Hval. apply Forall_forall. intros v Hin.
  apply (proj1 (Forall_forall _ _) IH v Hin); auto.
Qed.

Lemma dict_set_fresh (k : string) (v : json) (d : list (string * json)) :
  existsb (String.eqb k) (map fst d) = false ->
  PyJson.dict_set k v d = (d ++ [(k, v)])%list.
Proof.
  induction d as [| [k' v'] d IH]; [reflexivity |]. cbn.
  intros H. apply orb_false_iff in H as [Hk Hd].
  now rewrite Hk, (IH Hd).
Qed.

Lemma existsb_eqb_app (k : string) (l1 l2 : list string) :
  existsb (String.eqb k) (l1 ++ l2)%list
  = existsb (String.eqb k) l1 || existsb (String.eqb k) l2.
Proof. apply existsb_app. Qed.

(** Pairs with distinct keys make the dict that lists them. *)
Lemma dict_of_pairs_distinct (l : list (string * json)) :
  PyJson.distinct (map fst l) = true -> PyJson.dict_of_pairs l = l.
Proof.
  unfold PyJson.dict_of_pairs.
  assert (H : forall acc,
             PyJson.distinct (map fst (acc ++ l)%list) = true ->
             fold_left (fun d kv => PyJson.dict_set (fst kv) (snd kv) d) l acc
             = (acc ++ l)%list).
  { induction l as [| [k v] l IH]; intros acc Hd; cbn [fold_left].
    - now rewrite app_nil_r.
    - cbn [fst snd]. rewrite dict_set_fresh.
      + rewrite IH; rewrite <- app_assoc; [reflexivity | exact Hd].
      + clear IH. induction acc as [| [k0 v0] acc IHacc]; [reflexivity |].
        cbn [app map fst PyJson.distinct existsb] in *.
        apply andb_true_iff in Hd as [Hk0 Hd]. apply negb_true_iff in Hk0.
        rewrite map_app, existsb_eqb_app in Hk0.
        apply orb_false_iff in Hk0 as [_ Hk0]. cbn in Hk0.
        apply orb_false_iff in Hk0 as [Hk0 _].
        rewrite String.eqb_sym, Hk0. cbn [orb]. apply IHacc. exact Hd. }
  intros Hd. exact (H [] Hd).
Qed.

(** Every value is read back from its text, whatever follows it, as long
    as what follows cannot continue a number. *)
Lemma loads_value_dumps (v : json) :
  JsonLib.encodable v = true -> PyJson.is_value v = true -> Spec.reads_back v.
Proof.
  induction v as [| b | n | s | l IH | l IH] using json_induction;
    intros Henc Hval fuel rest Hfuel Hrest;
    (destruct fuel as [| fuel]; [cbn in Hfuel; lia |]).
  - reflexivity.
  - destruct b; reflexivity.
  - cbn [JsonLib.text].
    pose proof (loads_int_dumps_int n rest Henc Hrest) as Hint.
    destruct (dumps_int_head n) as (c & r & E & Hc).
    rewrite E in *. cbn [append] in *. cbn [JsonLib.loads_value].
    destruct Hc as [-> | Hc].
    + cbn [JsonLib.skip_ws]. change (JsonLib.is_ws "-") with false. cbv iota.
      change (Ascii.eqb "-" "n") with false.
      change (Ascii.eqb "-" "t") with false.
      change (Ascii.eqb "-" "f") with false.
      change (Ascii.eqb "-" JsonLib.quote) with false.
      change (Ascii.eqb "-" "[") with false.
      change (Ascii.eqb "-" "{") with false. cbv iota.
      now rewrite Hint.
    + destruct (digit_is_not_sign c Hc) as (_ & Hws & H1 & H2 & H3 & H4 & H5 & H6).
      cbn [JsonLib.skip_ws]. rewrite Hws, H1, H2, H3, H4, H5, H6.
      now rewrite Hint.
  - cbn [JsonLib.text].
    destruct (loads_chars_dumps_str s rest) as (body & -> & Hchars).
    cbn [JsonLib.loads_value JsonLib.skip_ws].
    change (JsonLib.is_ws JsonLib.quote) with false. cbv iota.
    change (Ascii.eqb JsonLib.quote "n") with false.
    change (Ascii.eqb JsonLib.quote "t") with false.
    change (Ascii.eqb JsonLib.quote "f") with false.
    rewrite Ascii.eqb_refl, Hchars. reflexivity.
  - cbn [JsonLib.text append JsonLib.loads_value JsonLib.skip_ws].
    change (JsonLib.is_ws "[") with false. cbv iota.
    change (Ascii.eqb "[" "n") with false.
    change (Ascii.eqb "[" "t") with false.
    change (Ascii.eqb "[" "f") with false.
    change (Ascii.eqb "[" JsonLib.quote) with false.
    rewrite Ascii.eqb_refl.
    destruct l as [| x l'].
    + cbn [JsonLib.items_text append].
      rewrite next_is_here by reflexivity. reflexivity.
    + assert (Hnone : JsonLib.next_is "]"
                        (JsonLib.items_text JsonLib.text (x :: l') ++ rest)
                      = None).
      { cbn [JsonLib.items_text].
        destruct (dumps_head x) as (c & r & -> & Hws & Hc).
        cbn [append]. now apply next_is_other. }
      rewrite Hnone, loads_items_dumps_items;
        [reflexivity | | discriminate |].
      * cbn [JsonLib.encodable PyJson.is_value] in Henc, Hval.
        exact (Forall_reads_back _ _ IH
                 (proj1 (forallb_forall _ _) Henc)
                 (proj1 (forallb_forall _ _) Hval)).
      * cbn [Spec.json_cost] in Hfuel. lia.
  - cbn [JsonLib.text append JsonLib.loads_value JsonLib.skip_ws].
    change (JsonLib.is_ws "{") with false. cbv iota.
    change (Ascii.eqb "{" "n") with false.
    change (Ascii.eqb "{" "t") with false.
    change (Ascii.eqb "{" "f") with false.
    change (Ascii.eqb "{" JsonLib.quote) with false.
    change (Ascii.eqb "{" "[") with false.
    rewrite Ascii.eqb_refl.
    destruct l as [| [k x] l'].
    + cbn [JsonLib.fields_text append].
      rewrite next_is_here by reflexivity. reflexivity.
    + assert (Hnone : JsonLib.next_is "}"
                        (JsonLib.fields_text JsonLib.text ((k, x) :: l') ++ rest)
                      = None).
      { cbn [JsonLib.fields_text]. unfold JsonLib.str_text.
        cbn [append]. now apply next_is_other. }
      cbn [JsonLib.encodable PyJson.is_value] in Henc, Hval.
      apply andb_true_iff in Hval as [Hkeys Hval].
      rewrite Hnone, loads_fields_dumps_fields;
        [now rewrite (dict_of_pairs_distinct _ Hkeys) | | discriminate |].
      * apply Forall_forall. intros kv Hin.
        apply (proj1 (Forall_forall _ _) IH kv Hin).
        -- exact (proj1 (forallb_forall _ _) Henc kv Hin).
        -- exact (proj1 (forallb_forall _ _) Hval kv Hin).
      * cbn [Spec.json_cost] in Hfuel. lia.
Qed.

(** The fuel [loads] starts with is enough for the text of any value. *)
Lemma cost_le_length (v : json) : (Spec.json_cost v <= String.length (JsonLib.text v))%nat.
Proof.
  induction v as [| b | n | s | l IH | l IH] using json_induction.
  - cbn. lia.
  - destruct b; cbn; lia.
  - cbn [JsonLib.text Spec.json_cost].
    destruct (dumps_int_head n) as (c & r & -> & _). cbn. lia.
  - cbn. lia.
  - cbn [JsonLib.text Spec.json_cost String.length]. apply le_n_S.
    induction IH as [| x l Hx Hl IHl]; [cbn; lia |].
    change (list_sum (map (fun x => S (Spec.json_cost x)) (x :: l)))
      with (S (Spec.json_cost x) + list_sum (map (fun x => S (Spec.json_cost x)) l))%nat.
    cbn [JsonLib.items_text]. rewrite length_append.
    destruct l as [| y l']; [cbn; lia |].
    rewrite length_append. cbn [String.length]. lia.
  - cbn [JsonLib.text Spec.json_cost String.length]. apply le_n_S.
    induction IH as [| [k x] l Hx Hl IHl]; [cbn; lia |].
    change (list_sum (map (fun kv => S (Spec.json_cost (snd kv))) ((k, x) :: l)))
      with (S (Spec.json_cost x) + list_sum (map (fun kv => S (Spec.json_cost (snd kv))) l))%nat.
    cbn [snd] in Hx.
    cbn [JsonLib.fields_text]. rewrite !length_append.
    destruct l as [| y l']; [cbn; lia |].
    rewrite length_append. cbn [String.length]. lia.
Qed.

(** [json.loads(json.dumps(v)) == v] for every value that [json.dumps]
    accepts. *)
Lemma loads_dumps (v : json) (t : string) :
  JsonLib.dumps v = Some t ->
  PyJson.is_value v = true ->
  JsonLib.loads t = Some v.
Proof.
  unfold JsonLib.dumps. destruct (JsonLib.encodable v) eqn:Henc; [| discriminate].
  intros [= <-] Hval. unfold JsonLib.loads.
  pose proof (loads_value_dumps v Henc Hval (S (String.length (JsonLib.text v)))
                EmptyString) as H.
  rewrite append_empty_r in H. rewrite H; [reflexivity | | reflexivity].
  pose proof (cost_le_length v). lia.
Qed.

End JsonFacts.

Section StateTokenFacts.
Local Open Scope string_scope.

Lemma rstrip_char_pads (x : ascii) (k : nat) :
  Py.rstrip_char x (Py.repeat_char x k) = EmptyString.
Proof.
  induction k as [| k IH]; cbn; [reflexivity |].
  rewrite IH, Ascii.eqb_refl. reflexivity.
Qed.

Lemma rstrip_char_free (x : ascii) (body : string) (k : nat) :
  Spec.free_of x body = true ->
  Py.rstrip_char x (body ++ Py.repeat_char x k) = body.
Proof.
  induction body as [| c r IH]; cbn [Spec.free_of append].
  - intros _. apply rstrip_char_pads.
  - intros H. apply andb_true_iff in H as [Hc Hr]. apply negb_true_iff in Hc.
    cbn [Py.rstrip_char]. rewrite (IH Hr), Hc. now destruct r.
Qed.

(** The encoder's output is 4-character groups of the alphabet, then one
    of: nothing, a 3-character group and one pad, a 2-character group
    and two pads. *)
Lemma urlsafe_b64encode_shape (bs : string) :
  exists (body : string) (k : nat),
    Base64.urlsafe_b64encode bs = body ++ Py.repeat_char Base64.pad k
    /\ Spec.free_of Base64.pad body = true
    /\ ((k = 0%nat /\ Z.of_nat (String.length body) mod 4 = 0)
        \/ (k = 1%nat /\ Z.of_nat (String.length body) mod 4 = 3)
        \/ (k = 2%nat /\ Z.of_nat (String.length body) mod 4 = 2)).
Proof.
  induction bs as [| a | a b | a b c r IH] using string_by_triples.
  - exists EmptyString, 0%nat. cbn. auto.
  - destruct (group1 _ (byte_val_bounds a)) as (R1 & R2 & _).
    eexists (String _ (String _ EmptyString)), 2%nat.
    cbn [Base64.urlsafe_b64encode append Py.repeat_char Spec.free_of String.length].
    destruct (sextet_char_inv _ R1) as [_ ->].
    destruct (sextet_char_inv _ R2) as [_ ->].
    split; [reflexivity |]. split; [reflexivity |]. right. right. auto.
  - destruct (group2 _ _ (byte_val_bounds a) (byte_val_bounds b))
      as (R1 & R2 & R3 & _).
    eexists (String _ (String _ (String _ EmptyString))), 1%nat.
    cbn [Base64.urlsafe_b64encode append Py.repeat_char Spec.free_of String.length].
    destruct (sextet_char_inv _ R1) as [_ ->].
    destruct (sextet_char_inv _ R2) as [_ ->].
    destruct (sextet_char_inv _ R3) as [_ ->].
    split; [reflexivity |]. split; [reflexivity |]. right. left. auto.
  - destruct IH as (body & k & Henc & Hfree & Hk).
    destruct (group3 _ _ _ (byte_val_bounds a) (byte_val_bounds b)
                (byte_val_bounds c)) as (R1 & R2 & R3 & R4 & _).
    eexists (String _ (String _ (String _ (String _ body)))), k.
    cbn [Base64.urlsafe_b64encode append Spec.free_of String.length].
    destruct (sextet_char_inv _ R1) as [_ ->].
    destruct (sextet_char_inv _ R2) as [_ ->].
    destruct (sextet_char_inv _ R3) as [_ ->].
    destruct (sextet_char_inv _ R4) as [_ ->].
    rewrite Henc, Hfree. split; [reflexivity |]. split; [reflexivity |].
    replace (Z.of_nat (S (S (S (S (String.length body))))))
      with (Z.of_nat (String.length body) + 1 * 4) by lia.
    rewrite Z.mod_add by lia. exact Hk.
Qed.

(** Stripping the padding and putting it back gives the encoder's
    output again. *)
Lemma repad_stripped (bytes : string) :
  StateToken.repad (Py.rstrip_char "=" (Base64.urlsafe_b64encode bytes))
  = Base64.urlsafe_b64encode bytes.
Proof.
  unfold StateToken.repad.
  destruct (urlsafe_b64encode_shape bytes) as (body & k & Henc & Hfree & Hk).
  rewrite Henc. change "="%char with Base64.pad.
  rewrite (rstrip_char_free _ _ _ Hfree). cbv zeta.
  destruct Hk as [[-> Hm] | [[-> Hm] | [-> Hm]]]; rewrite Hm; cbn.
  - symmetry. apply append_empty_r.
  - reflexivity.
  - reflexivity.
Qed.


Variable json_dumps : json -> option string.
Variable json_loads : string -> option json.

(** Whatever the JSON codec is: a payload it writes and reads back from
    what it wrote goes through the state token unchanged. *)
Lemma decode_state_encode_state_for_codec (payload : json) (text : string) :
  json_dumps payload = Some text ->
  json_loads text = Some payload ->
  exists token,
    StateToken.encode_state json_dumps payload = Some token
    /\ token = Py.rstrip_char "=" (Base64.urlsafe_b64encode text)
    /\ StateToken.decode_state json_loads token = Some payload.
Proof.
  intros Hdumps Hloads. unfold StateToken.encode_state. rewrite Hdumps.
  eexists. split; [reflexivity |]. split; [reflexivity |].
  unfold StateToken.decode_state.
  rewrite repad_stripped, urlsafe_b64decode_encode. exact Hloads.
Qed.

End StateTokenFacts.





(** The token of the payload [authenticate_account] builds. *)
Example state_token_of_payload :
  StateToken.encode_state JsonLib.dumps Example.state_payload
  = Some "eyJ2ZXJpZmllciI6ICJkQmpmdEplWjRDVlAtbUI5MksyN3VoYlVKVTFwMXJfd1cxZ0ZXRk9FalhrIiwgInByb2plY3RJZCI6ICIifQ"%string.
Proof. vm_compute. reflexivity. Qed.

(** ** The engine on concrete worlds *)
Section Concrete.
Local Open Scope string_scope.

(** Whenever [get_valid_token] answers "unavailable", unpacking the
    answer raises the [TypeError]; the test [if not token] that raises
    "Could not get valid token." is not reached. *)
Lemma attempt_without_token (json_loads : string -> option json) (w : World)
    (remaining attempts : nat) (last_error : option Failure) (s sa sg : State) :
  Client.add_accounts (added_meanwhile w (S attempts)) s = (Ok tt, sa) ->
  Auth.get_valid_token w (log (EvAttempt (S attempts)) sa) = (Ok None, sg) ->
  Client.attempt_loop json_loads w (S remaining) attempts last_error s
  = (Raise TypeError_unpack_None, sg).
Proof.
  intros Hadd Hgvt. cbn [Client.attempt_loop]. unfold bind, emit.
  rewrite Hadd, Hgvt. reflexivity.
Qed.

(** C7 (the code at the failing input). One account whose token has
    expired, the token endpoint refusing the refresh: [get_valid_token]
    answers [None], and the engine stops at once without contacting any
    endpoint; what it raises is the [TypeError] of unpacking [None], not
    the exception "Could not get valid token." that the next line of the
    source is there for. *)
Theorem unavailable_token_raises_TypeError :
  fst (Auth.get_valid_token Example.world_refresh_refused
         (log (EvAttempt 1) Example.only_alice)) = Ok None
  /\ fst (Client.stream_generate_content JsonLib.loads
            Example.world_refresh_refused Example.prompt Example.only_alice)
     = Raise TypeError_unpack_None
  /\ fst (Client.stream_generate_content JsonLib.loads
            Example.world_refresh_refused Example.prompt Example.only_alice)
     <> Raise CouldNotGetValidToken
  /\ trace (snd (Client.stream_generate_content JsonLib.loads
                   Example.world_refresh_refused Example.prompt Example.only_alice))
     = [EvAttempt 1; EvRefresh "refresh-alice"].
Proof.
  repeat split; try reflexivity. vm_compute. discriminate.
Qed.

(** C3 (the code at the failing input). Two accounts; the first endpoint
    answers 429 with [Retry-After] in its HTTP-date form. [int()] raises
    on that value, the handler of the endpoint loop catches the
    [ValueError], and the engine goes on to the next endpoint with the
    same account: the pool is not rotated and nothing is saved. With the
    header absent the same answer rotates the pool and leaves the
    endpoint loop. *)
Theorem rate_limit_with_date_header_is_not_rotated :
  Py.int_of_str Example.http_date = None
  /\ upstream Example.world_rate_limited_until_date 0 Constants.CODE_ASSIST_ENDPOINT_DAILY "token-alice" "project-a"
     = Responded {| status_code := 429;
                    retry_after_header := Some Example.http_date;
                    body_lines := []; body_error := None |}
  /\ Client.try_endpoint JsonLib.loads Example.world_rate_limited_until_date
       "token-alice" "project-a" Constants.CODE_ASSIST_ENDPOINT_DAILY None Example.alice_and_bob
     = (Ok (Client.Continue, Some (Caught (ValueError Example.http_date))),
        request_sent Constants.CODE_ASSIST_ENDPOINT_DAILY "token-alice" "project-a" Example.alice_and_bob)
  /\ fst (Client.stream_generate_content JsonLib.loads
            Example.world_rate_limited_until_date Example.prompt Example.alice_and_bob) = Ok tt
  /\ trace (snd (Client.stream_generate_content JsonLib.loads
                   Example.world_rate_limited_until_date Example.prompt Example.alice_and_bob))
     = [EvAttempt 1;
        EvRequest Constants.CODE_ASSIST_ENDPOINT_DAILY "token-alice" "project-a";
        EvRequest Constants.CODE_ASSIST_ENDPOINT_AUTOPUSH "token-alice" "project-a";
        EvYield (JStr "Hello"); EvYield (JStr ", world")]
  /\ active_index
       (mgr (snd (Client.stream_generate_content JsonLib.loads
                    Example.world_rate_limited_until_date Example.prompt Example.alice_and_bob)))
     = 0%Z
  /\ active_index
       (mgr (snd (Client.try_endpoint JsonLib.loads
                    (Example.world 1000
                       (fun _ =>
                          Responded {| status_code := 429;
                                       retry_after_header := None;
                                       body_lines := []; body_error := None |}))
                    "token-alice" "project-a" Constants.CODE_ASSIST_ENDPOINT_DAILY None Example.alice_and_bob)))
     = 1%Z.
Proof.
  repeat split; vm_compute; reflexivity.
Qed.

(** C1 as stated fails: the first endpoint answers 200, one text is
    yielded, the connection breaks. The engine then contacts the next
    endpoint within the same attempt and yields the text a second
    time. *)
Lemma cut_stream_is_replayed_on_next_endpoint :
  fst (Client.stream_generate_content JsonLib.loads
         Example.world_cut_stream Example.prompt Example.only_alice) = Ok tt
  /\ trace (snd (Client.stream_generate_content JsonLib.loads
                   Example.world_cut_stream Example.prompt Example.only_alice))
     = [EvAttempt 1;
        EvRequest Constants.CODE_ASSIST_ENDPOINT_DAILY "token-alice" "project-a";
        EvYield (JStr "Hello");
        EvRequest Constants.CODE_ASSIST_ENDPOINT_AUTOPUSH "token-alice" "project-a";
        EvYield (JStr "Hello"); EvYield (JStr ", world")]
  /\ ~ Spec.committed_after_first_yield
         (trace (snd (Client.stream_generate_content JsonLib.loads
                        Example.world_cut_stream Example.prompt Example.only_alice))).
Proof.
  split; [reflexivity |]. split; [reflexivity |].
  intros H.
  destruct (H [EvAttempt 1; EvRequest Constants.CODE_ASSIST_ENDPOINT_DAILY "token-alice" "project-a"]
              [EvRequest Constants.CODE_ASSIST_ENDPOINT_AUTOPUSH "token-alice" "project-a";
               EvYield (JStr "Hello"); EvYield (JStr ", world")]
              (JStr "Hello") eq_refl) as [Hc _].
  discriminate Hc.
Qed.

(** C2 as stated fails: the first endpoint answers 400; nothing is
    raised, the engine contacts the next endpoint and returns after
    streaming its answer. *)
Lemma bad_request_is_not_raised :
  upstream Example.world_bad_request 0 Constants.CODE_ASSIST_ENDPOINT_DAILY "token-alice" "project-a"
  = Example.respond 400 []
  /\ fst (Client.stream_generate_content JsonLib.loads
            Example.world_bad_request Example.prompt Example.only_alice) = Ok tt
  /\ trace (snd (Client.stream_generate_content JsonLib.loads
                   Example.world_bad_request Example.prompt Example.only_alice))
     = [EvAttempt 1;
        EvRequest Constants.CODE_ASSIST_ENDPOINT_DAILY "token-alice" "project-a";
        EvRequest Constants.CODE_ASSIST_ENDPOINT_AUTOPUSH "token-alice" "project-a";
        EvYield (JStr "Hello"); EvYield (JStr ", world")].
Proof.
  repeat split; reflexivity.
Qed.

(** C6 as stated fails: a manager loaded from a file whose cursor is past
    the end holds that cursor; a [get_valid_token] whose refresh fails
    answers "unavailable" and leaves the cursor at 0. *)
Lemma refresh_failure_moves_stale_cursor :
  Auth.get_current_account (Example.stale_pool [Example.alice])
  = (Ok (Some (0%nat, Example.alice)),
     set_mgr {| accounts := [Example.alice]; active_index := 0 |}
       (Example.stale_pool [Example.alice]))
  /\ token_endpoint Example.world_refresh_refused 0 "refresh-alice" = None
  /\ fst (Auth.get_valid_token Example.world_refresh_refused
            (Example.stale_pool [Example.alice])) = Ok None
  /\ active_index (mgr (Example.stale_pool [Example.alice])) = 5%Z
  /\ active_index
       (mgr (snd (Auth.get_valid_token Example.world_refresh_refused
                    (Example.stale_pool [Example.alice])))) = 0%Z
  /\ mgr (snd (Auth.get_valid_token Example.world_refresh_refused
                 (Example.stale_pool [Example.alice])))
     <> mgr (Example.stale_pool [Example.alice]).
Proof.
  repeat split; try reflexivity. vm_compute. discriminate.
Qed.

(** C8 as stated fails: after loading a file with two accounts and
    cursor 5 the cursor of the pool is 5, not 0; a rotation issued then
    moves it to 0, where a pool loaded with cursor 0 would move to 1. *)
Lemma load_keeps_stale_cursor :
  disk (Example.before_init (Example.stale_file [Example.alice; Example.bob]))
  = Parsed {| bf_version := Some 3%Z;
              bf_accounts := Some [Example.alice; Example.bob];
              bf_activeIndex := Some 5%Z |}
  /\ active_index (mgr (Example.stale_pool [Example.alice; Example.bob])) = 5%Z
  /\ active_index (mgr (Example.stale_pool [Example.alice; Example.bob])) <> 0%Z
  /\ active_index
       (mgr (snd (Auth.rotate_account
                    (Example.stale_pool [Example.alice; Example.bob])))) = 0%Z
  /\ active_index
       (mgr (snd (Auth.rotate_account Example.alice_and_bob))) = 1%Z.
Proof.
  repeat split; try reflexivity. vm_compute. discriminate.
Qed.

(** *** The theorems above, applied *)

(** C1 at work: the stream of the first endpoint breaks after one text. *)
Lemma mid_stream_error_goes_to_next_endpoint_witness :
  upstream Example.world_cut_stream 0 Constants.CODE_ASSIST_ENDPOINT_DAILY
    "token-alice" "project-a"
  = Responded {| status_code := 200; retry_after_header := None;
                 body_lines := [Example.text_event "Hello"];
                 body_error := Some "connection reset" |}
  /\ Client.is_success 200 = true
  /\ Client.try_endpoints JsonLib.loads Example.world_cut_stream
       "token-alice" "project-a"
       [Constants.CODE_ASSIST_ENDPOINT_DAILY] None Example.only_alice
     = (Ok (false, Some (Caught (TransportError "connection reset"))),
        Spec.extend [EvYield (JStr "Hello")]
          (request_sent Constants.CODE_ASSIST_ENDPOINT_DAILY
             "token-alice" "project-a" Example.only_alice)).
Proof.
  split; [reflexivity |]. split; [reflexivity |].
  destruct (mid_stream_error_goes_to_next_endpoint JsonLib.loads
              Example.world_cut_stream "token-alice" "project-a"
              Constants.CODE_ASSIST_ENDPOINT_DAILY [] None Example.only_alice
              _ "connection reset" eq_refl eq_refl eq_refl) as [H _].
  rewrite H. reflexivity.
Defined.

(** C2 at work: the first endpoint answers 400. *)
Lemma client_error_goes_to_next_endpoint_witness :
  upstream Example.world_bad_request 0 Constants.CODE_ASSIST_ENDPOINT_DAILY
    "token-alice" "project-a" = Example.respond 400 []
  /\ Client.try_endpoints JsonLib.loads Example.world_bad_request
       "token-alice" "project-a"
       [Constants.CODE_ASSIST_ENDPOINT_DAILY] None Example.only_alice
     = (Ok (false, Some (Caught (HTTPStatusError 400))),
        request_sent Constants.CODE_ASSIST_ENDPOINT_DAILY
          "token-alice" "project-a" Example.only_alice).
Proof.
  split; [reflexivity |].
  destruct (client_error_goes_to_next_endpoint JsonLib.loads
              Example.world_bad_request "token-alice" "project-a"
              Constants.CODE_ASSIST_ENDPOINT_DAILY [] None Example.only_alice
              _ eq_refl) as [H _]; [cbn; lia | cbn; lia | cbn; lia |].
  rewrite H. reflexivity.
Defined.

(** C4 at work: one account whose token has expired, a cursor left at
    5 by the file, every endpoint answering 500, and an account added by
    another task before the second attempt. The token is refreshed once
    and the budget stays at three attempts. *)
Lemma retry_budget_is_three_per_account_witness :
  accounts (mgr (Example.stale_pool [Example.alice])) = [Example.alice]
  /\ active_index (mgr (Example.stale_pool [Example.alice])) = 5
  /\ Spec.serviceable Example.world_all_500_expired Example.alice
  /\ fst (Client.stream_generate_content JsonLib.loads
            Example.world_all_500_expired Example.prompt
            (Example.stale_pool [Example.alice]))
     = Raise (AllAccountsFailed
                (Some (ServerError 500 Constants.CODE_ASSIST_ENDPOINT_PROD)))
  /\ Client.attempts_of
       (trace (snd (Client.stream_generate_content JsonLib.loads
                      Example.world_all_500_expired Example.prompt
                      (Example.stale_pool [Example.alice]))))
     = [1; 2; 3]%nat.
Proof.
  assert (Hgrant : forall a, access a <> EmptyString ->
                             Spec.serviceable Example.world_all_500_expired a).
  { intros a Ha. split; [exact Ha |]. right. intros k.
    eexists. split; [reflexivity | discriminate]. }
  split; [reflexivity |]. split; [reflexivity |].
  split; [apply Hgrant; discriminate |].
  destruct (proj2 (retry_budget_is_three_per_account JsonLib.loads)
              Example.world_all_500_expired Example.prompt
              Example.prompt_contents
              (Example.stale_pool [Example.alice]) Example.alice
              eq_refl eq_refl) as (s' & Hrun & Ha & _).
  - change (-1 <= 5). lia.
  - apply Hgrant. discriminate.
  - intros k. cbn.
    destruct (k =? 2)%nat;
      [constructor; [apply Hgrant; discriminate | constructor] | constructor].
  - intros k e t q. eexists. split; reflexivity.
  - rewrite Hrun. cbn [fst snd]. rewrite Ha. split; reflexivity.
Defined.

(** C5 at work: ten seconds before expiry, one refresh call. *)
Lemma get_valid_token_refreshes_iff_near_expiry_witness :
  Auth.get_current_account Example.only_alice
  = (Ok (Some (0%nat, Example.alice)), Example.only_alice)
  /\ (clock Example.world_refresh_granted 0 >= 5000 - 60)%Z
  /\ Client.refreshes_of
       (trace (snd (Auth.get_valid_token Example.world_refresh_granted
                      Example.only_alice)))
     = ["refresh-alice"]
  /\ refresh_calls (snd (Auth.get_valid_token Example.world_refresh_granted
                           Example.only_alice)) = 1%nat.
Proof.
  split; [reflexivity |]. split; [cbn; lia |].
  destruct (get_valid_token_refreshes_iff_near_expiry
              Example.world_refresh_granted Example.only_alice
              Example.only_alice
              (snd (Auth.get_valid_token Example.world_refresh_granted
                      Example.only_alice))
              0%nat Example.alice
              (fst (Auth.get_valid_token Example.world_refresh_granted
                      Example.only_alice))
              eq_refl eq_refl) as [_ H].
  destruct H as (H1 & H2 & _); [cbn; lia |].
  split; [exact H1 | exact H2].
Defined.

(** C6 at work: a refused refresh with the cursor in range. *)
Lemma get_valid_token_refresh_failure_keeps_pool_witness :
  token_endpoint Example.world_refresh_refused 0 "refresh-alice" = None
  /\ fst (Auth.get_valid_token Example.world_refresh_refused Example.only_alice)
     = Ok None
  /\ mgr (snd (Auth.get_valid_token Example.world_refresh_refused
                 Example.only_alice))
     = mgr Example.only_alice.
Proof.
  split; [reflexivity |].
  destruct (get_valid_token_refresh_failure_keeps_pool
              Example.world_refresh_refused Example.only_alice
              Example.only_alice
              (snd (Auth.get_valid_token Example.world_refresh_refused
                      Example.only_alice))
              0%nat Example.alice
              (fst (Auth.get_valid_token Example.world_refresh_refused
                      Example.only_alice))
              eq_refl) as (H1 & _ & _ & _ & _ & H6);
    [cbn; lia | reflexivity | reflexivity |].
  split; [exact H1 | apply H6; cbn; lia].
Defined.

(** C8 at work: two accounts, cursor 5 in the file, three operations. *)
Lemma stale_cursor_is_clamped_on_first_read_witness :
  bf_activeIndex {| bf_version := Some 3%Z;
                    bf_accounts := Some [Example.alice; Example.bob];
                    bf_activeIndex := Some 5%Z |} = Some 5%Z
  /\ active_index (mgr (Example.stale_pool [Example.alice; Example.bob])) = 5%Z
  /\ fst (Spec.run_ops Example.world_refresh_refused
            [Spec.OpRotate; Spec.OpGetValidToken; Spec.OpCurrentAccount]
            (Example.stale_pool [Example.alice; Example.bob]))
     <> Raise IndexError.
Proof.
  split; [reflexivity |].
  destruct (stale_cursor_is_clamped_on_first_read
              Example.world_refresh_refused
              (Example.before_init (Example.stale_file [Example.alice; Example.bob]))
              _ 5%Z
              [Spec.OpRotate; Spec.OpGetValidToken; Spec.OpCurrentAccount]
              eq_refl eq_refl)
    as (_ & H2 & _ & Hrun & _); [cbn; lia |].
  split; [exact H2 | exact Hrun].
Defined.



End Concrete.

(** * Further properties of the pool *)

Lemma mgr_eta (m : AccountManager) :
  {| accounts := accounts m; active_index := active_index m |} = m.
Proof. now destruct m. Qed.

(** What [k] rotations do to a non-empty pool. *)
Lemma rotations_effect (k : nat) :
  forall s : State,
    accounts (mgr s) <> [] ->
    exists s',
      PoolSpec.rotations k s = (Ok tt, s')
      /\ accounts (mgr s') = accounts (mgr s)
      /\ active_index (mgr s')
         = match k with
           | O => active_index (mgr s)
           | S _ => (active_index (mgr s) + Z.of_nat k)
                    mod Z.of_nat (List.length (accounts (mgr s)))
           end.
Proof.
  induction k as [| k IH]; intros s Hne.
  - exists s. repeat split; reflexivity.
  - cbn [PoolSpec.rotations]. unfold bind, Auth.rotate_account.
    destruct (accounts (mgr s)) as [| a l] eqn:Hacc; [congruence |].
    cbn [Auth.save].
    set (s1 := log _ _).
    assert (Ha1 : accounts (mgr s1) = a :: l) by reflexivity.
    assert (Hi1 : active_index (mgr s1)
                  = (active_index (mgr s) + 1) mod Z.of_nat (List.length (a :: l)))
      by reflexivity.
    destruct (IH s1) as (s' & Hrun & Ha & Hi); [rewrite Ha1; discriminate |].
    exists s'. rewrite Hrun, Ha, Ha1. split; [reflexivity |]. split; [reflexivity |].
    rewrite Hi, Ha1, Hi1. destruct k as [| k'].
    + reflexivity.
    + rewrite Zplus_mod_idemp_l. f_equal. lia.
Qed.

(** X1. On a pool of K accounts with the cursor in range, [k] rotations
    put the cursor at [(i + k) mod K]: K rotations bring it back to where
    it was, fewer (and at least one) leave it elsewhere, so the K accounts
    are visited one after the other before any repeats. *)
Theorem rotation_cycles_through_the_pool (s : State) (k : nat) :
  Spec.in_range (mgr s) ->
  exists s',
    PoolSpec.rotations k s = (Ok tt, s')
    /\ accounts (mgr s') = accounts (mgr s)
    /\ active_index (mgr s')
       = (active_index (mgr s) + Z.of_nat k)
         mod Z.of_nat (List.length (accounts (mgr s)))
    /\ (k = List.length (accounts (mgr s)) ->
        active_index (mgr s') = active_index (mgr s))
    /\ ((0 < k < List.length (accounts (mgr s)))%nat ->
        active_index (mgr s') <> active_index (mgr s)).
Proof.
  intros [Hlo Hhi].
  assert (Hne : accounts (mgr s) <> []).
  { intros E. rewrite E in Hhi. cbn in Hhi. lia. }
  destruct (rotations_effect k s Hne) as (s' & Hrun & Ha & Hi).
  set (K := Z.of_nat (List.length (accounts (mgr s)))) in *.
  assert (Hidx : active_index (mgr s') = (active_index (mgr s) + Z.of_nat k) mod K).
  { rewrite Hi. destruct k; [| reflexivity].
    rewrite Z.add_0_r, Z.mod_small; [reflexivity | lia]. }
  exists s'. split; [exact Hrun |]. split; [exact Ha |]. split; [exact Hidx |].
  split.
  - intros ->. rewrite Hidx. fold K.
    rewrite <- (Z.mul_1_l K) at 1. rewrite Z.mod_add by lia.
    apply Z.mod_small. lia.
  - intros Hk Heq. rewrite Hidx in Heq.
    assert (Hk' : 0 < Z.of_nat k < K) by (subst K; lia).
    destruct (Z_lt_ge_dec (active_index (mgr s) + Z.of_nat k) K) as [Hlt | Hge].
    + rewrite Z.mod_small in Heq by lia. lia.
    + replace (active_index (mgr s) + Z.of_nat k)
        with ((active_index (mgr s) + Z.of_nat k - K) + 1 * K) in Heq by lia.
      rewrite Z.mod_add, Z.mod_small in Heq by lia. lia.
Qed.

(** A rotation of an empty pool: nothing changes, nothing is written. *)
Lemma rotate_empty_pool (s : State) :
  accounts (mgr s) = [] -> Auth.rotate_account s = (Ok tt, s).
Proof. intros E. unfold Auth.rotate_account. now rewrite E. Qed.

(** X3. [add_account] on a pool whose cursor is in range appends the
    account and writes the file, and the current account stays the one it
    was; the new account becomes current after as many rotations as there
    were accounts from the cursor to the end of the old list. *)
Theorem add_account_keeps_current (s : State) (pos : nat) (a b : Account) :
  Spec.in_range (mgr s) ->
  Auth.get_current_account s = (Ok (Some (pos, a)), s) ->
  exists s1,
    Auth.add_account b s = (Ok tt, s1)
    /\ accounts (mgr s1) = accounts (mgr s) ++ [b]
    /\ active_index (mgr s1) = active_index (mgr s)
    /\ disk s1 = Parsed (Spec.saved (mgr s1))
    /\ Auth.get_current_account s1 = (Ok (Some (pos, a)), s1)
    /\ exists s2,
         PoolSpec.rotations
           (List.length (accounts (mgr s)) - Z.to_nat (active_index (mgr s))) s1
         = (Ok tt, s2)
         /\ Auth.get_current_account s2
            = (Ok (Some (List.length (accounts (mgr s)), b)), s2).
Proof.
  intros [Hlo Hhi] Hcur.
  destruct (get_current_account_some _ _ _ _ Hcur) as (_ & Hx & Hn).
  eexists. split; [reflexivity |].
  cbn [Auth.save log set_disk set_mgr mgr disk accounts active_index].
  split; [reflexivity |]. split; [reflexivity |]. split; [reflexivity |].
  set (s1 := log _ _).
  assert (Ha1 : accounts (mgr s1) = accounts (mgr s) ++ [b]) by reflexivity.
  assert (Hi1 : active_index (mgr s1) = active_index (mgr s)) by reflexivity.
  assert (Hlen : List.length (accounts (mgr s1))
                 = S (List.length (accounts (mgr s)))).
  { rewrite Ha1, length_app. cbn. lia. }
  split.
  - apply get_current_account_stable.
    + rewrite Hi1, Hlen. lia.
    + rewrite Hi1, Hlen. rewrite norm_index_in_range by lia.
      rewrite norm_index_in_range in Hn by lia. exact Hn.
    + rewrite Ha1. rewrite nth_error_app1; [exact Hx |].
      apply nth_error_Some. congruence.
  - set (K := List.length (accounts (mgr s))) in *.
    set (i := active_index (mgr s)) in *.
    destruct (rotations_effect (K - Z.to_nat i) s1) as (s2 & Hrun & Ha2 & Hi2).
    { rewrite Ha1. now destruct (accounts (mgr s)). }
    exists s2. split; [exact Hrun |].
    assert (Hidx : active_index (mgr s2) = Z.of_nat K).
    { rewrite Hi2, Hi1, Hlen. fold i.
      destruct (K - Z.to_nat i)%nat eqn:E; [lia |].
      rewrite <- E. replace (i + Z.of_nat (K - Z.to_nat i)) with (Z.of_nat K) by lia.
      apply Z.mod_small. lia. }
    apply get_current_account_stable.
    + rewrite Hidx, Ha2, Hlen. lia.
    + rewrite Hidx, Ha2, Hlen, norm_index_in_range by lia.
      now rewrite Nat2Z.id.
    + rewrite Ha2, Ha1. subst K. rewrite nth_error_app2 by lia.
      now rewrite Nat.sub_diag.
Qed.

(** The accounts after a successful refresh. *)
(** X4. A successful refresh touches the current account and no other:
    every other entry of the pool is as it was, and of the current one
    only the access token and the expiry are replaced (the refresh token,
    the project and the email stay). *)
Theorem refresh_updates_only_current_account
    (w : World) (s s1 : State) (pos : nat) (a : Account) (nt : TokenResponse) :
  Auth.get_current_account s = (Ok (Some (pos, a)), s1) ->
  clock w (clock_reads s) >= Py.get_default (expires a) 0 - 60 ->
  token_endpoint w (refresh_calls s) (refreshToken a) = Some nt ->
  let s' := snd (Auth.get_valid_token w s) in
  List.length (accounts (mgr s')) = List.length (accounts (mgr s))
  /\ (forall p, p <> pos ->
        nth_error (accounts (mgr s')) p = nth_error (accounts (mgr s)) p)
  /\ exists a',
       nth_error (accounts (mgr s')) pos = Some a'
       /\ refreshToken a' = refreshToken a
       /\ projectId a' = projectId a
       /\ email a' = email a
       /\ access a' = access_token nt
       /\ expires a' = Some (clock w (S (clock_reads s)) + expires_in nt).
Proof.
  intros Hcur Hnow Hok s'. subst s'.
  rewrite (get_valid_token_refreshed_accounts w s s1 pos a nt Hcur Hnow Hok).
  destruct (get_current_account_some _ _ _ _ Hcur) as (_ & Hx & _).
  split; [apply length_update_nth |]. split.
  - intros p Hp. now apply nth_error_update_nth_other.
  - rewrite nth_error_update_nth, Hx. cbn [option_map].
    eexists. split; [reflexivity |]. cbn. repeat split; reflexivity.
Qed.

(** * Further properties of the streaming engine *)
Section EngineMore.

Variable json_loads : string -> option json.

Lemma texts_app (l1 l2 : list string) :
  Spec.texts json_loads (l1 ++ l2)
  = Spec.texts json_loads l1 ++ Spec.texts json_loads l2.
Proof.
  induction l1 as [| x l1 IH]; cbn; [reflexivity |].
  destruct (Client.line_text json_loads x); cbn; now rewrite IH.
Qed.

Lemma line_text_ignorable (line : string) :
  EngineSpec.ignorable json_loads line -> Client.line_text json_loads line = None.
Proof.
  unfold Client.line_text. intros Hline.
  destruct (String.eqb line EmptyString) eqn:He; [reflexivity |].
  destruct (Py.startswith "data:" line) eqn:Hp; [| reflexivity].
  cbv zeta.
  destruct Hline as [-> | [H | [H | H]]].
  - discriminate He.
  - congruence.
  - rewrite H. reflexivity.
  - rewrite H. destruct (String.eqb (Py.strip (Py.drop 5 line)) EmptyString);
      reflexivity.
Qed.

(** X5. Keep-alive and malformed lines never abort a stream and never
    change what is yielded: a body with such a line anywhere in it is
    processed exactly like the body without it, and yields the texts of
    the lines before it followed by the texts of the lines after it. *)
Theorem noise_lines_are_skipped
    (before after : list string) (line : string) (s : State) :
  EngineSpec.ignorable json_loads line ->
  Client.stream_lines json_loads (before ++ line :: after) s
  = Client.stream_lines json_loads (before ++ after) s
  /\ Client.stream_lines json_loads (before ++ line :: after) s
     = (Ok tt,
        Spec.extend
          (map EvYield (Spec.texts json_loads before
                        ++ Spec.texts json_loads after)) s).
Proof.
  intros Hline. rewrite !stream_lines_yields, !texts_app.
  cbn [Spec.texts]. rewrite (line_text_ignorable line Hline). auto.
Qed.

Lemma event_text_truthy (data text : json) :
  Client.event_text data = Some text -> PyJson.truthy text = true.
Proof.
  unfold Client.event_text.
  repeat match goal with
         | |- context [match ?x with _ => _ end] => destruct x eqn:?
         end; try discriminate.
  now intros [= <-].
Qed.

Lemma line_text_truthy (line : string) (text : json) :
  Client.line_text json_loads line = Some text -> PyJson.truthy text = true.
Proof.
  unfold Client.line_text.
  destruct (String.eqb line EmptyString); [discriminate |].
  destruct (Py.startswith "data:" line); [| discriminate].
  destruct (String.eqb _ EmptyString); [discriminate |].
  destruct (json_loads _) as [data |]; [| discriminate].
  apply event_text_truthy.
Qed.

(** X6. Whatever the body is, reading it never fails and yields at most
    one chunk per line, and every chunk is a true value in Python's
    sense: an empty text (or [null], [0], [false], an empty list or
    dict) is never yielded. *)
Theorem yielded_chunks_are_never_empty (lines : list string) (s : State) :
  exists chunks,
    Client.stream_lines json_loads lines s
    = (Ok tt, Spec.extend (map EvYield chunks) s)
    /\ Forall (fun c => PyJson.truthy c = true /\ c <> JStr EmptyString) chunks
    /\ (List.length chunks <= List.length lines)%nat.
Proof.
  exists (Spec.texts json_loads lines). split; [apply stream_lines_yields |].
  induction lines as [| line rest [IH1 IH2]]; cbn.
  - split; [constructor | lia].
  - destruct (Client.line_text json_loads line) as [t |] eqn:Ht.
    + split; [| cbn; lia]. constructor; [| exact IH1].
      pose proof (line_text_truthy line t Ht) as Htr.
      split; [exact Htr |]. intros ->. discriminate.
    + split; [exact IH1 | lia].
Qed.

Lemma rotate_account_effect (s : State) :
  accounts (mgr s) <> [] ->
  exists s',
    Auth.rotate_account s = (Ok tt, s')
    /\ accounts (mgr s') = accounts (mgr s)
    /\ active_index (mgr s')
       = (active_index (mgr s) + 1) mod Z.of_nat (List.length (accounts (mgr s)))
    /\ disk s' = Parsed (Spec.saved (mgr s'))
    /\ clock_reads s' = clock_reads s
    /\ refresh_calls s' = refresh_calls s
    /\ requests s' = requests s
    /\ trace s' = trace s ++ [EvSave (Spec.saved (mgr s'))].
Proof.
  intros Hne. unfold Auth.rotate_account.
  destruct (accounts (mgr s)) as [| a l] eqn:Hacc; [congruence |].
  eexists. split; [reflexivity |]. cbn. repeat split; reflexivity.
Qed.

(** The endpoint loop on an answer 429 that is handled as a rate
    limit. *)
Lemma try_endpoints_rate_limited
    (w : World) (token project endpoint : string) (rest : list string)
    (last_error : option Failure) (s : State) (response : Response) :
  accounts (mgr s) <> [] ->
  upstream w (requests s) endpoint token project = Responded response ->
  status_code response = 429 ->
  EngineSpec.retry_after_readable response ->
  exists s',
    Client.try_endpoints json_loads w token project (endpoint :: rest) last_error s
    = (Ok (false, Some (RateLimit endpoint)), s')
    /\ accounts (mgr s') = accounts (mgr s)
    /\ active_index (mgr s')
       = (active_index (mgr s) + 1) mod Z.of_nat (List.length (accounts (mgr s)))
    /\ disk s' = Parsed (Spec.saved (mgr s'))
    /\ Client.contacted (trace s') = Client.contacted (trace s) ++ [endpoint]
    /\ requests s' = S (requests s)
    /\ clock_reads s' = clock_reads s
    /\ Client.yields (trace s') = Client.yields (trace s)
    /\ Client.attempts_of (trace s') = Client.attempts_of (trace s).
Proof.
  intros Hne Hup H429 Hhdr.
  cbn [Client.try_endpoints]. unfold bind.
  rewrite (try_endpoint_rate_limited json_loads w token project endpoint
             last_error s response Hup H429 Hhdr).
  destruct (rotate_account_effect (request_sent endpoint token project s) Hne)
    as (s' & Hrot & Ha & Hi & Hd & Hck & _ & Hrq & Htr).
  rewrite Hrot. cbn [snd]. exists s'. split; [reflexivity |].
  rewrite Ha, Hi, Hd, Hrq, Hck, Htr.
  cbn [request_sent mgr requests trace clock_reads].
  rewrite !contacted_app, !yields_app, !attempts_of_app. cbn.
  rewrite !app_nil_r. repeat split; reflexivity.
Qed.

(** X7. An answer 429 whose [Retry-After] is absent or an integer ends
    the attempt on the spot: the pool is rotated by one and written, the
    endpoints that remain in the list are not contacted, and [last_error]
    names the rate limit and the endpoint. *)
Theorem rate_limit_rotates_and_ends_attempt
    (w : World) (token project endpoint : string) (rest : list string)
    (last_error : option Failure) (s : State) (response : Response) :
  accounts (mgr s) <> [] ->
  upstream w (requests s) endpoint token project = Responded response ->
  status_code response = 429 ->
  EngineSpec.retry_after_readable response ->
  exists s',
    Client.try_endpoints json_loads w token project (endpoint :: rest) last_error s
    = (Ok (false, Some (RateLimit endpoint)), s')
    /\ accounts (mgr s') = accounts (mgr s)
    /\ active_index (mgr s')
       = (active_index (mgr s) + 1) mod Z.of_nat (List.length (accounts (mgr s)))
    /\ disk s' = Parsed (Spec.saved (mgr s'))
    /\ Client.contacted (trace s') = Client.contacted (trace s) ++ [endpoint]
    /\ requests s' = S (requests s).
Proof.
  intros Hne Hup H429 Hhdr.
  destruct (try_endpoints_rate_limited w token project endpoint rest last_error
              s response Hne Hup H429 Hhdr)
    as (s' & H1 & H2 & H3 & H4 & H5 & H6 & _).
  exists s'. auto 10.
Qed.

(** One round of the attempt loop up to the endpoint loop, when the
    current account has a token that can be used. *)
Lemma attempt_with_usable_token (w : World) (n attempts : nat)
    (last_error : option Failure) (s : State) (a : Account) :
  Spec.in_range (mgr s) ->
  nth_error (accounts (mgr s)) (Z.to_nat (active_index (mgr s))) = Some a ->
  access a <> EmptyString ->
  Spec.fresh_at w (clock_reads s) a ->
  exists sb,
    Client.attempt_loop json_loads w (S n) attempts last_error s
    = bind (Client.try_endpoints json_loads w (access a)
              (Py.get_default (projectId a) EmptyString)
              Constants.CODE_ASSIST_ENDPOINT_FALLBACKS last_error)
        (fun r => if fst r then ret tt
                  else Client.attempt_loop json_loads w n (S attempts) (snd r))
        sb
    /\ accounts (mgr sb) = accounts (mgr s) ++ added_meanwhile w (S attempts)
    /\ active_index (mgr sb) = active_index (mgr s)
    /\ requests sb = requests s
    /\ clock_reads sb = S (clock_reads s)
    /\ Client.yields (trace sb) = Client.yields (trace s)
    /\ Client.contacted (trace sb) = Client.contacted (trace s)
    /\ Client.attempts_of (trace sb)
       = Client.attempts_of (trace s) ++ [S attempts].
Proof.
  intros [Hlo Hhi] Hx Htok Hfresh.
  destruct (add_accounts_effect (added_meanwhile w (S attempts)) s)
    as (sa & Hadd & Hacc & Hidx & Hck & _ & Hrq & Hy & Hc & Ha).
  set (sb := log (EvAttempt (S attempts)) sa).
  assert (Hcur : Auth.get_current_account sb
                 = (Ok (Some (Z.to_nat (active_index (mgr s)), a)), sb)).
  { apply get_current_account_stable; subst sb; cbn [log mgr];
      rewrite Hacc, ?Hidx.
    - rewrite length_app. lia.
    - apply norm_index_in_range. rewrite length_app. lia.
    - rewrite nth_error_app1; [exact Hx |]. lia. }
  assert (Hfresh' : Spec.fresh_at w (clock_reads sb) a).
  { unfold Spec.fresh_at in *. subst sb. cbn [log clock_reads]. now rewrite Hck. }
  exists (tick sb). split.
  - cbn [Client.attempt_loop]. unfold bind at 1. rewrite Hadd.
    unfold bind at 1, emit. unfold bind at 1. fold sb.
    rewrite (get_valid_token_fresh w sb sb _ a Hcur Hfresh').
    apply String.eqb_neq in Htok. rewrite Htok. reflexivity.
  - subst sb. cbn [tick log mgr requests clock_reads trace].
    rewrite yields_app, contacted_app, attempts_of_app, Hy, Hc, Ha. cbn.
    rewrite !app_nil_r. auto 10.
Qed.

Lemma try_endpoints_stream_done
    (w : World) (token project endpoint : string) (rest : list string)
    (last_error : option Failure) (s : State) (response : Response) :
  upstream w (requests s) endpoint token project = Responded response ->
  200 <= status_code response <= 299 ->
  body_error response = None ->
  Client.try_endpoints json_loads w token project (endpoint :: rest) last_error s
  = (Ok (true, last_error),
     Spec.extend (map EvYield (Spec.texts json_loads (body_lines response)))
       (request_sent endpoint token project s)).
Proof.
  intros Hup Hst Hend. cbn [Client.try_endpoints]. unfold bind.
  rewrite (try_endpoint_stream_done json_loads w token project endpoint
             last_error s response Hup); [reflexivity | | exact Hend].
  unfold Client.is_success. apply andb_true_iff. split; apply Z.leb_le; lia.
Qed.

(** X8. Two accounts or more, the cursor on the first. If the first
    endpoint answers the first account with a 429 (with a [Retry-After]
    that is absent or an integer) and answers the second account with a
    complete 2xx stream, the engine makes two attempts with one request
    each, both to the first endpoint of the list, yields the texts of that
    stream and returns with the cursor on the second account. *)
Theorem rate_limited_account_is_rotated_away
    (w : World) (messages : list json) (contents : list Gemini.Content)
    (s : State) (a1 a2 : Account) (l : list Account) (r1 r2 : Response) :
  Gemini._convert_messages_to_gemini messages = Some contents ->
  accounts (mgr s) = a1 :: a2 :: l ->
  active_index (mgr s) = 0 ->
  access a1 <> EmptyString ->
  access a2 <> EmptyString ->
  (forall k, clock w k < Py.get_default (expires a1) 0 - 60) ->
  (forall k, clock w k < Py.get_default (expires a2) 0 - 60) ->
  upstream w (requests s) Constants.CODE_ASSIST_ENDPOINT_DAILY
    (access a1) (Py.get_default (projectId a1) EmptyString) = Responded r1 ->
  status_code r1 = 429 ->
  EngineSpec.retry_after_readable r1 ->
  upstream w (S (requests s)) Constants.CODE_ASSIST_ENDPOINT_DAILY
    (access a2) (Py.get_default (projectId a2) EmptyString) = Responded r2 ->
  200 <= status_code r2 <= 299 ->
  body_error r2 = None ->
  exists s',
    Client.stream_generate_content json_loads w messages s = (Ok tt, s')
    /\ Client.attempts_of (trace s')
       = Client.attempts_of (trace s) ++ [1; 2]%nat
    /\ Client.contacted (trace s')
       = Client.contacted (trace s)
         ++ [Constants.CODE_ASSIST_ENDPOINT_DAILY;
             Constants.CODE_ASSIST_ENDPOINT_DAILY]
    /\ Client.yields (trace s')
       = Client.yields (trace s) ++ Spec.texts json_loads (body_lines r2)
    /\ active_index (mgr s') = 1.
Proof.
  intros Hconv Hacc Hidx Htok1 Htok2 Hfresh1 Hfresh2 Hup1 H429 Hhdr Hup2 Hst2 Hend2.
  unfold Client.stream_generate_content, bind, Client.ensure_auth,
    Client.convert_messages, Client.pool_size.
  rewrite Hacc, Hconv. unfold ret at 1. cbv beta iota. rewrite Hacc.
  assert (Hbudget : exists n, (3 * List.length (a1 :: a2 :: l))%nat = S (S n))
    by (exists (3 * List.length l + 4)%nat; cbn [List.length]; lia).
  destruct Hbudget as (n & ->).
  (* first attempt *)
  destruct (attempt_with_usable_token w (S n) 0 None s a1)
    as (sb & Hloop & Hacc_b & Hidx_b & Hrq_b & Hck_b & Hy_b & Hc_b & Ha_b).
  { unfold Spec.in_range. rewrite Hacc, Hidx. cbn. lia. }
  { now rewrite Hacc, Hidx. }
  { exact Htok1. }
  { apply Hfresh1. }
  rewrite Hloop. unfold bind at 1.
  unfold Constants.CODE_ASSIST_ENDPOINT_FALLBACKS.
  destruct (try_endpoints_rate_limited w (access a1)
              (Py.get_default (projectId a1) EmptyString)
              Constants.CODE_ASSIST_ENDPOINT_DAILY
              [Constants.CODE_ASSIST_ENDPOINT_AUTOPUSH;
               Constants.CODE_ASSIST_ENDPOINT_PROD] None sb r1)
    as (s1 & Hte & Hacc1 & Hidx1 & _ & Hc1 & Hrq1 & Hck1 & Hy1 & Ha1);
    [rewrite Hacc_b, Hacc; discriminate | now rewrite Hrq_b | exact H429
     | exact Hhdr |].
  rewrite Hte. cbn [fst snd].
  assert (Hlen1 : (2 <= List.length (accounts (mgr s1)))%nat).
  { rewrite Hacc1, Hacc_b, Hacc, length_app. cbn. lia. }
  assert (Hcur1 : active_index (mgr s1) = 1).
  { rewrite Hidx1, Hidx_b, Hidx. rewrite <- Hacc1. apply Z.mod_small. lia. }
  (* second attempt *)
  destruct (attempt_with_usable_token w n 1
              (Some (RateLimit Constants.CODE_ASSIST_ENDPOINT_DAILY)) s1 a2)
    as (sc & Hloop2 & Hacc_c & Hidx_c & Hrq_c & Hck_c & Hy_c & Hc_c & Ha_c).
  { unfold Spec.in_range. rewrite Hcur1. lia. }
  { rewrite Hcur1, Hacc1, Hacc_b, Hacc. reflexivity. }
  { exact Htok2. }
  { apply Hfresh2. }
  rewrite Hloop2. unfold bind at 1.
  unfold Constants.CODE_ASSIST_ENDPOINT_FALLBACKS.
  rewrite (try_endpoints_stream_done w _ _ _ _ _ sc r2);
    [| rewrite Hrq_c, Hrq1, Hrq_b; exact Hup2 | exact Hst2 | exact Hend2].
  cbn [fst]. eexists. split; [reflexivity |].
  cbn [Spec.extend request_sent mgr trace].
  rewrite !attempts_of_app, !contacted_app, !yields_app.
  rewrite attempts_of_map_EvYield, contacted_map_EvYield, yields_map_EvYield.
  rewrite Ha_c, Ha1, Ha_b, Hc_c, Hc1, Hc_b, Hy_c, Hy1, Hy_b, Hidx_c, Hcur1.
  cbn. rewrite !app_nil_r, <- !app_assoc. repeat split; reflexivity.
Qed.

(** The attempt loop when every answer is a rate limit. *)
Lemma attempt_loop_all_rate_limited (w : World) :
  (forall k, added_meanwhile w k = []) ->
  (forall k e t q, exists r,
      upstream w k e t q = Responded r /\ status_code r = 429
      /\ EngineSpec.retry_after_readable r) ->
  forall (remaining attempts : nat) (last_error : option Failure) (s : State),
    Spec.in_range (mgr s) ->
    Forall (fun a => access a <> EmptyString
                     /\ forall k, clock w k < Py.get_default (expires a) 0 - 60)
      (accounts (mgr s)) ->
    exists s',
      Client.attempt_loop json_loads w remaining attempts last_error s
      = (Raise (AllAccountsFailed
                  match remaining with
                  | O => last_error
                  | S _ => Some (RateLimit Constants.CODE_ASSIST_ENDPOINT_DAILY)
                  end), s')
      /\ accounts (mgr s') = accounts (mgr s)
      /\ active_index (mgr s')
         = (active_index (mgr s) + Z.of_nat remaining)
           mod Z.of_nat (List.length (accounts (mgr s)))
      /\ Client.attempts_of (trace s')
         = Client.attempts_of (trace s) ++ seq (S attempts) remaining
      /\ Client.contacted (trace s')
         = Client.contacted (trace s)
           ++ repeat Constants.CODE_ASSIST_ENDPOINT_DAILY remaining
      /\ Client.yields (trace s') = Client.yields (trace s).
Proof.
  intros Hquiet H429.
  induction remaining as [| n IH]; intros attempts le s Hrange Hall.
  - exists s. cbn. rewrite !app_nil_r, Z.add_0_r.
    destruct Hrange. rewrite Z.mod_small by lia. repeat split; reflexivity.
  - pose proof Hrange as [Hlo Hhi].
    destruct (nth_error (accounts (mgr s)) (Z.to_nat (active_index (mgr s))))
      as [a |] eqn:Hx.
    2:{ apply nth_error_None in Hx. lia. }
    pose proof (proj1 (Forall_forall _ _) Hall a (nth_error_In _ _ Hx))
      as [Htok Hfresh].
    destruct (attempt_with_usable_token w n attempts le s a Hrange Hx Htok
                (Hfresh _))
      as (sb & Hloop & Hacc_b & Hidx_b & Hrq_b & Hck_b & Hy_b & Hc_b & Ha_b).
    rewrite Hquiet, app_nil_r in Hacc_b.
    rewrite Hloop. unfold bind at 1.
    unfold Constants.CODE_ASSIST_ENDPOINT_FALLBACKS.
    destruct (H429 (requests sb) Constants.CODE_ASSIST_ENDPOINT_DAILY (access a)
                (Py.get_default (projectId a) EmptyString))
      as (r & Hup & Hst & Hhdr).
    assert (Hne : accounts (mgr sb) <> []).
    { rewrite Hacc_b. intros E. rewrite E in Hhi. cbn in Hhi. lia. }
    destruct (try_endpoints_rate_limited w _ _ _
                [Constants.CODE_ASSIST_ENDPOINT_AUTOPUSH;
                 Constants.CODE_ASSIST_ENDPOINT_PROD] le sb r Hne Hup Hst Hhdr)
      as (s1 & Hte & Hacc1 & Hidx1 & _ & Hc1 & Hrq1 & Hck1 & Hy1 & Ha1).
    rewrite Hte. cbn [fst snd].
    set (K := Z.of_nat (List.length (accounts (mgr s)))) in *.
    assert (HK : 0 < K) by lia.
    destruct (IH (S attempts)
                (Some (RateLimit Constants.CODE_ASSIST_ENDPOINT_DAILY)) s1)
      as (s' & Hrun & Hacc' & Hidx' & Ha' & Hc' & Hy').
    { unfold Spec.in_range. rewrite Hidx1, Hacc1, Hacc_b. fold K.
      apply Z.mod_pos_bound. exact HK. }
    { now rewrite Hacc1, Hacc_b. }
    exists s'. rewrite Hrun, Hacc', Hidx', Ha', Hc', Hy'.
    rewrite Hacc1, Hacc_b, Hidx1, Hidx_b, Hacc_b, Ha1, Ha_b, Hc1, Hc_b, Hy1, Hy_b.
    fold K. cbn [repeat seq]. rewrite <- !app_assoc. cbn [app].
    split; [now destruct n |]. split; [reflexivity |]. split.
    + rewrite Zplus_mod_idemp_l. f_equal. lia.
    + repeat split; reflexivity.
Qed.

(** X9. N accounts with usable tokens, nobody adding accounts, and every
    answer a 429 (with a [Retry-After] that is absent or an integer): the
    engine makes exactly 3 N attempts, one request each, every one of
    them to the first endpoint of the list (the fallbacks are never
    tried); it yields nothing, ends with the exhaustion error naming the
    rate limit, and the 3 N rotations leave the cursor where it was. *)
Theorem persistent_rate_limit_uses_whole_budget
    (w : World) (messages : list json) (contents : list Gemini.Content)
    (s : State) :
  Gemini._convert_messages_to_gemini messages = Some contents ->
  Spec.in_range (mgr s) ->
  Forall (fun a => access a <> EmptyString
                   /\ forall k, clock w k < Py.get_default (expires a) 0 - 60)
    (accounts (mgr s)) ->
  (forall k, added_meanwhile w k = []) ->
  (forall k e t q, exists r,
      upstream w k e t q = Responded r /\ status_code r = 429
      /\ EngineSpec.retry_after_readable r) ->
  let N := List.length (accounts (mgr s)) in
  exists s',
    Client.stream_generate_content json_loads w messages s
    = (Raise (AllAccountsFailed
                (Some (RateLimit Constants.CODE_ASSIST_ENDPOINT_DAILY))), s')
    /\ Client.attempts_of (trace s')
       = Client.attempts_of (trace s) ++ seq 1 (3 * N)
    /\ Client.contacted (trace s')
       = Client.contacted (trace s)
         ++ repeat Constants.CODE_ASSIST_ENDPOINT_DAILY (3 * N)
    /\ Client.yields (trace s') = Client.yields (trace s)
    /\ accounts (mgr s') = accounts (mgr s)
    /\ active_index (mgr s') = active_index (mgr s).
Proof.
  intros Hconv Hrange Hall Hquiet H429 N.
  pose proof Hrange as [Hlo Hhi].
  unfold Client.stream_generate_content, bind, Client.ensure_auth,
    Client.convert_messages, Client.pool_size.
  destruct (accounts (mgr s)) as [| a0 l0] eqn:Hacc; [cbn in Hhi; lia |].
  rewrite Hconv. unfold ret at 1. cbv beta iota. rewrite Hacc. fold N.
  destruct (attempt_loop_all_rate_limited w Hquiet H429 (3 * N) 0 None s Hrange)
    as (s' & Hrun & Hacc' & Hidx' & Ha' & Hc' & Hy').
  { now rewrite Hacc. }
  exists s'. rewrite Hrun, Ha', Hc', Hy', Hacc', Hidx'.
  assert (HN : (3 * N)%nat = S (3 * N - 1)) by (subst N; cbn [List.length]; lia).
  split; [rewrite HN at 1; reflexivity |].
  split; [reflexivity |]. split; [reflexivity |]. split; [reflexivity |].
  split; [now rewrite Hacc |].
  rewrite Hacc. fold N.
  replace (Z.of_nat (3 * N)) with (3 * Z.of_nat N) by lia.
  rewrite Z.mod_add by (subst N; cbn [List.length]; lia).
  apply Z.mod_small. subst N. lia.
Qed.

End EngineMore.

(** * Further properties of the tokens *)
Section TokenFacts.
Local Open Scope string_scope.

(** The encoder's output without its padding: only characters of the
    alphabet, and four of them for every three bytes, rounded up. *)
Lemma unpadded_shape (bs : string) :
  Pkce.url_safe (Py.rstrip_char "=" (Base64.urlsafe_b64encode bs)) = true
  /\ Spec.free_of "=" (Py.rstrip_char "=" (Base64.urlsafe_b64encode bs)) = true
  /\ String.length (Py.rstrip_char "=" (Base64.urlsafe_b64encode bs))
     = ((4 * String.length bs + 2) / 3)%nat.
Proof.
  assert (H : exists (body : string) (k : nat),
             Base64.urlsafe_b64encode bs = body ++ Py.repeat_char Base64.pad k
             /\ Spec.free_of Base64.pad body = true
             /\ Pkce.url_safe body = true
             /\ String.length body = ((4 * String.length bs + 2) / 3)%nat).
  { induction bs as [| a | a b | a b c r IH] using string_by_triples.
    - exists EmptyString, 0%nat. cbn. auto.
    - destruct (group1 _ (byte_val_bounds a)) as (R1 & R2 & _).
      eexists (String _ (String _ EmptyString)), 2%nat.
      cbn [Base64.urlsafe_b64encode append Py.repeat_char Spec.free_of
           Pkce.url_safe String.length].
      destruct (sextet_char_inv _ R1) as [-> ->].
      destruct (sextet_char_inv _ R2) as [-> ->].
      repeat split; reflexivity.
    - destruct (group2 _ _ (byte_val_bounds a) (byte_val_bounds b))
        as (R1 & R2 & R3 & _).
      eexists (String _ (String _ (String _ EmptyString))), 1%nat.
      cbn [Base64.urlsafe_b64encode append Py.repeat_char Spec.free_of
           Pkce.url_safe String.length].
      destruct (sextet_char_inv _ R1) as [-> ->].
      destruct (sextet_char_inv _ R2) as [-> ->].
      destruct (sextet_char_inv _ R3) as [-> ->].
      repeat split; reflexivity.
    - destruct IH as (body & k & Henc & Hfree & Hsafe & Hlen).
      destruct (group3 _ _ _ (byte_val_bounds a) (byte_val_bounds b)
                  (byte_val_bounds c)) as (R1 & R2 & R3 & R4 & _).
      eexists (String _ (String _ (String _ (String _ body)))), k.
      cbn [Base64.urlsafe_b64encode append Spec.free_of Pkce.url_safe
           String.length].
      destruct (sextet_char_inv _ R1) as [-> ->].
      destruct (sextet_char_inv _ R2) as [-> ->].
      destruct (sextet_char_inv _ R3) as [-> ->].
      destruct (sextet_char_inv _ R4) as [-> ->].
      rewrite Henc, Hfree, Hsafe, Hlen.
      split; [reflexivity |]. split; [reflexivity |]. split; [reflexivity |].
      replace (4 * S (S (S (String.length r))) + 2)%nat
        with ((4 * String.length r + 2) + 4 * 3)%nat by lia.
      rewrite Nat.div_add by lia. lia. }
  destruct H as (body & k & -> & Hfree & Hsafe & Hlen).
  change "="%char with Base64.pad.
  rewrite (rstrip_char_free _ _ _ Hfree). auto.
Qed.

(** X10. With 32 bytes from the random source and a digest of 32 bytes,
    [generate_pkce] returns a verifier and a challenge of 43 characters
    each, all of them from the URL-safe alphabet (so without [=], [+] or
    [/]); the challenge is the unpadded base64url text of the digest of
    the verifier. *)
Theorem pkce_pair_shape (sha256 : string -> string) (random_bytes : string) :
  String.length random_bytes = 32%nat ->
  (forall data, String.length (sha256 data) = 32%nat) ->
  let (verifier, challenge) := Pkce.generate_pkce sha256 random_bytes in
  String.length verifier = 43%nat
  /\ String.length challenge = 43%nat
  /\ Pkce.url_safe verifier = true
  /\ Pkce.url_safe challenge = true
  /\ Spec.free_of "=" verifier = true
  /\ Spec.free_of "=" challenge = true
  /\ Base64.urlsafe_b64decode (challenge ++ "=") = Some (sha256 verifier).
Proof.
  intros Hrand Hsha. unfold Pkce.generate_pkce, Pkce.token_urlsafe.
  destruct (unpadded_shape random_bytes) as (Hs1 & Hf1 & Hl1).
  set (verifier := Py.rstrip_char "=" (Base64.urlsafe_b64encode random_bytes)) in *.
  destruct (unpadded_shape (sha256 verifier)) as (Hs2 & Hf2 & Hl2).
  rewrite Hrand in Hl1. rewrite Hsha in Hl2.
  repeat split; auto.
  destruct (urlsafe_b64encode_shape (sha256 verifier))
    as (body & k & Henc & Hfree & Hk).
  pose proof (urlsafe_b64decode_encode (sha256 verifier)) as Hdec.
  rewrite Henc in *. change "="%char with Base64.pad in *.
  rewrite (rstrip_char_free _ _ _ Hfree) in *.
  cbn in Hl2. rewrite Hl2 in Hk.
  destruct Hk as [[-> Hm] | [[-> Hm] | [-> Hm]]]; cbn in Hm; try discriminate.
  exact Hdec.
Qed.

(** X11. The state token is made of characters of the URL-safe alphabet
    only; it carries no [=]; it has four characters for every three bytes
    of JSON text, rounded up, so its length is never one more than a
    multiple of four. This holds whatever [json.dumps] writes, whenever
    it returns. *)
Theorem state_token_is_url_safe (json_dumps : json -> option string)
    (payload : json) (text : string) :
  json_dumps payload = Some text ->
  exists token,
    StateToken.encode_state json_dumps payload = Some token
    /\ Pkce.url_safe token = true
    /\ Spec.free_of "=" token = true
    /\ String.length token = ((4 * String.length text + 2) / 3)%nat
    /\ (String.length token mod 4 <> 1)%nat.
Proof.
  intros Hdumps. unfold StateToken.encode_state. rewrite Hdumps.
  eexists. split; [reflexivity |].
  destruct (unpadded_shape text) as (Hs & Hf & Hl).
  split; [exact Hs |]. split; [exact Hf |]. split; [exact Hl |].
  rewrite Hl. set (n := String.length text).
  pose proof (Nat.div_mod_eq (4 * n + 2) 3) as H1.
  pose proof (Nat.mod_upper_bound (4 * n + 2) 3) as H2.
  pose proof (Nat.div_mod_eq ((4 * n + 2) / 3) 4) as H3.
  pose proof (Nat.mod_upper_bound ((4 * n + 2) / 3) 4) as H4.
  lia.
Qed.

(** X12. The state [authenticate_account] sends out can always be built;
    it is accepted when it comes back and the verifier is the one of
    this login; with the verifier of another login it is rejected as a
    mismatch; it never makes the check raise. *)
Theorem returned_state_is_checked (verifier other project_id : string) :
  exists state,
    StateToken.encode_state JsonLib.dumps (Pkce.state_payload verifier project_id)
    = Some state
    /\ Pkce.check_state JsonLib.loads verifier state = Pkce.StateAccepted
    /\ (other <> verifier ->
        Pkce.check_state JsonLib.loads other state = Pkce.StateMismatch).
Proof.
  assert (Hdumps : JsonLib.dumps (Pkce.state_payload verifier project_id)
                   = Some (JsonLib.text (Pkce.state_payload verifier project_id)))
    by reflexivity.
  destruct (decode_state_encode_state_for_codec JsonLib.dumps JsonLib.loads
              _ _ Hdumps (loads_dumps _ _ Hdumps eq_refl))
    as (state & Henc & _ & Hdec).
  exists state. split; [exact Henc |].
  unfold Pkce.check_state. rewrite Hdec.
  unfold Pkce.state_payload. cbn [PyJson.assoc].
  change (String.eqb "verifier" "verifier") with true. cbv iota.
  rewrite String.eqb_refl. split; [reflexivity |].
  intros Hne. destruct (String.eqb verifier other) eqn:E; [| reflexivity].
  apply String.eqb_eq in E. congruence.
Qed.

End TokenFacts.

(** * Properties of fetch_account_info *)
Section AccountInfoFacts.
Local Open Scope string_scope.
Local Open Scope list_scope.

Lemma scan_allowed_tiers_tier (l : list json) (tier : string) :
  fst (AccountInfo.scan_allowed_tiers l tier) = tier
  \/ fst (AccountInfo.scan_allowed_tiers l tier) = "paid".
Proof.
  revert tier. induction l as [| t r IH]; intros tier; cbn; [now left |].
  destruct (PyJson.get t "isDefault" JNull) as [d |]; [| now left].
  destruct (PyJson.truthy d); [| apply IH].
  destruct (PyJson.get t "id" (JStr EmptyString)) as [tid |]; [| now left].
  destruct (AccountInfo.default_tier_is_paid tid) as [[] |]; [| apply IH | now left].
  destruct (IH "paid") as [H | H]; right; exact H.
Qed.

(** What [inspect] can return. *)
Lemma inspect_cases (data : json) (tier : string) :
  (fst (AccountInfo.inspect data tier) = tier
   \/ fst (AccountInfo.inspect data tier) = "paid")
  /\ (forall p, snd (AccountInfo.inspect data tier) = Some p ->
        AccountInfo.project_of data = Some p /\ PyJson.truthy p = true).
Proof.
  unfold AccountInfo.inspect.
  destruct (AccountInfo.project_of data) as [project_id |];
    [| split; [now left | discriminate]].
  set (first := match PyJson.get data "allowedTiers" (JArr []) with
                | Some (JArr l) => AccountInfo.scan_allowed_tiers l tier
                | _ => (tier, false)
                end).
  assert (H1 : fst first = tier \/ fst first = "paid").
  { subst first.
    destruct (PyJson.get data "allowedTiers" (JArr [])) as [[| | | | l | ] |];
      try (now left). apply scan_allowed_tiers_tier. }
  destruct first as [tier1 raised]. cbn [fst] in H1.
  destruct raised; [split; [exact H1 | discriminate] |].
  set (second := match PyJson.get data "paidTier" JNull with
                 | Some (JObj (f :: fs)) => _
                 | _ => (tier1, false)
                 end).
  assert (H2 : fst second = tier1 \/ fst second = "paid").
  { subst second.
    destruct (PyJson.get data "paidTier" JNull) as [[| | | | | [| f fs]] |];
      try (now left).
    destruct (PyJson.get (JObj (f :: fs)) "id" (JStr EmptyString)) as [pid |];
      [| now left].
    destruct (AccountInfo.neither_free_nor_zero pid) as [[] |];
      [now right | now left | now left]. }
  destruct second as [tier2 raised2]. cbn [fst] in H2.
  assert (H3 : tier2 = tier \/ tier2 = "paid").
  { destruct H2 as [-> | ->]; [exact H1 | now right]. }
  destruct raised2; [split; [exact H3 | discriminate] |].
  destruct (PyJson.truthy project_id) eqn:Ht; cbn [fst snd].
  - split; [exact H3 |]. intros p [= <-]. auto.
  - split; [exact H3 | discriminate].
Qed.

Lemma fetch_cases (answers : string -> AccountInfo.LoadAnswer)
    (endpoints : list string) :
  forall (tier : string) (posted : list string),
    let '(p, t, posted') := AccountInfo.fetch answers endpoints tier posted in
    (t = tier \/ t = "paid")
    /\ ((p = JStr EmptyString /\ posted' = posted ++ endpoints)
        \/ (PyJson.truthy p = true
            /\ exists pre e post data,
                endpoints = pre ++ e :: post
                /\ posted' = posted ++ pre ++ [e]
                /\ answers e = AccountInfo.Body data
                /\ AccountInfo.project_of data = Some p)).
Proof.
  induction endpoints as [| e rest IH]; intros tier posted.
  - cbn. rewrite app_nil_r. split; [now left | now left].
  - cbn [AccountInfo.fetch].
    assert (Hskip :
      forall tier',
        (tier' = tier \/ tier' = "paid") ->
        let '(p, t, posted') :=
          AccountInfo.fetch answers rest tier' (posted ++ [e]) in
        (t = tier \/ t = "paid")
        /\ ((p = JStr EmptyString /\ posted' = posted ++ e :: rest)
            \/ (PyJson.truthy p = true
                /\ exists pre e0 post data,
                    e :: rest = pre ++ e0 :: post
                    /\ posted' = posted ++ pre ++ [e0]
                    /\ answers e0 = AccountInfo.Body data
                    /\ AccountInfo.project_of data = Some p))).
    { intros tier' Htier'. specialize (IH tier' (posted ++ [e])).
      destruct (AccountInfo.fetch answers rest tier' (posted ++ [e]))
        as [[p t] posted'].
      destruct IH as [Ht Hp]. split.
      - destruct Ht as [-> | ->]; [exact Htier' | now right].
      - destruct Hp as [[-> ->] | (Htr & pre & e0 & post & data & -> & -> & Ha & Hd)].
        + left. rewrite <- app_assoc. auto.
        + right. split; [exact Htr |].
          exists (e :: pre), e0, post, data. rewrite <- !app_assoc. auto. }
    destruct (answers e) as [| | data] eqn:Hans;
      [apply Hskip; now left | apply Hskip; now left |].
    destruct (inspect_cases data tier) as [Ht Hp].
    destruct (AccountInfo.inspect data tier) as [tier' [project_id |]];
      cbn [fst snd] in *.
    + split; [exact Ht |]. right.
      destruct (Hp project_id eq_refl) as [Hproj Htr]. split; [exact Htr |].
      exists [], e, rest, data. auto.
    + apply Hskip. exact Ht.
Qed.

(** X13. When every endpoint fails (the POST raises, the body is not
    JSON, or the status is an error), [fetch_account_info] does not
    raise: it has tried every endpoint of the list in order and returns
    an empty project id with the tier ["free"]. *)
Theorem account_info_defaults_on_total_failure
    (answers : string -> AccountInfo.LoadAnswer) :
  (forall e, In e Constants.CODE_ASSIST_ENDPOINT_FALLBACKS ->
             answers e = AccountInfo.PostRaised \/ answers e = AccountInfo.NotOk) ->
  AccountInfo.fetch_account_info answers
  = (JStr EmptyString, "free", Constants.CODE_ASSIST_ENDPOINT_FALLBACKS).
Proof.
  unfold AccountInfo.fetch_account_info.
  change Constants.CODE_ASSIST_ENDPOINT_FALLBACKS
    with ([] ++ Constants.CODE_ASSIST_ENDPOINT_FALLBACKS) at 3.
  generalize (@nil string) as posted.
  generalize Constants.CODE_ASSIST_ENDPOINT_FALLBACKS as endpoints.
  induction endpoints as [| e rest IH]; intros posted Hall; cbn.
  - now rewrite app_nil_r.
  - assert (Hrest : forall e', In e' rest ->
              answers e' = AccountInfo.PostRaised \/ answers e' = AccountInfo.NotOk)
      by (intros e' He'; apply Hall; now right).
    destruct (Hall e (or_introl eq_refl)) as [-> | ->];
      rewrite (IH (posted ++ [e]) Hrest), <- app_assoc; reflexivity.
Qed.

(** X14. Whatever the endpoints answer, the tier returned is ["free"] or
    ["paid"], and the project id is either empty, with every endpoint of
    the list tried, or a true value taken from the body of the last
    endpoint tried, with the endpoints after it left alone. *)
Theorem account_info_project_source
    (answers : string -> AccountInfo.LoadAnswer) :
  let '(p, t, posted) := AccountInfo.fetch_account_info answers in
  (t = "free" \/ t = "paid")
  /\ ((p = JStr EmptyString
       /\ posted = Constants.CODE_ASSIST_ENDPOINT_FALLBACKS)
      \/ (PyJson.truthy p = true
          /\ exists pre e post data,
              Constants.CODE_ASSIST_ENDPOINT_FALLBACKS = pre ++ e :: post
              /\ posted = pre ++ [e]
              /\ answers e = AccountInfo.Body data
              /\ AccountInfo.project_of data = Some p)).
Proof.
  unfold AccountInfo.fetch_account_info.
  exact (fetch_cases answers Constants.CODE_ASSIST_ENDPOINT_FALLBACKS "free" []).
Qed.

Lemma fetch_stays_paid (answers : string -> AccountInfo.LoadAnswer)
    (endpoints posted : list string) :
  snd (fst (AccountInfo.fetch answers endpoints "paid" posted)) = "paid".
Proof.
  pose proof (fetch_cases answers endpoints "paid" posted) as H.
  destruct (AccountInfo.fetch answers endpoints "paid" posted) as [[p t] q].
  destruct H as [[-> | ->] _]; reflexivity.
Qed.

(** X15. The detected tier is carried from one endpoint to the next and
    never goes back: when the endpoints before [e] fail and the body of
    [e] makes the tier ["paid"], the result says ["paid"], whether the
    project id comes from [e], from a later endpoint or from none; this
    holds also when an exception cuts the inspection of that body short
    after the tier was set. *)
Theorem paid_tier_is_kept_across_endpoints
    (answers : string -> AccountInfo.LoadAnswer)
    (pre post : list string) (e : string) (data : json) :
  Constants.CODE_ASSIST_ENDPOINT_FALLBACKS = pre ++ e :: post ->
  (forall e', In e' pre ->
              answers e' = AccountInfo.PostRaised \/ answers e' = AccountInfo.NotOk) ->
  answers e = AccountInfo.Body data ->
  fst (AccountInfo.inspect data "free") = "paid" ->
  snd (fst (AccountInfo.fetch_account_info answers)) = "paid".
Proof.
  unfold AccountInfo.fetch_account_info. intros -> Hpre Hans Hpaid.
  generalize (@nil string) as posted.
  induction pre as [| e0 pre IH]; intros posted; cbn [app AccountInfo.fetch].
  - rewrite Hans.
    destruct (AccountInfo.inspect data "free") as [tier' [p |]];
      cbn [fst] in Hpaid; subst tier'; [reflexivity |].
    apply fetch_stays_paid.
  - assert (Hrest : forall e', In e' pre ->
              answers e' = AccountInfo.PostRaised \/ answers e' = AccountInfo.NotOk)
      by (intros e' He'; apply Hpre; now right).
    destruct (Hpre e0 (or_introl eq_refl)) as [-> | ->]; apply (IH Hrest).
Qed.

End AccountInfoFacts.

(** * Properties of the message conversion *)
Section GeminiFacts.
Local Open Scope string_scope.
Local Open Scope list_scope.

Lemma no_repeat_app_last (l : list string) (a b : string) :
  Gemini.no_repeat (l ++ [a]) = true ->
  String.eqb a b = false ->
  Gemini.no_repeat (l ++ [a; b]) = true.
Proof.
  intros H Hab. induction l as [| x l IH].
  - cbn. now rewrite Hab.
  - destruct l as [| y l].
    + cbn in *. now rewrite Hab, Bool.andb_true_r in *.
    + change (Gemini.no_repeat ((x :: y :: l) ++ [a]))
        with (negb (String.eqb x y) && Gemini.no_repeat ((y :: l) ++ [a])) in H.
      change (Gemini.no_repeat ((x :: y :: l) ++ [a; b]))
        with (negb (String.eqb x y) && Gemini.no_repeat ((y :: l) ++ [a; b])).
      apply Bool.andb_true_iff in H as [Hxy Hrest].
      now rewrite Hxy, (IH Hrest).
Qed.

Lemma good_nil : Gemini.good [].
Proof. split; reflexivity. Qed.

Lemma flush_inv (gc : list Gemini.Content) (cr : option string) (cp : list json) :
  Gemini.group_inv gc cr cp ->
  Gemini.good (Gemini.flush gc cr cp)
  /\ List.concat (map Gemini.parts (Gemini.flush gc cr cp))
     = List.concat (map Gemini.parts gc) ++ cp.
Proof.
  intros [(-> & -> & ->) | (r & -> & Hr & Hgood)]; cbn [Gemini.flush].
  - split; [apply good_nil | reflexivity].
  - assert (Hne : String.eqb r EmptyString = false)
      by (destruct Hr as [-> | ->]; reflexivity).
    rewrite Hne. split; [exact Hgood |].
    rewrite map_app, concat_app. cbn. now rewrite app_nil_r.
Qed.

Lemma g_role_cases (role : json) :
  let g := if PyJson.is_str "user" role then "user" else "model" in
  (g = "user" \/ g = "model").
Proof. cbn zeta. destruct (PyJson.is_str "user" role); auto. Qed.

(** One message that brings parts keeps the invariant and adds exactly
    its parts. *)
Lemma group_step (gc : list Gemini.Content) (cr : option string)
    (cp parts : list json) (g : string) :
  Gemini.group_inv gc cr cp ->
  (g = "user" \/ g = "model") ->
  parts <> [] ->
  let '(gc', cr', cp') :=
    if Gemini.same_role g cr then (gc, cr, cp ++ parts)
    else (Gemini.flush gc cr cp, Some g, parts) in
  Gemini.group_inv gc' cr' cp'
  /\ List.concat (map Gemini.parts gc') ++ cp'
     = (List.concat (map Gemini.parts gc) ++ cp) ++ parts.
Proof.
  intros Hinv Hg Hparts.
  assert (Hgne : String.eqb g EmptyString = false)
    by (destruct Hg as [-> | ->]; reflexivity).
  assert (Hwf : Gemini.well_formed {| Gemini.role := g; Gemini.parts := parts |} = true).
  { unfold Gemini.well_formed. cbn [Gemini.role Gemini.parts].
    destruct parts; [congruence |].
    destruct Hg as [-> | ->]; reflexivity. }
  destruct (flush_inv gc cr cp Hinv) as [Hflush Hconcat].
  destruct Hinv as [(-> & -> & ->) | (r & -> & Hr & [Hrep Hall])];
    cbn [Gemini.same_role].
  - split; [| reflexivity]. right. exists g. split; [reflexivity |].
    split; [exact Hg |]. split; [reflexivity |]. cbn. now rewrite Hwf.
  - destruct (String.eqb g r) eqn:Hgr.
    + apply String.eqb_eq in Hgr. subst g. split; [| now rewrite app_assoc].
      right. exists r. split; [reflexivity |]. split; [exact Hr |]. split.
      * rewrite map_app in *. exact Hrep.
      * rewrite forallb_app in *. apply Bool.andb_true_iff in Hall as [Hgc Hlast].
        rewrite Hgc. cbn [forallb andb]. unfold Gemini.well_formed.
        cbn [Gemini.role Gemini.parts].
        destruct Hr as [-> | ->]; destruct cp; destruct parts;
          try congruence; reflexivity.
    + rewrite Hconcat. split; [| reflexivity].
      right. exists g. split; [reflexivity |]. split; [exact Hg |].
      cbn [Gemini.flush].
      assert (Hne : String.eqb r EmptyString = false)
        by (destruct Hr as [-> | ->]; reflexivity).
      rewrite Hne. split.
      * rewrite <- app_assoc. cbn [app]. rewrite map_app in *.
        cbn [map Gemini.role] in *. apply no_repeat_app_last; [exact Hrep |].
        rewrite String.eqb_sym. exact Hgr.
      * rewrite forallb_app, Hall. cbn. now rewrite Hwf.
Qed.

(** The second loop keeps its invariant and collects the parts of the
    messages in order. *)
Lemma group_spec (messages : list json) :
  forall gc cr cp gc' cr' cp',
    Gemini.group_inv gc cr cp ->
    Gemini.group messages gc cr cp = Some (gc', cr', cp') ->
    Gemini.group_inv gc' cr' cp'
    /\ List.concat (map Gemini.parts gc') ++ cp'
       = (List.concat (map Gemini.parts gc) ++ cp)
           ++ flat_map Gemini.message_parts messages.
Proof.
  induction messages as [| msg rest IH]; intros gc cr cp gc' cr' cp' Hinv Hrun.
  - cbn in Hrun. injection Hrun as <- <- <-. cbn. now rewrite app_nil_r.
  - cbn [Gemini.group] in Hrun. cbn [flat_map]. unfold Gemini.message_parts at 1.
    destruct (Gemini.getitem msg "role") as [role |]; [| discriminate].
    destruct (Gemini.getitem msg "content") as [content |]; [| discriminate].
    destruct (PyJson.is_str "system" role).
    { cbn [app]. exact (IH _ _ _ _ _ _ Hinv Hrun). }
    destruct (Gemini.parts_of content) as [[| p parts] |]; [| | discriminate].
    { cbn [Py.get_default app]. exact (IH _ _ _ _ _ _ Hinv Hrun). }
    cbn [Py.get_default]. cbv zeta in Hrun.
    pose proof (group_step gc cr cp (p :: parts) _ Hinv (g_role_cases role)) as Hstep.
    cbv zeta in Hstep.
    destruct (Gemini.same_role _ cr);
      (destruct Hstep as [Hinv' Hparts']; [discriminate |]);
      destruct (IH _ _ _ _ _ _ Hinv' Hrun) as [Hinv'' Hparts''];
      (split; [exact Hinv'' |]);
      rewrite Hparts'', Hparts', <- !app_assoc; reflexivity.
Qed.

Lemma prepend_system_good (si : string) (l : list Gemini.Content) :
  Gemini.good l -> Gemini.good (Gemini.prepend_system si l).
Proof.
  intros [Hrep Hall]. unfold Gemini.prepend_system.
  destruct (String.eqb si EmptyString); [split; assumption |].
  destruct l as [| first rest]; [split; reflexivity |].
  destruct (String.eqb (Gemini.role first) "user") eqn:Hfirst.
  - split; [exact Hrep |]. cbn [forallb] in *.
    apply Bool.andb_true_iff in Hall as [Hwf ->].
    unfold Gemini.well_formed in *. cbn [Gemini.role Gemini.parts].
    apply Bool.andb_true_iff in Hwf as [-> _]. reflexivity.
  - split.
    + cbn [map Gemini.role]. cbn [map] in Hrep.
      change (Gemini.no_repeat ("user" :: Gemini.role first :: map Gemini.role rest))
        with (negb (String.eqb "user" (Gemini.role first))
              && Gemini.no_repeat (Gemini.role first :: map Gemini.role rest)).
      now rewrite String.eqb_sym, Hfirst, Hrep.
    + cbn [forallb] in *. now rewrite Hall.
Qed.

Lemma prepend_system_parts (si : string) (l : list Gemini.Content) :
  List.concat (map Gemini.parts (Gemini.prepend_system si l))
  = Gemini.system_parts si ++ List.concat (map Gemini.parts l).
Proof.
  unfold Gemini.prepend_system, Gemini.system_parts.
  destruct (String.eqb si EmptyString); [reflexivity |].
  destruct l as [| first rest]; [reflexivity |].
  destruct (String.eqb (Gemini.role first) "user"); reflexivity.
Qed.

(** What a successful conversion is made of. *)
Lemma convert_inv (messages : list json) (out : list Gemini.Content) :
  Gemini._convert_messages_to_gemini messages = Some out ->
  exists si l,
    Gemini.merge_system messages EmptyString = Some si
    /\ out = Gemini.prepend_system si l
    /\ Gemini.good l
    /\ List.concat (map Gemini.parts l) = flat_map Gemini.message_parts messages.
Proof.
  unfold Gemini._convert_messages_to_gemini. intros H.
  destruct (Gemini.merge_system messages EmptyString) as [si |]; [| discriminate].
  destruct (Gemini.group messages [] None []) as [[[gc cr] cp] |] eqn:Hrun;
    [| discriminate].
  injection H as <-.
  assert (Hinit : Gemini.group_inv [] None []) by (left; auto).
  destruct (group_spec messages _ _ _ _ _ _ Hinit Hrun) as [Hinv Hparts].
  destruct (flush_inv gc cr cp Hinv) as [Hgood Hconcat].
  exists si, (Gemini.flush gc cr cp). split; [reflexivity |].
  split; [reflexivity |]. split; [exact Hgood |].
  rewrite Hconcat, Hparts. reflexivity.
Qed.

(** X16. Whatever the messages are, when the conversion returns, the
    entries it returns alternate between the two roles: no two
    neighbours have the same role, every role is ["user"] or ["model"],
    and no entry is without parts. *)
Theorem converted_roles_alternate (messages : list json)
    (out : list Gemini.Content) :
  Gemini._convert_messages_to_gemini messages = Some out ->
  Gemini.no_repeat (map Gemini.role out) = true
  /\ forallb Gemini.well_formed out = true.
Proof.
  intros H. destruct (convert_inv messages out H) as (si & l & _ & -> & Hgood & _).
  exact (prepend_system_good si l Hgood).
Qed.

(** X17. The conversion neither drops nor reorders text: read in order,
    the parts of the entries returned are the part of the system
    instruction, when there is one, followed by the parts of the
    messages that are not system messages, in the order of the
    messages. *)
Theorem converted_parts_are_kept_in_order (messages : list json)
    (out : list Gemini.Content) :
  Gemini._convert_messages_to_gemini messages = Some out ->
  exists system_instruction,
    Gemini.merge_system messages EmptyString = Some system_instruction
    /\ List.concat (map Gemini.parts out)
       = Gemini.system_parts system_instruction
           ++ flat_map Gemini.message_parts messages.
Proof.
  intros H. destruct (convert_inv messages out H) as (si & l & Hsi & -> & _ & Hparts).
  exists si. split; [exact Hsi |].
  now rewrite prepend_system_parts, Hparts.
Qed.

(** X18. A system instruction that is not empty always opens the
    result: the first entry has the role ["user"] and its first part is
    the instruction, also when no other message brings a part or when
    the first message that does is not from the user. *)
Theorem system_instruction_opens_first_user_entry (messages : list json)
    (out : list Gemini.Content) (system_instruction : string) :
  Gemini._convert_messages_to_gemini messages = Some out ->
  Gemini.merge_system messages EmptyString = Some system_instruction ->
  system_instruction <> EmptyString ->
  exists first rest more,
    out = first :: rest
    /\ Gemini.role first = "user"
    /\ Gemini.parts first
       = Gemini.text_part (JStr system_instruction) :: more.
Proof.
  intros H Hsi Hne.
  destruct (convert_inv messages out H) as (si & l & Hsi' & -> & _ & _).
  rewrite Hsi in Hsi'. injection Hsi' as <-.
  unfold Gemini.prepend_system.
  destruct (String.eqb system_instruction EmptyString) eqn:He;
    [apply String.eqb_eq in He; contradiction |].
  destruct l as [| first rest].
  - eexists _, [], []. split; [reflexivity |]. split; reflexivity.
  - destruct (String.eqb (Gemini.role first) "user") eqn:Hfirst.
    + apply String.eqb_eq in Hfirst.
      eexists _, rest, (Gemini.parts first). split; [reflexivity |].
      split; [exact Hfirst | reflexivity].
    + eexists _, (first :: rest), []. split; [reflexivity |]. split; reflexivity.
Qed.

Lemma group_raises_on_missing_key (messages : list json) (msg : json) :
  In msg messages ->
  Gemini.getitem msg "role" = None \/ Gemini.getitem msg "content" = None ->
  forall gc cr cp, Gemini.group messages gc cr cp = None.
Proof.
  intros Hin Hbad. induction messages as [| m rest IH]; [contradiction |].
  intros gc cr cp. cbn [Gemini.group].
  destruct Hin as [-> | Hin].
  - destruct Hbad as [-> | Hc]; [reflexivity |].
    rewrite Hc. now destruct (Gemini.getitem msg "role").
  - specialize (IH Hin).
    destruct (Gemini.getitem m "role") as [role |]; [| reflexivity].
    destruct (Gemini.getitem m "content") as [content |]; [| reflexivity].
    destruct (PyJson.is_str "system" role); [apply IH |].
    destruct (Gemini.parts_of content) as [[| p parts] |];
      [apply IH | | reflexivity].
    cbv zeta. destruct (Gemini.same_role _ cr); apply IH.
Qed.

(** X19. A message without a ["role"] or without a ["content"] key makes
    the conversion raise, wherever it stands in the list; this includes
    a system message without content, which the first loop accepts
    (it reads the content with a default) and the second loop does not
    (it reads the content before it tests the role). *)
Theorem message_without_role_or_content_raises (messages : list json)
    (msg : json) :
  In msg messages ->
  Gemini.getitem msg "role" = None \/ Gemini.getitem msg "content" = None ->
  Gemini._convert_messages_to_gemini messages = None.
Proof.
  intros Hin Hbad. unfold Gemini._convert_messages_to_gemini.
  destruct (Gemini.merge_system messages EmptyString); [| reflexivity].
  now rewrite (group_raises_on_missing_key messages msg Hin Hbad).
Qed.

Lemma is_str_JStr (needle s : string) :
  PyJson.is_str needle (JStr s) = String.eqb s needle.
Proof. reflexivity. Qed.

Lemma plain_getitem_role (r c : string) :
  Gemini.getitem (Gemini.plain_message r c) "role" = Some (JStr r).
Proof. reflexivity. Qed.

Lemma plain_getitem_content (r c : string) :
  Gemini.getitem (Gemini.plain_message r c) "content" = Some (JStr c).
Proof.
  unfold Gemini.plain_message, Gemini.getitem. cbn [PyJson.assoc].
  change (String.eqb "content" "role") with false. cbv iota.
  change (String.eqb "content" "content") with true. reflexivity.
Qed.

Lemma plain_get_content (r c : string) :
  PyJson.get (Gemini.plain_message r c) "content" (JStr EmptyString)
  = Some (JStr c).
Proof.
  unfold PyJson.get, Gemini.plain_message.
  change (PyJson.assoc "content" [("role", JStr r); ("content", JStr c)])
    with (Gemini.getitem (Gemini.plain_message r c) "content").
  now rewrite plain_getitem_content.
Qed.

Lemma merge_system_plain (l : list (string * string)) :
  forall si,
    Gemini.merge_system (Gemini.plain l) si
    = Some (si ++ String.concat EmptyString
                    (map (fun rc => snd rc ++ Gemini.newline)
                         (filter Gemini.is_system l)))%string.
Proof.
  induction l as [| [r c] l IH]; intros si.
  - cbn. now rewrite append_empty_r.
  - cbn [Gemini.plain map fst snd]. cbn [Gemini.merge_system].
    rewrite plain_getitem_role, is_str_JStr.
    cbn [filter]. unfold Gemini.is_system at 1. cbn [fst].
    destruct (String.eqb r "system").
    + rewrite plain_get_content. fold (Gemini.plain l). rewrite IH.
      cbn [map snd]. f_equal.
      destruct (map (fun rc => (snd rc ++ Gemini.newline)%string) (filter Gemini.is_system l))
        as [| x xs] eqn:Hmap.
      * cbn [String.concat]. now rewrite !append_empty_r.
      * cbn [String.concat]. cbn [String.append]. now rewrite !append_assoc.
    + fold (Gemini.plain l). apply IH.
Qed.

Lemma group_plain_returns (l : list (string * string)) :
  forall gc cr cp, Gemini.group (Gemini.plain l) gc cr cp <> None.
Proof.
  induction l as [| [r c] l IH]; intros gc cr cp; [discriminate |].
  cbn [Gemini.plain map fst snd]. cbn [Gemini.group].
  rewrite plain_getitem_role, plain_getitem_content. fold (Gemini.plain l).
  destruct (PyJson.is_str "system" (JStr r)); [apply IH |].
  cbn [Gemini.parts_of]. cbv zeta.
  destruct (Gemini.same_role _ cr); apply IH.
Qed.

Lemma message_parts_plain (l : list (string * string)) :
  flat_map Gemini.message_parts (Gemini.plain l)
  = map (fun rc => Gemini.text_part (JStr (snd rc)))
        (filter (fun rc => negb (Gemini.is_system rc)) l).
Proof.
  induction l as [| [r c] l IH]; [reflexivity |].
  cbn [Gemini.plain map fst snd flat_map filter]. fold (Gemini.plain l). rewrite IH.
  unfold Gemini.message_parts.
  rewrite plain_getitem_role, plain_getitem_content, is_str_JStr.
  unfold Gemini.is_system at 2. cbn [fst].
  destruct (String.eqb r "system"); reflexivity.
Qed.

(** X20. Messages whose content is a string never make the conversion
    raise, whatever their roles: the result exists, its parts are the
    system texts, each followed by a newline and joined into one part
    when there is any, and then one part for each other message with
    that message's content, in order; so a role that is neither
    ["user"] nor ["system"] (["assistant"], ["tool"], ...) keeps its
    text and is sent as ["model"]. *)
Theorem string_messages_are_converted (l : list (string * string)) :
  exists out,
    Gemini._convert_messages_to_gemini (Gemini.plain l) = Some out
    /\ List.concat (map Gemini.parts out)
       = Gemini.system_parts
           (String.concat EmptyString
              (map (fun rc => snd rc ++ Gemini.newline)%string
                   (filter Gemini.is_system l)))
           ++ map (fun rc => Gemini.text_part (JStr (snd rc)))
                  (filter (fun rc => negb (Gemini.is_system rc)) l).
Proof.
  destruct (Gemini._convert_messages_to_gemini (Gemini.plain l)) as [out |] eqn:H.
  - exists out. split; [reflexivity |].
    destruct (convert_inv (Gemini.plain l) out H) as (si & l' & Hsi & -> & _ & Hparts).
    rewrite merge_system_plain in Hsi. cbn [String.append] in Hsi.
    injection Hsi as <-.
    now rewrite prepend_system_parts, Hparts, message_parts_plain.
  - exfalso. unfold Gemini._convert_messages_to_gemini in H.
    rewrite merge_system_plain in H.
    destruct (Gemini.group (Gemini.plain l) [] None []) as [[[gc cr] cp] |] eqn:Hrun;
      [discriminate |].
    exact (group_plain_returns l _ _ _ Hrun).
Qed.

End GeminiFacts.

(** X24. A message without a ["role"] or without a ["content"] key ends
    [stream_generate_content] with the exception of the conversion,
    after the login that an empty pool triggers and before the first
    attempt: no token is asked for, no endpoint is contacted, nothing is
    yielded, and the state is the one the login left. *)
Theorem message_without_role_or_content_ends_the_call
    (json_loads : string -> option json) (w : World) (messages : list json)
    (msg : json) (s s0 : State) :
  In msg messages ->
  Gemini.getitem msg "role" = None \/ Gemini.getitem msg "content" = None ->
  Client.ensure_auth w s = (Ok tt, s0) ->
  Client.stream_generate_content json_loads w messages s
  = (Raise MessageError, s0)
  /\ Client.attempts_of (trace s0) = Client.attempts_of (trace s)
  /\ Client.contacted (trace s0) = Client.contacted (trace s)
  /\ Client.yields (trace s0) = Client.yields (trace s)
  /\ Client.refreshes_of (trace s0) = Client.refreshes_of (trace s)
  /\ requests s0 = requests s.
Proof.
  intros Hin Hbad Hauth.
  assert (Hconv : Gemini._convert_messages_to_gemini messages = None).
  { unfold Gemini._convert_messages_to_gemini.
    destruct (Gemini.merge_system messages EmptyString); [| reflexivity].
    now rewrite (group_raises_on_missing_key messages msg Hin Hbad). }
  split.
  - unfold Client.stream_generate_content, bind, Client.convert_messages.
    rewrite Hauth, Hconv. reflexivity.
  - destruct (ensure_auth_returns w s s0 Hauth) as (_ & Hrq & Ha & Hc & Hy).
    split; [exact Ha |]. split; [exact Hc |]. split; [exact Hy |].
    split; [| exact Hrq].
    unfold Client.ensure_auth in Hauth.
    destruct (accounts (mgr s)); [| now injection Hauth as <-].
    destruct (login_raises w).
    + unfold bind in Hauth.
      destruct (Client.add_accounts (interactive_login w) s) as [[[] | e] sx];
        discriminate.
    + destruct (interactive_login w) as [| x l]; [discriminate |].
      destruct (appends_add_accounts (fun e => match e with EvSave _ => true | _ => false end)
                  (fun _ => eq_refl) (x :: l) s _ _ Hauth) as (evs & -> & Hevs).
      rewrite refreshes_of_app.
      assert (Hnone : Client.refreshes_of evs = []).
      { clear - Hevs. induction evs as [| e evs IH]; [reflexivity |].
        cbn [forallb] in Hevs. apply andb_true_iff in Hevs as [He Hevs].
        destruct e; try discriminate. cbn. auto. }
      now rewrite Hnone, app_nil_r.
Qed.

(** * Properties of the login loop *)
Section LoginFacts.
Local Open Scope list_scope.

Lemma add_accounts_cons (a : Account) (l : list Account) (s : State) :
  Client.add_accounts (a :: l) s
  = Client.add_accounts l (snd (Auth.add_account a s)).
Proof. reflexivity. Qed.

Lemma rounds_end_cons (out : Login.Ended) (r : Login.Round)
    (used rest : list Login.Round) (s' : State) :
  Login.declined (Login.input r) = false ->
  Login.rounds_end out used rest s' ->
  Login.rounds_end out (r :: used) rest s'.
Proof.
  intros Hr. destruct out; cbn.
  - intros [Hp (u & r0 & -> & Hd & Hu)]. split; [exact Hp |].
    exists (r :: u), r0. auto.
  - intros [Hp (u & r0 & -> & Hd & Hu)]. split; [exact Hp |].
    exists (r :: u), r0. auto.
  - intros [Hx Hu]. auto.
  - intros [Hx Hu]. auto.
Qed.

(** The loop, by the rounds it uses. *)
Lemma rounds_spec (script : list Login.Round) :
  forall s out s',
    Login.rounds script s = (out, s') ->
    exists used rest,
      script = used ++ rest
      /\ Client.add_accounts (Login.authenticated used) s = (Ok tt, s')
      /\ Login.rounds_end out used rest s'.
Proof.
  induction script as [| r script IH]; intros s out s' Hrun.
  - cbn in Hrun. injection Hrun as <- <-. exists [], [].
    split; [reflexivity |]. split; [reflexivity |]. cbn. auto.
  - cbn [Login.rounds] in Hrun.
    assert (Hstep :
      forall s1,
        Client.add_accounts (Login.authenticated [r]) s = (Ok tt, s1) ->
        (if (1 <=? List.length (accounts (mgr s1)))%nat
         then if Login.declined (Login.input r)
              then (Login.Returned, s1) else Login.rounds script s1
         else if Login.declined (Login.input r)
              then (Login.AuthFailed, s1) else Login.rounds script s1)
        = (out, s') ->
        exists used rest,
          r :: script = used ++ rest
          /\ Client.add_accounts (Login.authenticated used) s = (Ok tt, s')
          /\ Login.rounds_end out used rest s').
    { intros s1 Hadd Hrest.
      assert (Hgo : Login.declined (Login.input r) = false ->
                Login.rounds script s1 = (out, s') ->
                exists used rest,
                  r :: script = used ++ rest
                  /\ Client.add_accounts (Login.authenticated used) s = (Ok tt, s')
                  /\ Login.rounds_end out used rest s').
      { intros Hr Hrec.
        destruct (IH s1 out s' Hrec) as (used & rest & -> & Hacc & Hout).
        exists (r :: used), rest. split; [reflexivity |]. split.
        - cbn [Login.authenticated] in *.
          destruct (Login.login r) as [| | a].
          + cbn in Hadd. injection Hadd as <-. exact Hacc.
          + cbn in Hadd. injection Hadd as <-. exact Hacc.
          + rewrite add_accounts_cons. rewrite add_accounts_cons in Hadd.
            cbn [Client.add_accounts] in Hadd. unfold ret in Hadd.
            injection Hadd as <-. exact Hacc.
        - apply rounds_end_cons; assumption. }
      destruct (1 <=? List.length (accounts (mgr s1)))%nat eqn:Hlen;
        destruct (Login.declined (Login.input r)) eqn:Hdecl;
        try (apply Hgo; [reflexivity | exact Hrest]);
        injection Hrest as <- <-; exists [r], script;
        (split; [reflexivity |]); (split; [exact Hadd |]); cbn.
      - split; [| exists [], r; auto].
        destruct (accounts (mgr s1)); [discriminate | discriminate].
      - split; [| exists [], r; auto].
        destruct (accounts (mgr s1)); [reflexivity | discriminate]. }
    destruct (Login.login r) as [| | a] eqn:Hlogin.
    + injection Hrun as <- <-. exists [], (r :: script).
      split; [reflexivity |]. split; [reflexivity |]. cbn.
      split; [exists r, script; auto | constructor].
    + apply (Hstep s); [| exact Hrun].
      cbn [Login.authenticated]. rewrite Hlogin. reflexivity.
    + apply (Hstep (snd (Auth.add_account a s))); [| exact Hrun].
      cbn [Login.authenticated]. rewrite Hlogin. reflexivity.
Qed.

(** X21. When [ensure_auth] returns, the pool is not empty. A pool that
    had accounts is left as it was and nobody is asked to log in;
    otherwise the accounts of the pool are those the logins handed out,
    in the order of the logins, up to and including the round at which
    the user declined to add another (or the prompt failed), every
    prompt before that one having been answered with [y]; the cursor is
    where it was. *)
Theorem ensure_auth_returns_with_an_account (script : list Login.Round)
    (s s' : State) :
  Login.ensure_auth script s = (Login.Returned, s') ->
  accounts (mgr s') <> []
  /\ active_index (mgr s') = active_index (mgr s)
  /\ (accounts (mgr s) <> [] -> s' = s)
  /\ (exists used rest,
         script = used ++ rest
         /\ accounts (mgr s') = accounts (mgr s) ++ Login.authenticated used)
  /\ (accounts (mgr s) = [] ->
      exists before last rest,
        script = before ++ last :: rest
        /\ accounts (mgr s') = Login.authenticated (before ++ [last])
        /\ Login.declined (Login.input last) = true
        /\ Forall (fun r => Login.declined (Login.input r) = false) before).
Proof.
  unfold Login.ensure_auth. intros H.
  destruct (accounts (mgr s)) as [| a l] eqn:Hpool.
  - destruct (rounds_spec script s _ s' H)
      as (used & rest & Hscript & Hadd & Hne & u & r & -> & Hdecl & Hu).
    destruct (add_accounts_effect (Login.authenticated (u ++ [r])) s)
      as (s1 & Hadd' & Hacc & Hidx & _).
    rewrite Hadd in Hadd'. injection Hadd' as <-.
    rewrite Hpool in Hacc. cbn [app] in Hacc.
    split; [exact Hne |]. split; [exact Hidx |]. split; [congruence |].
    split; [exists (u ++ [r]), rest; auto |].
    intros _. exists u, r, rest. rewrite Hscript, <- app_assoc. auto.
  - injection H as <-. rewrite Hpool.
    split; [discriminate |]. split; [reflexivity |]. split; [reflexivity |].
    split; [| discriminate].
    exists [], script. split; [reflexivity |]. cbn. now rewrite app_nil_r.
Qed.

(** X22. The loop of [ensure_auth] and its summary by outcome agree:
    when the loop returns, raises for want of an account, or is left by
    an exception of [authenticate_account], the summary run with the
    accounts the loop ended with gives the same result and the same
    state, file and trace included. *)
Theorem ensure_auth_loop_agrees_with_outcome (script : list Login.Round)
    (s s' : State) (out : Login.Ended) (w : World) :
  Login.ensure_auth script s = (out, s') ->
  out <> Login.StillAsking ->
  (accounts (mgr s) = [] ->
   interactive_login w = accounts (mgr s')
   /\ login_raises w = match out with
                       | Login.LoginRaises => true
                       | _ => false
                       end) ->
  Client.ensure_auth w s
  = (match out with
     | Login.Returned => Ok tt
     | Login.AuthFailed => Raise AuthenticationFailed
     | _ => Raise LoginError
     end, s').
Proof.
  unfold Login.ensure_auth, Client.ensure_auth. intros H Hout Hw.
  destruct (accounts (mgr s)) as [| a l] eqn:Hpool.
  - destruct (rounds_spec script s out s' H) as (used & rest & Hscript & Hadd & Hend).
    destruct (add_accounts_effect (Login.authenticated used) s)
      as (s1 & Hadd' & Hacc & _).
    rewrite Hadd in Hadd'. injection Hadd' as <-.
    rewrite Hpool in Hacc. cbn [app] in Hacc.
    destruct (Hw eq_refl) as [-> ->]. rewrite Hacc.
    destruct out; [| | | contradiction].
    + destruct Hend as [Hp _].
      destruct (Login.authenticated used) as [| x xs]; [congruence |].
      exact Hadd.
    + destruct Hend as [Hp _].
      rewrite Hp in Hacc. rewrite <- Hacc in *. cbn in Hadd.
      injection Hadd as <-. reflexivity.
    + unfold bind. rewrite Hadd. reflexivity.
  - injection H as <- <-. reflexivity.
Qed.

(** X23. [ensure_auth] raises for want of an account only from an empty
    pool, when no login of the rounds so far handed out an account and
    the user declined to retry, or the prompt failed, at the last of
    them; nothing has been written then. Once an account is in the
    pool, a login that fails does not raise. *)
Theorem ensure_auth_fails_only_without_accounts (script : list Login.Round)
    (s s' : State) :
  Login.ensure_auth script s = (Login.AuthFailed, s') ->
  s' = s
  /\ accounts (mgr s) = []
  /\ exists used r rest,
       script = used ++ r :: rest
       /\ Login.authenticated (used ++ [r]) = []
       /\ Login.declined (Login.input r) = true.
Proof.
  unfold Login.ensure_auth. intros H.
  destruct (accounts (mgr s)) as [| a l] eqn:Hpool; [| discriminate].
  destruct (rounds_spec script s _ s' H)
    as (used & rest & Hscript & Hadd & Hp & u & r & -> & Hdecl & _).
  destruct (add_accounts_effect (Login.authenticated (u ++ [r])) s)
    as (s1 & Hadd' & Hacc & _).
  rewrite Hadd in Hadd'. injection Hadd' as <-.
  rewrite Hpool, Hp in Hacc. cbn [app] in Hacc. rewrite <- Hacc in *.
  cbn in Hadd. injection Hadd as <-.
  split; [reflexivity |]. split; [reflexivity |].
  exists u, r, rest. rewrite Hscript, <- app_assoc. auto.
Qed.

End LoginFacts.

(** * The further properties on examples *)
Section MoreExamples.
Local Open Scope string_scope.
Local Open Scope list_scope.

Lemma rotation_cycles_through_the_pool_witness :
  Spec.in_range (mgr Example.alice_and_bob)
  /\ exists s',
       PoolSpec.rotations 3 Example.alice_and_bob = (Ok tt, s')
       /\ active_index (mgr s') = 1.
Proof.
  assert (H : Spec.in_range (mgr Example.alice_and_bob)) by (unfold Spec.in_range; cbn; lia).
  split; [exact H |].
  destruct (rotation_cycles_through_the_pool Example.alice_and_bob 3 H)
    as (s' & Hrun & _ & Hidx & _).
  exists s'. split; [exact Hrun | exact Hidx].
Defined.

Lemma add_account_keeps_current_witness :
  Spec.in_range (mgr Example.alice_and_bob)
  /\ exists s1,
       Auth.add_account Scenario.carol Example.alice_and_bob = (Ok tt, s1)
       /\ accounts (mgr s1) = [Example.alice; Example.bob; Scenario.carol]
       /\ Auth.get_current_account s1 = (Ok (Some (0%nat, Example.alice)), s1).
Proof.
  assert (H : Spec.in_range (mgr Example.alice_and_bob)) by (unfold Spec.in_range; cbn; lia).
  split; [exact H |].
  destruct (add_account_keeps_current Example.alice_and_bob 0 Example.alice
              Scenario.carol H eq_refl)
    as (s1 & Hrun & Hacc & _ & _ & Hcur & _).
  exists s1. split; [exact Hrun |]. split; [exact Hacc | exact Hcur].
Defined.

Lemma refresh_updates_only_current_account_witness :
  clock Example.world_refresh_granted 0 >= 5000 - 60
  /\ nth_error
       (accounts (mgr (snd (Auth.get_valid_token Example.world_refresh_granted
                              Example.alice_and_bob)))) 1
     = Some Example.bob.
Proof.
  split; [cbn; lia |].
  destruct (refresh_updates_only_current_account Example.world_refresh_granted
              Example.alice_and_bob Example.alice_and_bob 0 Example.alice
              {| access_token := "token-new"; expires_in := 3600 |}
              eq_refl) as (_ & Hothers & _).
  - cbn. lia.
  - reflexivity.
  - rewrite (Hothers 1%nat); [reflexivity | discriminate].
Defined.

Lemma noise_lines_are_skipped_witness :
  EngineSpec.ignorable JsonLib.loads Scenario.keep_alive
  /\ Client.yields
       (trace (snd (Client.stream_lines JsonLib.loads
                      [Example.text_event "Hello"; Scenario.keep_alive;
                       Example.text_event ", world"] Example.only_alice)))
     = [JStr "Hello"; JStr ", world"].
Proof.
  assert (H : EngineSpec.ignorable JsonLib.loads Scenario.keep_alive)
    by (right; left; reflexivity).
  split; [exact H |].
  destruct (noise_lines_are_skipped JsonLib.loads
              [Example.text_event "Hello"] [Example.text_event ", world"]
              Scenario.keep_alive Example.only_alice H) as [_ Hrun].
  cbn [app] in Hrun. rewrite Hrun. vm_compute. reflexivity.
Defined.

Lemma rate_limit_rotates_and_ends_attempt_witness :
  EngineSpec.retry_after_readable Scenario.too_many_requests
  /\ exists s',
       Client.try_endpoints JsonLib.loads Scenario.world_rate_limited
         "token-alice" "project-a" Constants.CODE_ASSIST_ENDPOINT_FALLBACKS None
         Example.alice_and_bob
       = (Ok (false, Some (RateLimit Constants.CODE_ASSIST_ENDPOINT_DAILY)), s')
       /\ active_index (mgr s') = 1
       /\ Client.contacted (trace s') = [Constants.CODE_ASSIST_ENDPOINT_DAILY].
Proof.
  assert (H : EngineSpec.retry_after_readable Scenario.too_many_requests)
    by (left; reflexivity).
  split; [exact H |].
  destruct (rate_limit_rotates_and_ends_attempt JsonLib.loads
              Scenario.world_rate_limited "token-alice" "project-a"
              Constants.CODE_ASSIST_ENDPOINT_DAILY
              [Constants.CODE_ASSIST_ENDPOINT_AUTOPUSH;
               Constants.CODE_ASSIST_ENDPOINT_PROD]
              None Example.alice_and_bob Scenario.too_many_requests)
    as (s' & Hrun & _ & Hidx & _ & Hc & _).
  - discriminate.
  - reflexivity.
  - reflexivity.
  - exact H.
  - exists s'. split; [exact Hrun |]. split; [exact Hidx | exact Hc].
Defined.

Lemma rate_limited_account_is_rotated_away_witness :
  accounts (mgr Example.alice_and_bob) = [Example.alice; Example.bob]
  /\ exists s',
       Client.stream_generate_content JsonLib.loads Scenario.world_alice_limited Example.prompt
         Example.alice_and_bob = (Ok tt, s')
       /\ Client.yields (trace s') = [JStr "Hello"; JStr ", world"]
       /\ Client.contacted (trace s')
          = [Constants.CODE_ASSIST_ENDPOINT_DAILY;
             Constants.CODE_ASSIST_ENDPOINT_DAILY]
       /\ active_index (mgr s') = 1.
Proof.
  split; [reflexivity |].
  destruct (rate_limited_account_is_rotated_away JsonLib.loads
              Scenario.world_alice_limited Example.prompt
              Example.prompt_contents Example.alice_and_bob
              Example.alice Example.bob [] Scenario.too_many_requests
              Scenario.streamed eq_refl eq_refl eq_refl)
    as (s' & Hrun & _ & Hc & Hy & Hidx).
  - discriminate.
  - discriminate.
  - intros k. cbn. lia.
  - intros k. cbn. lia.
  - reflexivity.
  - reflexivity.
  - left. reflexivity.
  - reflexivity.
  - cbn. lia.
  - reflexivity.
  - exists s'. split; [exact Hrun |].
    split; [rewrite Hy; vm_compute; reflexivity |].
    split; [exact Hc | exact Hidx].
Defined.

Lemma persistent_rate_limit_uses_whole_budget_witness :
  Spec.in_range (mgr Example.alice_and_bob)
  /\ exists s',
       Client.stream_generate_content JsonLib.loads Scenario.world_rate_limited Example.prompt
         Example.alice_and_bob
       = (Raise (AllAccountsFailed
                   (Some (RateLimit Constants.CODE_ASSIST_ENDPOINT_DAILY))), s')
       /\ Client.attempts_of (trace s') = [1; 2; 3; 4; 5; 6]%nat
       /\ active_index (mgr s') = 0.
Proof.
  assert (H : Spec.in_range (mgr Example.alice_and_bob))
    by (unfold Spec.in_range; cbn; lia).
  split; [exact H |].
  destruct (persistent_rate_limit_uses_whole_budget JsonLib.loads
              Scenario.world_rate_limited Example.prompt
              Example.prompt_contents Example.alice_and_bob eq_refl H)
    as (s' & Hrun & Ha & _ & _ & _ & Hidx).
  - repeat constructor; try discriminate; intros k; cbn; lia.
  - reflexivity.
  - intros k e t q. exists Scenario.too_many_requests.
    split; [reflexivity |]. split; [reflexivity | left; reflexivity].
  - exists s'. split; [exact Hrun |]. split; [exact Ha | exact Hidx].
Defined.

Lemma pkce_pair_shape_witness :
  String.length Scenario.random32 = 32%nat
  /\ String.length (fst (Pkce.generate_pkce Scenario.digest32 Scenario.random32))
     = 43%nat
  /\ String.length (snd (Pkce.generate_pkce Scenario.digest32 Scenario.random32))
     = 43%nat.
Proof.
  split; [reflexivity |].
  pose proof (pkce_pair_shape Scenario.digest32 Scenario.random32 eq_refl
                (fun _ => eq_refl)) as H.
  destruct (Pkce.generate_pkce Scenario.digest32 Scenario.random32)
    as [verifier challenge].
  destruct H as (Hv & Hc & _). split; [exact Hv | exact Hc].
Defined.

Lemma returned_state_is_checked_witness :
  "attacker" <> "verifier-1"
  /\ exists state,
       StateToken.encode_state JsonLib.dumps
         (Pkce.state_payload "verifier-1" EmptyString) = Some state
       /\ Pkce.check_state JsonLib.loads "attacker" state = Pkce.StateMismatch.
Proof.
  assert (H : "attacker" <> "verifier-1") by discriminate.
  split; [exact H |].
  destruct (returned_state_is_checked "verifier-1" "attacker" EmptyString)
    as (state & Henc & _ & Hother).
  exists state. split; [exact Henc | exact (Hother H)].
Defined.

Lemma state_token_is_url_safe_witness :
  JsonLib.dumps Example.state_payload = Some (JsonLib.text Example.state_payload)
  /\ exists token,
       StateToken.encode_state JsonLib.dumps Example.state_payload = Some token
       /\ Pkce.url_safe token = true
       /\ String.length token = 102%nat.
Proof.
  assert (H : JsonLib.dumps Example.state_payload
              = Some (JsonLib.text Example.state_payload)) by reflexivity.
  split; [exact H |].
  destruct (state_token_is_url_safe JsonLib.dumps Example.state_payload _ H)
    as (token & Henc & Hsafe & _ & Hlen & _).
  exists token. split; [exact Henc |]. split; [exact Hsafe |].
  rewrite Hlen. vm_compute. reflexivity.
Defined.

Lemma account_info_defaults_on_total_failure_witness :
  (forall e, In e Constants.CODE_ASSIST_ENDPOINT_FALLBACKS ->
             Scenario.all_down e = AccountInfo.PostRaised
             \/ Scenario.all_down e = AccountInfo.NotOk)
  /\ AccountInfo.fetch_account_info Scenario.all_down
     = (JStr EmptyString, "free", Constants.CODE_ASSIST_ENDPOINT_FALLBACKS).
Proof.
  assert (H : forall e, In e Constants.CODE_ASSIST_ENDPOINT_FALLBACKS ->
                        Scenario.all_down e = AccountInfo.PostRaised
                        \/ Scenario.all_down e = AccountInfo.NotOk)
    by (intros e _; left; reflexivity).
  split; [exact H |].
  exact (account_info_defaults_on_total_failure Scenario.all_down H).
Defined.

Lemma paid_tier_is_kept_across_endpoints_witness :
  AccountInfo.fetch_account_info Scenario.tier_then_project
  = (JStr "project-1", "paid",
     [Constants.CODE_ASSIST_ENDPOINT_DAILY; Constants.CODE_ASSIST_ENDPOINT_AUTOPUSH])
  /\ snd (fst (AccountInfo.fetch_account_info Scenario.tier_then_project)) = "paid".
Proof.
  split; [vm_compute; reflexivity |].
  apply (paid_tier_is_kept_across_endpoints Scenario.tier_then_project []
           [Constants.CODE_ASSIST_ENDPOINT_AUTOPUSH;
            Constants.CODE_ASSIST_ENDPOINT_PROD]
           Constants.CODE_ASSIST_ENDPOINT_DAILY
           (JObj [("allowedTiers",
                   JArr [JObj [("id", JStr "standard-tier");
                               ("isDefault", JBool true)]])])).
  - reflexivity.
  - intros e [].
  - reflexivity.
  - vm_compute. reflexivity.
Defined.

Lemma converted_roles_alternate_witness :
  Gemini._convert_messages_to_gemini (Gemini.plain Scenario.conversation)
  = Some Scenario.converted
  /\ Gemini.no_repeat (map Gemini.role Scenario.converted) = true
  /\ forallb Gemini.well_formed Scenario.converted = true.
Proof.
  assert (H : Gemini._convert_messages_to_gemini
                (Gemini.plain Scenario.conversation) = Some Scenario.converted)
    by (vm_compute; reflexivity).
  split; [exact H |].
  exact (converted_roles_alternate (Gemini.plain Scenario.conversation)
           Scenario.converted H).
Defined.

Lemma converted_parts_are_kept_in_order_witness :
  Gemini._convert_messages_to_gemini (Gemini.plain Scenario.conversation)
  = Some Scenario.converted
  /\ List.concat (map Gemini.parts Scenario.converted)
     = [Gemini.text_part (JStr ("Be brief." ++ Gemini.newline));
        Gemini.text_part (JStr "Hi");
        Gemini.text_part (JStr "Are you there?");
        Gemini.text_part (JStr "Yes.");
        Gemini.text_part (JStr "done")].
Proof.
  assert (H : Gemini._convert_messages_to_gemini
                (Gemini.plain Scenario.conversation) = Some Scenario.converted)
    by (vm_compute; reflexivity).
  split; [exact H |].
  destruct (converted_parts_are_kept_in_order
              (Gemini.plain Scenario.conversation) Scenario.converted H)
    as (si & Hsi & Hparts).
  rewrite Hparts. vm_compute in Hsi. injection Hsi as <-.
  vm_compute. reflexivity.
Defined.

Lemma system_instruction_opens_first_user_entry_witness :
  Gemini.merge_system (Gemini.plain Scenario.conversation) EmptyString
  = Some ("Be brief." ++ Gemini.newline)%string
  /\ exists first rest more,
       Scenario.converted = first :: rest
       /\ Gemini.role first = "user"
       /\ Gemini.parts first
          = Gemini.text_part (JStr ("Be brief." ++ Gemini.newline)) :: more.
Proof.
  assert (H : Gemini.merge_system (Gemini.plain Scenario.conversation) EmptyString
              = Some ("Be brief." ++ Gemini.newline)%string)
    by (vm_compute; reflexivity).
  split; [exact H |].
  apply (system_instruction_opens_first_user_entry
           (Gemini.plain Scenario.conversation) Scenario.converted
           ("Be brief." ++ Gemini.newline)%string).
  - vm_compute. reflexivity.
  - exact H.
  - discriminate.
Defined.

Lemma message_without_role_or_content_raises_witness :
  Gemini.merge_system [Gemini.plain_message "user" "Hi"; Scenario.bare_system]
    EmptyString = Some Gemini.newline
  /\ Gemini._convert_messages_to_gemini
       [Gemini.plain_message "user" "Hi"; Scenario.bare_system] = None.
Proof.
  split; [vm_compute; reflexivity |].
  apply (message_without_role_or_content_raises
           [Gemini.plain_message "user" "Hi"; Scenario.bare_system]
           Scenario.bare_system).
  - right. left. reflexivity.
  - right. reflexivity.
Defined.

Lemma ensure_auth_returns_with_an_account_witness :
  exists s',
    Login.ensure_auth Scenario.two_logins (Example.before_init Missing)
    = (Login.Returned, s')
    /\ accounts (mgr s') = [Example.alice; Example.bob]
    /\ active_index (mgr s') = 0
    /\ exists before last rest,
         Scenario.two_logins = before ++ last :: rest
         /\ Login.declined (Login.input last) = true
         /\ Forall (fun r => Login.declined (Login.input r) = false) before.
Proof.
  eexists. split; [vm_compute; reflexivity |].
  destruct (ensure_auth_returns_with_an_account Scenario.two_logins
              (Example.before_init Missing) _ eq_refl)
    as (_ & Hidx & _ & _ & Hlast).
  split; [reflexivity |]. split; [exact Hidx |].
  destruct (Hlast eq_refl) as (before & last & rest & Hscript & _ & Hdecl & Hbefore).
  exists before, last, rest. auto.
Defined.

Lemma ensure_auth_loop_agrees_with_outcome_witness :
  Login.ensure_auth Scenario.two_logins (Example.before_init Missing)
  = (Login.Returned,
     snd (Client.add_accounts [Example.alice; Example.bob]
            (Example.before_init Missing)))
  /\ Client.ensure_auth Scenario.world_logged_in (Example.before_init Missing)
     = (Ok tt,
        snd (Client.add_accounts [Example.alice; Example.bob]
               (Example.before_init Missing))).
Proof.
  assert (H : Login.ensure_auth Scenario.two_logins (Example.before_init Missing)
              = (Login.Returned,
                 snd (Client.add_accounts [Example.alice; Example.bob]
                        (Example.before_init Missing))))
    by reflexivity.
  split; [exact H |].
  apply (ensure_auth_loop_agrees_with_outcome Scenario.two_logins
           (Example.before_init Missing) _ Login.Returned
           Scenario.world_logged_in H).
  - discriminate.
  - intros _. split; reflexivity.
Defined.

Lemma ensure_auth_fails_only_without_accounts_witness :
  Login.ensure_auth Scenario.no_login (Example.before_init Missing)
  = (Login.AuthFailed, Example.before_init Missing)
  /\ exists used r rest,
       Scenario.no_login = used ++ r :: rest
       /\ Login.declined (Login.input r) = true.
Proof.
  split; [reflexivity |].
  destruct (ensure_auth_fails_only_without_accounts Scenario.no_login
              (Example.before_init Missing) (Example.before_init Missing) eq_refl)
    as (_ & _ & used & r & rest & Hscript & _ & Hdecl).
  exists used, r, rest. split; [exact Hscript | exact Hdecl].
Defined.

Lemma message_without_role_or_content_ends_the_call_witness :
  Gemini.getitem Scenario.bare_system "content" = None
  /\ Client.stream_generate_content JsonLib.loads Example.world_failover
       [Gemini.plain_message "user" "Hi"; Scenario.bare_system]
       Example.only_alice
     = (Raise MessageError, Example.only_alice).
Proof.
  split; [reflexivity |].
  apply (message_without_role_or_content_ends_the_call JsonLib.loads
           Example.world_failover
           [Gemini.plain_message "user" "Hi"; Scenario.bare_system]
           Scenario.bare_system Example.only_alice Example.only_alice).
  - right. left. reflexivity.
  - right. reflexivity.
  - reflexivity.
Defined.

End MoreExamples.
